(** * Aliyun OSS artifact repository: a shallow embedding and its properties

    The development follows
    [src/aliyunstoreplugin/store/artifact/aliyun_oss_artifact_repo.py].

    Conventions.
    - A Python [str] is a [string]; its characters are read as code points
      below 256.
    - The host is a POSIX one: [os.path] is [posixpath], and MLflow's
      [relative_path_to_artifact_path] is then the identity.
    - The Python library functions the repository calls ([str] methods,
      [posixpath], [urllib.parse], [os.walk], [sorted]) are embedded from the
      CPython sources, function by function, in the modules [Str],
      [Posixpath], [Urllib] and [Os] below.
    - The object storage SDK ([oss2]) and the process environment are
      collaborators: their answers are taken from the records [Oss] and
      [Host], and every call made to the SDK is logged in the state. *)

From Stdlib Require Import String Ascii List Bool Arith NArith Lia.
From Stdlib Require Import Permutation Sorted OrderedTypeEx.
Import ListNotations.
Open Scope string_scope.
Open Scope list_scope.

(** String concatenation, Python's [+] on [str]. *)
Notation "a +++ b" := (String.append a b)
  (at level 60, right associativity) : string_scope.

(** ** Python [str] methods *)

Module Str.

(** [s.startswith(p)] *)
Definition startswith (s p : string) : bool := String.prefix p s.

(** [s.endswith(c)] for a one-character [c] *)
Fixpoint endswith (s : string) (c : ascii) : bool :=
  match s with
  | EmptyString => false
  | String a EmptyString => Ascii.eqb a c
  | String _ s' => endswith s' c
  end.

(** [c in s] for a one-character [c] *)
Fixpoint contains (s : string) (c : ascii) : bool :=
  match s with
  | EmptyString => false
  | String a s' => Ascii.eqb a c || contains s' c
  end.

(** [s.find(c)]: [None] stands for Python's [-1]. *)
Fixpoint find (s : string) (c : ascii) : option nat :=
  match s with
  | EmptyString => None
  | String a s' =>
      if Ascii.eqb a c then Some 0
      else match find s' c with
           | Some i => Some (S i)
           | None => None
           end
  end.

(** [s.rfind(c)] *)
Fixpoint rfind (s : string) (c : ascii) : option nat :=
  match s with
  | EmptyString => None
  | String a s' =>
      match rfind s' c with
      | Some i => Some (S i)
      | None => if Ascii.eqb a c then Some 0 else None
      end
  end.

(** [s[:i]] and [s[i:]] for [0 <= i] *)
Fixpoint take (i : nat) (s : string) : string :=
  match i, s with
  | S i', String a s' => String a (take i' s')
  | _, _ => EmptyString
  end.

Fixpoint drop (i : nat) (s : string) : string :=
  match i, s with
  | S i', String _ s' => drop i' s'
  | _, _ => s
  end.

(** [s.split(c)] for a one-character separator: never the empty list. *)
Fixpoint split (s : string) (c : ascii) : list string :=
  match s with
  | EmptyString => [EmptyString]
  | String a s' =>
      if Ascii.eqb a c then EmptyString :: split s' c
      else match split s' c with
           | h :: t => String a h :: t
           | [] => [String a EmptyString]
           end
  end.

(** [sep.join(l)] *)
Definition join (sep : string) (l : list string) : string :=
  String.concat sep l.

(** [s.lstrip(chars)], the set [chars] given by its membership test *)
Fixpoint lstrip (f : ascii -> bool) (s : string) : string :=
  match s with
  | EmptyString => EmptyString
  | String a s' => if f a then lstrip f s' else s
  end.

(** [s.replace(b, "")] for every one-character [b] of a set *)
Fixpoint remove (f : ascii -> bool) (s : string) : string :=
  match s with
  | EmptyString => EmptyString
  | String a s' => if f a then remove f s' else String a (remove f s')
  end.

Definition is_upper (a : ascii) : bool :=
  (65 <=? nat_of_ascii a)%nat && (nat_of_ascii a <=? 90)%nat.

Definition is_lower (a : ascii) : bool :=
  (97 <=? nat_of_ascii a)%nat && (nat_of_ascii a <=? 122)%nat.

Definition is_digit (a : ascii) : bool :=
  (48 <=? nat_of_ascii a)%nat && (nat_of_ascii a <=? 57)%nat.

(** [c.isascii() and c.isalpha()] *)
Definition is_ascii_alpha (a : ascii) : bool := is_upper a || is_lower a.

Definition lower_char (a : ascii) : ascii :=
  if is_upper a then ascii_of_nat (nat_of_ascii a + 32) else a.

(** [s.lower()], on the characters the callers apply it to (ASCII) *)
Fixpoint lower (s : string) : string :=
  match s with
  | EmptyString => EmptyString
  | String a s' => String (lower_char a) (lower s')
  end.

Fixpoint all_chars (f : ascii -> bool) (s : string) : bool :=
  match s with
  | EmptyString => true
  | String a s' => f a && all_chars f s'
  end.

(** truth value of a [str] *)
Definition truthy (s : string) : bool := negb (s =? "").

End Str.

(** ** Results of fallible code *)

(** The exceptions the code can raise, by class and message. [OssError] is
    whatever the storage SDK raises; it is passed through unchanged. *)
Inductive exn : Type :=
| ValueError (msg : string)
| Exception_ (msg : string)
| MlflowException (msg : string)
| AttributeError (msg : string)
| OssError (msg : string).

Inductive result (A : Type) : Type :=
| OK (a : A)
| Raise (e : exn).

Arguments OK {A} a.
Arguments Raise {A} e.

(** ** [posixpath] *)

Module Posixpath.

Definition sep : ascii := "/"%char.
Definition curdir : string := ".".
Definition pardir : string := "..".

Definition isabs (s : string) : bool := Str.startswith s "/".

(** One turn of the loop of [posixpath.join]. *)
Definition join_step (path b : string) : string :=
  if Str.startswith b "/" then b
  else if negb (Str.truthy path) || Str.endswith path sep then path +++ b
  else path +++ "/" +++ b.

(** [posixpath.join(a, *p)] *)
Definition join (a : string) (p : list string) : string :=
  fold_left join_step p a.

(** [posixpath.basename(p)]: [i = p.rfind("/") + 1; return p[i:]] *)
Definition basename (p : string) : string :=
  let i := match Str.rfind p sep with Some i => S i | None => 0 end in
  Str.drop i p.

Definition initial_slashes (path : string) : nat :=
  if Str.startswith path "/" then
    if Str.startswith path "//" && negb (Str.startswith path "///")
    then 2 else 1
  else 0.

(** One turn of the loop of [posixpath.normpath] over the components. *)
Definition norm_step (slashes : nat) (new_comps : list string)
           (comp : string) : list string :=
  if (comp =? "") || (comp =? curdir) then new_comps
  else if negb (comp =? pardir)
          || ((slashes =? 0)%nat && (List.length new_comps =? 0)%nat)
          || (negb (List.length new_comps =? 0)%nat
              && (last new_comps "" =? pardir))
       then new_comps ++ [comp]
       else removelast new_comps.

Definition slashes_string (n : nat) : string :=
  Str.join "" (repeat "/" n).

(** [posixpath.normpath(path)] *)
Definition normpath (path : string) : string :=
  if path =? "" then curdir
  else
    let slashes := initial_slashes path in
    let comps := fold_left (norm_step slashes) (Str.split path sep) [] in
    let path' := slashes_string slashes +++ Str.join "/" comps in
    if Str.truthy path' then path' else curdir.

(** [posixpath.abspath(path)], with [cwd] the value of [os.getcwd()] *)
Definition abspath (cwd path : string) : string :=
  normpath (if isabs path then path else join cwd [path]).

(** [genericpath.commonprefix([a, b])] on two lists of components: the
    longest common prefix (the library takes it between the smaller and
    the larger of the two, which is the same list). *)
Fixpoint commonprefix (a b : list string) : list string :=
  match a, b with
  | x :: a', y :: b' => if x =? y then x :: commonprefix a' b' else []
  | _, _ => []
  end.

(** [[x for x in s.split("/") if x]] *)
Definition parts (s : string) : list string :=
  filter Str.truthy (Str.split s sep).

(** [posixpath.relpath(path, start)] with a [start] that is not [None] *)
Definition relpath (cwd path start : string) : result string :=
  if negb (Str.truthy path) then Raise (ValueError "no path specified")
  else
    let start_list := parts (abspath cwd start) in
    let path_list := parts (abspath cwd path) in
    let i := List.length (commonprefix start_list path_list) in
    let rel_list := repeat pardir (List.length start_list - i)
                    ++ skipn i path_list in
    match rel_list with
    | [] => OK curdir
    | a :: p => OK (join a p)
    end.

End Posixpath.

(** ** [urllib.parse] *)

Module Urllib.

Record ParseResult : Type := mkParseResult {
  scheme : string;
  netloc : string;
  path : string;
  params : string;
  query : string;
  fragment : string
}.

(** [_WHATWG_C0_CONTROL_OR_SPACE]: the characters up to the space *)
Definition c0_control_or_space (a : ascii) : bool :=
  (nat_of_ascii a <=? 32)%nat.

(** [_UNSAFE_URL_BYTES_TO_REMOVE]: tab, carriage return, line feed *)
Definition unsafe_url_byte (a : ascii) : bool :=
  (nat_of_ascii a =? 9)%nat || (nat_of_ascii a =? 13)%nat
  || (nat_of_ascii a =? 10)%nat.

(** [scheme_chars]: letters, digits and ["+-."] *)
Definition scheme_char (a : ascii) : bool :=
  Str.is_ascii_alpha a || Str.is_digit a
  || Ascii.eqb a "+" || Ascii.eqb a "-" || Ascii.eqb a ".".

(** [uses_params] *)
Definition uses_params : list string :=
  [""; "ftp"; "hdl"; "prospero"; "http"; "imap"; "https"; "shttp"; "rtsp";
   "rtspu"; "sip"; "sips"; "mms"; "sftp"; "tel"].

(** The scheme of [urlsplit]: with [i = url.find(":")], a scheme is split
    off when [i > 0], [url[0]] is an ASCII letter and every character of
    [url[:i]] is a scheme character. *)
Definition split_scheme (url : string) : string * string :=
  match Str.find url ":" with
  | Some (S i') =>
      let i := S i' in
      if match url with
         | String a _ => Str.is_ascii_alpha a
         | EmptyString => false
         end
         && Str.all_chars scheme_char (Str.take i url)
      then (Str.lower (Str.take i url), Str.drop (S i) url)
      else ("", url)
  | _ => ("", url)
  end.

Definition netloc_delim (a : ascii) : bool :=
  Ascii.eqb a "/" || Ascii.eqb a "?" || Ascii.eqb a "#".

(** [_splitnetloc(url, start)] after the first [start] characters were
    dropped: the domain runs up to the earliest of ["/"], ["?"], ["#"]. *)
Fixpoint splitnetloc (url : string) : string * string :=
  match url with
  | EmptyString => ("", "")
  | String a s' =>
      if netloc_delim a then ("", url)
      else let (d, r) := splitnetloc s' in (String a d, r)
  end.

(** [url.split(c, 1)] when [c in url] *)
Definition split_once (url : string) (c : ascii) : option (string * string) :=
  match Str.find url c with
  | Some i => Some (Str.take i url, Str.drop (S i) url)
  | None => None
  end.

(** [urlsplit(url)]. The check of a bracketed host ([_check_bracketed_netloc],
    an IPv6 or IPvFuture literal) is the host's [bracketed_netloc_ok].
    [_checknetloc] never raises on code points below 256, whose NFKC forms
    hold none of ["/?#@:"]. *)
Definition urlsplit (bracketed_netloc_ok : string -> bool) (url : string)
  : result (string * string * string * string * string) :=
  let url := Str.lstrip c0_control_or_space url in
  let url := Str.remove unsafe_url_byte url in
  let (scheme, url) := split_scheme url in
  let go (netloc url : string) :=
    let (url, fragment) :=
      match split_once url "#" with
      | Some (u, f) => (u, f)
      | None => (url, "")
      end in
    let (url, query) :=
      match split_once url "?" with
      | Some (u, q) => (u, q)
      | None => (url, "")
      end in
    OK (scheme, netloc, url, query, fragment) in
  if Str.startswith url "//" then
    let (netloc, url) := splitnetloc (Str.drop 2 url) in
    if (Str.contains netloc "[" && negb (Str.contains netloc "]"))
       || (Str.contains netloc "]" && negb (Str.contains netloc "["))
    then Raise (ValueError "Invalid IPv6 URL")
    else if Str.contains netloc "[" && Str.contains netloc "]"
              && negb (bracketed_netloc_ok netloc)
         then Raise (ValueError "Invalid bracketed host")
         else go netloc url
  else go "" url.

(** [_splitparams(url)] *)
Definition splitparams (url : string) : string * string :=
  match Str.rfind url "/" with
  | Some j =>
      match Str.find (Str.drop j url) ";" with
      | Some k => (Str.take (j + k) url, Str.drop (S (j + k)) url)
      | None => (url, "")
      end
  | None =>
      match Str.find url ";" with
      | Some i => (Str.take i url, Str.drop (S i) url)
      | None => (Str.take (String.length url - 1) url, url)
      end
  end.

(** [urlparse(url)] *)
Definition urlparse (bracketed_netloc_ok : string -> bool) (url : string)
  : result ParseResult :=
  match urlsplit bracketed_netloc_ok url with
  | Raise e => Raise e
  | OK (scheme, netloc, url, query, fragment) =>
      if existsb (String.eqb scheme) uses_params && Str.contains url ";"
      then let (url, params) := splitparams url in
           OK (mkParseResult scheme netloc url params query fragment)
      else OK (mkParseResult scheme netloc url "" query fragment)
  end.

End Urllib.

(** ** The process environment and [os] *)

(** A local directory as [os.scandir] shows it: the names of the entries
    that are not directories, and the sub-directories with their names. *)
#[warnings="-register-all"]
Inductive tree : Type :=
| Dir (filenames : list string) (dirs : list (string * tree)).

(** [alibabacloud_credentials.client.Client]: what its three getters return *)
Record Client : Type := mkClient {
  get_access_key_id : string;
  get_access_key_secret : string;
  get_security_token : string
}.

Record Host : Type := mkHost {
  (** [os.getcwd()] *)
  getcwd : string;
  (** [os.environ.get] *)
  environ : string -> option string;
  (** the directory found at an absolute path, if there is one *)
  directory : string -> option tree;
  (** [Client()]: [None] when the default credential chain raises *)
  credentials_client : option Client;
  (** [urllib.parse._check_bracketed_netloc] accepts the host *)
  bracketed_netloc_ok : string -> bool
}.

Module Os.

(** [os.walk(top)] on a directory [t] found at [top]: top-down, one triple
    [(root, dirnames, filenames)] per directory. *)
Fixpoint walk_tree (top : string) (t : tree)
  : list (string * list string * list string) :=
  match t with
  | Dir filenames dirs =>
      (top, map fst dirs, filenames)
        :: flat_map (fun d => walk_tree (Posixpath.join top [fst d]) (snd d))
                    dirs
  end.

(** [os.walk(top)]: nothing is yielded when [top] is not a directory. *)
Definition walk (h : Host) (top : string)
  : list (string * list string * list string) :=
  match directory h top with
  | Some t => walk_tree top t
  | None => []
  end.

End Os.

(** MLflow's [relative_path_to_artifact_path]: on a POSIX host it returns
    its argument. *)
Definition relative_path_to_artifact_path (p : string) : string := p.

(** ** The storage SDK *)

(** [CredentialProviderWrapper] *)
Record CredentialProviderWrapper : Type := mkWrapper {
  client : Client
}.

(** [oss2.credentials.Credentials] *)
Record Credentials : Type := mkCredentials {
  access_key_id : string;
  access_key_secret : string;
  security_token : string
}.

Definition get_credentials (w : CredentialProviderWrapper) : Credentials :=
  mkCredentials (get_access_key_id (client w))
                (get_access_key_secret (client w))
                (get_security_token (client w)).

Inductive Auth : Type :=
| StaticAuth (key_id key_secret : string)
| ProviderAuth (provider : CredentialProviderWrapper).

(** An [oss2.Bucket] object. [handle] is the identity of the object. *)
Record Bucket : Type := mkBucket {
  handle : nat;
  bucket_auth : option Auth;
  bucket_endpoint : option string;
  bucket_name : string
}.

(** [oss2.models.SimplifiedObjectInfo], the two fields the listing reads *)
Record ObjectInfo : Type := mkObjectInfo {
  key : string;
  size : N
}.

(** [oss2.models.ListObjectsResult] *)
Record ListObjectsResult : Type := mkListObjectsResult {
  object_list : list ObjectInfo;
  prefix_list : list string
}.

(** The calls made to the SDK. *)
Inductive Call : Type :=
| BucketInit (auth : option Auth) (endpoint : option string) (name : string)
| PutObjectFromFile (b : Bucket) (key filename : string)
| GetObjectToFile (b : Bucket) (key filename : string)
| ListObjects (b : Bucket) (prefix delimiter : string).

(** What the SDK answers to a call, given the calls made before it. An
    answer [Some msg] of a call without result is an exception raised. *)
Record Oss : Type := mkOss {
  bucket_init : list Call -> option Auth -> option string -> string
                -> option string;
  put_object_from_file : list Call -> Bucket -> string -> string
                         -> option string;
  get_object_to_file : list Call -> Bucket -> string -> string
                       -> option string;
  list_objects : list Call -> Bucket -> string -> string
                 -> string + ListObjectsResult
}.

(** ** The repository object and the state *)

(** [mlflow.entities.FileInfo] *)
Record FileInfo : Type := mkFileInfo {
  path : string;
  is_dir : bool;
  file_size : option N
}.

(** The attributes of an [AliyunOssArtifactRepository]. An attribute that
    was never assigned reads as [None] ([false] for [is_plugin]). *)
Record Repo : Type := mkRepo {
  artifact_uri : string;
  experiment_id : option string;
  run_id : option string;
  auth : option Auth;
  oss_endpoint_url : option string;
  oss_bucket : option Bucket;
  is_plugin : bool
}.

Record State : Type := mkState {
  self : Repo;
  (** the calls made to the SDK so far, oldest first *)
  calls : list Call;
  (** the number of [Bucket] objects created so far *)
  allocated : nat
}.

Definition set_oss_bucket (r : Repo) (b : option Bucket) : Repo :=
  mkRepo (artifact_uri r) (experiment_id r) (run_id r) (auth r)
         (oss_endpoint_url r) b (is_plugin r).

Definition log_call (s : State) (c : Call) : State :=
  mkState (self s) (calls s ++ [c]) (allocated s).

(** Computations on the state that may raise: the state reached when the
    exception is raised is kept. *)
Definition M (A : Type) : Type := State -> result A * State.

Definition ret {A} (a : A) : M A := fun s => (OK a, s).

Definition raise {A} (e : exn) : M A := fun s => (Raise e, s).

Definition bind {A B} (m : M A) (k : A -> M B) : M B :=
  fun s => match m s with
           | (OK a, s') => k a s'
           | (Raise e, s') => (Raise e, s')
           end.

Definition lift {A} (r : result A) : M A := fun s => (r, s).

Definition get_self : M Repo := fun s => (OK (self s), s).

Notation "x <- m ;; k" := (bind m (fun x => k))
  (at level 61, m at next level, right associativity).
Notation "' p <- m ;; k" := (bind m (fun x => let p := x in k))
  (at level 61, p pattern, m at next level, right associativity).
Notation "m ;;; k" := (bind m (fun _ => k))
  (at level 61, right associativity).

(** [for x in l: body(x)] *)
Fixpoint for_each {A} (l : list A) (body : A -> M unit) : M unit :=
  match l with
  | [] => ret tt
  | x :: l' => body x ;;; for_each l' body
  end.

(** [for x in l: acc = body(acc, x)] *)
Fixpoint for_fold {A B} (l : list A) (acc : B) (body : B -> A -> M B) : M B :=
  match l with
  | [] => ret acc
  | x :: l' => acc' <- body acc x ;; for_fold l' acc' body
  end.

(** Truth value of an optional [str] argument: [None] and [""] are false. *)
Definition truthy_opt (o : option string) : bool :=
  match o with
  | Some s => Str.truthy s
  | None => false
  end.

(** [sorted(infos, key=lambda f: f.path)]: a stable sort under [<] on [str],
    here by insertion from the right. *)
Fixpoint insert_by_path (x : FileInfo) (l : list FileInfo) : list FileInfo :=
  match l with
  | [] => [x]
  | y :: l' =>
      if String.ltb (path y) (path x) then y :: insert_by_path x l'
      else x :: l
  end.

Definition sorted_by_path (l : list FileInfo) : list FileInfo :=
  fold_right insert_by_path [] l.

(** ** [AliyunOssArtifactRepository] *)

Definition not_an_oss_uri (uri : string) : exn :=
  Exception_ ("Not an OSS URI: " +++ uri).

Definition object_path_mismatch (artifact_path object_path : string) : exn :=
  MlflowException
    ("The path of the listed oss object does not begin with the specified"
     +++ " artifact path. Artifact path: " +++ artifact_path
     +++ ". Object path:" +++ " " +++ object_path +++ ".").

Definition delete_not_implemented : exn :=
  MlflowException "Delete artifacts not implemented yet for Aliyun OSS".

Definition missing_endpoint : exn :=
  MlflowException "Please set MLFLOW_OSS_ENDPOINT_URL environment variable.".

Definition missing_credentials : exn :=
  MlflowException
    ("Please set MLFLOW_OSS_KEY_ID and MLFLOW_OSS_KEY_SECRET environment variable, "
     +++ "or refer to alibabacloud-credentials for default provider configuration.").

Definition attribute_error : exn :=
  AttributeError "NoneType object has no attribute".

Section Repository.

Variable host : Host.
Variable oss : Oss.

(** [__init__(artifact_uri, experiment_id, run_id, oss_bucket)] *)
Definition init (artifact_uri : string) (experiment_id run_id : option string)
           (oss_bucket : option Bucket) : result Repo :=
  match oss_bucket with
  | Some b =>
      OK (mkRepo artifact_uri experiment_id run_id None None (Some b) false)
  | None =>
      let oss_endpoint_url := environ host "MLFLOW_OSS_ENDPOINT_URL" in
      if negb (truthy_opt oss_endpoint_url) then Raise missing_endpoint
      else
        let oss_access_key_id := environ host "MLFLOW_OSS_KEY_ID" in
        let oss_access_key_secret := environ host "MLFLOW_OSS_KEY_SECRET" in
        let auth :=
          match oss_access_key_id, oss_access_key_secret with
          | Some i, Some k =>
              if Str.truthy i && Str.truthy k then Some (StaticAuth i k)
              else option_map (fun c => ProviderAuth (mkWrapper c))
                              (credentials_client host)
          | _, _ => option_map (fun c => ProviderAuth (mkWrapper c))
                               (credentials_client host)
          end in
        match auth with
        | None => Raise missing_credentials
        | Some a =>
            OK (mkRepo artifact_uri experiment_id run_id (Some a)
                       oss_endpoint_url None true)
        end
  end.

(** [parse_oss_uri(uri)] *)
Definition parse_oss_uri (uri : string) : result (string * string) :=
  match Urllib.urlparse (bracketed_netloc_ok host) uri with
  | Raise e => Raise e
  | OK parsed =>
      if negb (Urllib.scheme parsed =? "oss") then Raise (not_an_oss_uri uri)
      else
        let path := Urllib.path parsed in
        let path := if Str.startswith path "/" then Str.drop 1 path
                    else path in
        OK (Urllib.netloc parsed, path)
  end.

(** [_get_oss_bucket(bucket)] *)
Definition _get_oss_bucket (bucket : string) : M Bucket :=
  fun s =>
    match oss_bucket (self s) with
    | Some b => (OK b, s)
    | None =>
        let a := auth (self s) in
        let e := oss_endpoint_url (self s) in
        let s1 := log_call s (BucketInit a e bucket) in
        match bucket_init oss (calls s) a e bucket with
        | Some msg => (Raise (OssError msg), s1)
        | None =>
            let b := mkBucket (allocated s) a e bucket in
            (OK b, mkState (set_oss_bucket (self s) (Some b))
                           (calls s1) (S (allocated s)))
        end
    end.

(** [self.oss_bucket.put_object_from_file(key, filename)] *)
Definition oss_put (key filename : string) : M unit :=
  fun s =>
    match oss_bucket (self s) with
    | None => (Raise attribute_error, s)
    | Some b =>
        let s1 := log_call s (PutObjectFromFile b key filename) in
        match put_object_from_file oss (calls s) b key filename with
        | Some msg => (Raise (OssError msg), s1)
        | None => (OK tt, s1)
        end
    end.

(** [self.oss_bucket.get_object_to_file(key, filename)] *)
Definition oss_get (key filename : string) : M unit :=
  fun s =>
    match oss_bucket (self s) with
    | None => (Raise attribute_error, s)
    | Some b =>
        let s1 := log_call s (GetObjectToFile b key filename) in
        match get_object_to_file oss (calls s) b key filename with
        | Some msg => (Raise (OssError msg), s1)
        | None => (OK tt, s1)
        end
    end.

(** [self.oss_bucket.list_objects(prefix=prefix, delimiter=delimiter)] *)
Definition oss_list (prefix delimiter : string) : M ListObjectsResult :=
  fun s =>
    match oss_bucket (self s) with
    | None => (Raise attribute_error, s)
    | Some b =>
        let s1 := log_call s (ListObjects b prefix delimiter) in
        match list_objects oss (calls s) b prefix delimiter with
        | inl msg => (Raise (OssError msg), s1)
        | inr r => (OK r, s1)
        end
    end.

(** [log_artifact(local_file, artifact_path)] *)
Definition log_artifact (local_file : string) (artifact_path : option string)
  : M unit :=
  self <- get_self ;;
  '(bucket, dest_path) <- lift (parse_oss_uri (artifact_uri self)) ;;
  let dest_path :=
    match artifact_path with
    | Some p => if Str.truthy p then Posixpath.join dest_path [p]
                else dest_path
    | None => dest_path
    end in
  let dest_path :=
    Posixpath.join dest_path [Posixpath.basename local_file] in
  _get_oss_bucket bucket ;;;
  oss_put dest_path local_file.

(** The body of the loop of [log_artifacts] over [os.walk(local_dir)]. *)
Definition log_artifacts_body (local_dir dest_path : string)
           (entry : string * list string * list string) : M unit :=
  let '(root, _, filenames) := entry in
  let upload_path :=
    if negb (root =? local_dir) then
      let rel_path := Posixpath.relpath (getcwd host) root local_dir in
      match rel_path with
      | OK rel_path =>
          OK (Posixpath.join dest_path
                             [relative_path_to_artifact_path rel_path])
      | Raise e => Raise e
      end
    else OK dest_path in
  upload_path <- lift upload_path ;;
  for_each filenames
           (fun f => oss_put (Posixpath.join upload_path [f])
                             (Posixpath.join root [f])).

(** [log_artifacts(local_dir, artifact_path)] *)
Definition log_artifacts (local_dir : string) (artifact_path : option string)
  : M unit :=
  self <- get_self ;;
  '(bucket, dest_path) <- lift (parse_oss_uri (artifact_uri self)) ;;
  let dest_path :=
    match artifact_path with
    | Some p => if Str.truthy p then Posixpath.join dest_path [p]
                else dest_path
    | None => dest_path
    end in
  _get_oss_bucket bucket ;;;
  let local_dir := Posixpath.abspath (getcwd host) local_dir in
  for_each (Os.walk host local_dir) (log_artifacts_body local_dir dest_path).

(** [_verify_listed_object_contains_artifact_path_prefix] *)
Definition _verify_listed_object_contains_artifact_path_prefix
           (listed_object_path artifact_path : string) : result unit :=
  if negb (Str.startswith listed_object_path artifact_path)
  then Raise (object_path_mismatch artifact_path listed_object_path)
  else OK tt.

(** The bodies of the two loops of [list_artifacts]. *)
Definition list_file (artifact_path : string) (infos : list FileInfo)
           (obj : ObjectInfo) : M (list FileInfo) :=
  let file_path := key obj in
  lift (_verify_listed_object_contains_artifact_path_prefix
          file_path artifact_path) ;;;
  file_rel_path <- lift (Posixpath.relpath (getcwd host) file_path
                                           artifact_path) ;;
  let file_size := size obj in
  ret (infos ++ [mkFileInfo file_rel_path false (Some file_size)]).

Definition list_subdir (artifact_path : string) (infos : list FileInfo)
           (subdir_path : string) : M (list FileInfo) :=
  lift (_verify_listed_object_contains_artifact_path_prefix
          subdir_path artifact_path) ;;;
  subdir_rel_path <- lift (Posixpath.relpath (getcwd host) subdir_path
                                             artifact_path) ;;
  ret (infos ++ [mkFileInfo subdir_rel_path true None]).

(** The [prefix] of the query of [list_artifacts]. *)
Definition listing_prefix (dest_path : string) : string :=
  if Str.truthy dest_path then dest_path +++ "/" else "".

(** [list_artifacts(path)] *)
Definition list_artifacts (path : option string) : M (list FileInfo) :=
  self <- get_self ;;
  '(bucket, artifact_path) <- lift (parse_oss_uri (artifact_uri self)) ;;
  let dest_path := artifact_path in
  let dest_path :=
    match path with
    | Some p => if Str.truthy p then Posixpath.join dest_path [p]
                else dest_path
    | None => dest_path
    end in
  let infos := [] in
  let prefix := listing_prefix dest_path in
  _get_oss_bucket bucket ;;;
  results <- oss_list prefix "/" ;;
  infos <- for_fold (object_list results) infos (list_file artifact_path) ;;
  infos <- for_fold (prefix_list results) infos
                    (list_subdir artifact_path) ;;
  ret (sorted_by_path infos).

(** [_download_file(remote_file_path, local_path)] *)
Definition _download_file (remote_file_path local_path : string) : M unit :=
  self <- get_self ;;
  '(bucket, oss_root_path) <- lift (parse_oss_uri (artifact_uri self)) ;;
  let oss_full_path := Posixpath.join oss_root_path [remote_file_path] in
  _get_oss_bucket bucket ;;;
  oss_get oss_full_path local_path.

(** [delete_artifacts(artifact_path)] *)
Definition delete_artifacts (artifact_path : option string) : M unit :=
  raise delete_not_implemented.

End Repository.

(** * The vocabulary of the statements *)

(** ** Paths *)

(** A plain name: what a directory entry or a clean key component is. *)
Definition plain_name (d : string) : bool :=
  Str.truthy d && negb (Str.contains d Posixpath.sep)
  && negb (d =? Posixpath.curdir) && negb (d =? Posixpath.pardir).

(** The components of a path, as [normpath] sees them when the path is
    absolute. *)
Definition norm_comps (p : string) : list string :=
  fold_left (Posixpath.norm_step 1) (Str.split p Posixpath.sep) [].

(** What [abspath] normalises, and its components. *)
Definition absolute (cwd p : string) : string :=
  if Posixpath.isabs p then p else Posixpath.join cwd [p].

Definition base_comps (cwd p : string) : list string :=
  if Posixpath.isabs p then [] else norm_comps cwd.

(** A relative name list, with or without a trailing separator. *)
Definition spelled (rest : string) (rs : list string) : Prop :=
  rest = String.concat "/" rs \/ rest = String.concat "/" rs +++ "/".

(** ** URIs and keys *)

(** What the spec calls the key prefix of a URI path: the path with exactly
    one leading ["/"] removed if present. *)
Definition strip_leading_slash (p : string) : string :=
  match p with
  | String a rest => if Ascii.eqb a "/" then rest else p
  | EmptyString => p
  end.

(** A bucket name that the URI syntax leaves alone: no delimiter of the
    authority, no bracket, no tab or line break. *)
Definition plain_bucket (bucket : string) : bool :=
  Str.all_chars (fun a => negb (Urllib.netloc_delim a
                                || Urllib.unsafe_url_byte a
                                || Ascii.eqb a "[" || Ascii.eqb a "]"))
                bucket.

(** A key prefix that the URI syntax leaves alone: no ["?"], no ["#"], no
    tab or line break. *)
Definition plain_prefix (prefix : string) : bool :=
  Str.all_chars (fun a => negb (Ascii.eqb a "?" || Ascii.eqb a "#"
                                || Urllib.unsafe_url_byte a))
                prefix.

(** The effective path of an operation: the base prefix joined with the
    sub-path when one is given (a sub-path that is [None] or [""] is not). *)
Definition effective_path (prefix : string) (subpath : option string) : string :=
  if truthy_opt subpath
  then Posixpath.join prefix [match subpath with Some p => p | None => "" end]
  else prefix.

(** A sub-path that joins below the prefix without a doubled separator. *)
Definition relative_subpath (subpath : option string) : Prop :=
  match subpath with
  | Some p => Str.startswith p "/" = false
              /\ Str.endswith p Posixpath.sep = false
  | None => True
  end.

(** ** The listing *)

(** Both loops of [list_artifacts] check the path, make it relative and
    append an entry; [listed] is what they compute from a list of answers. *)
Fixpoint listed {A : Type} (cwd artifact_path : string)
         (path_of : A -> string) (entry : string -> A -> FileInfo)
         (l : list A) (infos : list FileInfo) : result (list FileInfo) :=
  match l with
  | [] => OK infos
  | x :: l' =>
      match _verify_listed_object_contains_artifact_path_prefix
              (path_of x) artifact_path with
      | Raise e => Raise e
      | OK _ =>
          match Posixpath.relpath cwd (path_of x) artifact_path with
          | Raise e => Raise e
          | OK rel => listed cwd artifact_path path_of entry l'
                             (infos ++ [entry rel x])
          end
      end
  end.

Definition file_entry (rel : string) (obj : ObjectInfo) : FileInfo :=
  mkFileInfo rel false (Some (size obj)).

Definition dir_entry (rel : string) (subdir_path : string) : FileInfo :=
  mkFileInfo rel true None.

(** What [list_artifacts] returns from an answer of the storage. *)
Definition listing_of (cwd artifact_path : string) (r : ListObjectsResult)
  : result (list FileInfo) :=
  match listed cwd artifact_path key file_entry (object_list r) [] with
  | Raise e => Raise e
  | OK infos =>
      match listed cwd artifact_path (fun p => p) dir_entry
                   (prefix_list r) infos with
      | Raise e => Raise e
      | OK infos => OK (sorted_by_path infos)
      end
  end.

(** An entry made from an answer of the storage. *)
Definition entry_for {A : Type} (cwd ap : string) (path_of : A -> string)
           (entry : string -> A -> FileInfo) (x : A) (i : FileInfo) : Prop :=
  exists rel, Posixpath.relpath cwd (path_of x) ap = OK rel /\ i = entry rel x.

Definition path_le (x y : FileInfo) : Prop :=
  String.leb (path x) (path y) = true.

(** ** Local trees *)

(** The files of a local tree in the order [os.walk] meets them, each with
    the names of the directories that lead to it from the root. *)
Fixpoint tree_files (dirs_to : list string) (t : tree)
  : list (list string * string) :=
  match t with
  | Dir filenames dirs =>
      map (fun f => (dirs_to, f)) filenames
      ++ flat_map (fun d => tree_files (dirs_to ++ [fst d]) (snd d)) dirs
  end.

(** Every directory of the tree has a plain name. *)
Fixpoint plain_dirs (t : tree) : bool :=
  match t with
  | Dir _ dirs =>
      forallb (fun d => plain_name (fst d) && plain_dirs (snd d))
              dirs
  end.

(** The key of a file of the tree: [join(root, relative_dir, name)], and
    [join(root, name)] for a file of the root directory. *)
Definition tree_key (effective_root : string) (dirs_to : list string)
           (name : string) : string :=
  match dirs_to with
  | [] => Posixpath.join effective_root [name]
  | _ => Posixpath.join effective_root [String.concat "/" dirs_to; name]
  end.

Definition tree_put (b : Bucket) (effective_root top : string)
           (file : list string * string) : Call :=
  PutObjectFromFile b (tree_key effective_root (fst file) (snd file))
                    (Posixpath.join top (fst file ++ [snd file])).

Definition add_calls (s : State) (l : list Call) : State :=
  mkState (self s) (calls s ++ l) (allocated s).

(** ** The operations and the handle *)

(** The operations a caller can invoke on a repository. *)
Inductive Op : Type :=
| GetOssBucket (bucket : string)
| LogArtifact (local_file : string) (artifact_path : option string)
| LogArtifacts (local_dir : string) (artifact_path : option string)
| ListArtifacts (path : option string)
| DownloadFile (remote_file_path local_path : string)
| DeleteArtifacts (artifact_path : option string).

(** The state an operation leaves, whether it returns or raises. *)
Definition run_op (host : Host) (oss : Oss) (s : State) (op : Op) : State :=
  match op with
  | GetOssBucket bucket => snd (_get_oss_bucket oss bucket s)
  | LogArtifact f p => snd (log_artifact host oss f p s)
  | LogArtifacts d p => snd (log_artifacts host oss d p s)
  | ListArtifacts p => snd (list_artifacts host oss p s)
  | DownloadFile r l => snd (_download_file host oss r l s)
  | DeleteArtifacts p => snd (delete_artifacts p s)
  end.

Definition run_ops (host : Host) (oss : Oss) (ops : list Op) (s : State)
  : State :=
  fold_left (run_op host oss) ops s.

Definition is_bucket_init (c : Call) : bool :=
  match c with
  | BucketInit _ _ _ => true
  | _ => false
  end.

(** The number of times the constructor [oss2.Bucket] was called. *)
Definition constructor_calls (l : list Call) : nat :=
  List.length (filter is_bucket_init l).

(** How a computation may move the state: with a stored handle, the object
    and the count of constructions stay and the constructor is not called;
    without one, either nothing is stored or one handle is built and
    stored. *)
Definition handle_step (s s' : State) : Prop :=
  match oss_bucket (self s) with
  | Some _ =>
      self s' = self s /\ allocated s' = allocated s
      /\ constructor_calls (calls s') = constructor_calls (calls s)
  | None =>
      (self s' = self s /\ allocated s' = allocated s)
      \/ (exists b, self s' = set_oss_bucket (self s) (Some b)
                    /\ allocated s' = S (allocated s))
  end.

Definition tracks {A : Type} (m : M A) : Prop :=
  forall s, handle_step s (snd (m s)).

(** ** Fixtures: a host, storage answers and repositories to evaluate on *)

(** A host whose working directory is [/home/u], with the endpoint and a
    key pair in its environment and one local tree [/home/u/root] holding
    [f1.txt] and [sub/f2.txt]. *)
Definition home_host : Host :=
  mkHost "/home/u"
         (fun name =>
            if name =? "MLFLOW_OSS_ENDPOINT_URL"
            then Some "https://oss.example.com"
            else if name =? "MLFLOW_OSS_KEY_ID" then Some "id"
            else if name =? "MLFLOW_OSS_KEY_SECRET" then Some "secret"
            else None)
         (fun p => if p =? "/home/u/root"
                   then Some (Dir ["f1.txt"] [("sub", Dir ["f2.txt"] [])])
                   else None)
         None
         (fun _ => true).

(** A storage that accepts every call and answers every listing by [r]. *)
Definition accepting_oss (r : ListObjectsResult) : Oss :=
  mkOss (fun _ _ _ _ => None) (fun _ _ _ _ => None) (fun _ _ _ _ => None)
        (fun _ _ _ _ => inr r).

Definition empty_listing : ListObjectsResult := mkListObjectsResult [] [].

(** A storage that answers a listing with a key of another run. *)
Definition stray_listing : ListObjectsResult :=
  mkListObjectsResult [mkObjectInfo "run/a.txt" 5;
                       mkObjectInfo "other/b.txt" 7] ["run/sub/"].

(** A storage that holds [/other/a.txt] and answers the listing of
    [/other/] with it. *)
Definition other_listing : ListObjectsResult :=
  mkListObjectsResult [mkObjectInfo "/other/a.txt" 1] [].

(** The answer of the storage in the example of the listing. *)
Definition run_listing : ListObjectsResult :=
  mkListObjectsResult [mkObjectInfo "run/b.txt" 3; mkObjectInfo "run/a.txt" 5]
                      ["run/sub/"].

(** The repository [__init__] makes on [home_host], before any call. *)
Definition fresh_repo (uri : string) : State :=
  mkState (mkRepo uri None None (Some (StaticAuth "id" "secret"))
                  (Some "https://oss.example.com") None true)
          [] 0.

(** The repository [oss://mybucket/run] after its first call of
    [_get_oss_bucket]. *)
Definition bound_repo : State :=
  snd (_get_oss_bucket (accepting_oss empty_listing) "mybucket"
                       (fresh_repo "oss://mybucket/run")).

(** ** Statements as the spec words them *)

(** The query prefix as the spec words it: the effective listing path
    followed by ["/"], whatever the path. *)
Definition listing_query_as_stated (host : Host) (oss : Oss)
           (path : option string) (s : State) : Prop :=
  forall bucket artifact_path,
    parse_oss_uri host (artifact_uri (self s)) = OK (bucket, artifact_path) ->
    forall b prefix delimiter,
      In (ListObjects b prefix delimiter)
         (calls (snd (list_artifacts host oss path s))) ->
      prefix = effective_path artifact_path path +++ "/" /\ delimiter = "/".

(** The key as the spec words it. *)
Definition key_as_stated (prefix : string) (subpath : option string)
           (name : string) : string :=
  match subpath with
  | Some p => if Str.truthy p then prefix +++ "/" +++ p +++ "/" +++ name
              else prefix +++ "/" +++ name
  | None => prefix +++ "/" +++ name
  end.

Definition upload_key_as_stated (host : Host) (oss : Oss)
           (local_file : string) (artifact_path : option string) (s : State)
  : Prop :=
  forall bucket prefix,
    parse_oss_uri host (artifact_uri (self s)) = OK (bucket, prefix) ->
    forall b k f,
      In (PutObjectFromFile b k f)
         (calls (snd (log_artifact host oss local_file artifact_path s))) ->
      k = key_as_stated prefix artifact_path (Posixpath.basename local_file).

(** The three operations on an absolute sub-path, as the claim words them:
    each goes through, on keys outside the base prefix. *)
Definition absolute_subpath_goes_through (host : Host) (oss : Oss)
           (local_file dest subpath : string) (s : State) : Prop :=
  fst (log_artifact host oss local_file (Some subpath) s) = OK tt
  /\ fst (_download_file host oss subpath dest s) = OK tt
  /\ exists infos, fst (list_artifacts host oss (Some subpath) s) = OK infos.

(** ** Runs of uploads *)

(** The puts of a list of (key, local file) pairs on one handle, in order,
    up to and including the first one the storage refuses: the error of that
    put, if any, and the calls made. *)
Fixpoint put_all (oss : Oss) (b : Bucket) (history : list Call)
         (files : list (string * string)) : option string * list Call :=
  match files with
  | [] => (None, [])
  | (k, f) :: files' =>
      let c := PutObjectFromFile b k f in
      match put_object_from_file oss history b k f with
      | Some msg => (Some msg, [c])
      | None =>
          let (outcome, made) := put_all oss b (history ++ [c]) files' in
          (outcome, c :: made)
      end
  end.

(** The storage accepts every put of the list, each one made after the
    earlier ones. *)
Fixpoint accepted (oss : Oss) (b : Bucket) (history : list Call)
         (files : list (string * string)) : bool :=
  match files with
  | [] => true
  | (k, f) :: files' =>
      match put_object_from_file oss history b k f with
      | Some _ => false
      | None => accepted oss b (history ++ [PutObjectFromFile b k f]) files'
      end
  end.

(** The (key, local file) pairs of a local tree, in the order of the walk. *)
Definition tree_uploads (effective_root top : string) (t : tree)
  : list (string * string) :=
  map (fun file => (tree_key effective_root (fst file) (snd file),
                    Posixpath.join top (fst file ++ [snd file])))
      (tree_files [] t).

Definition upload_call (b : Bucket) (file : string * string) : Call :=
  PutObjectFromFile b (fst file) (snd file).

(** A storage that takes one put and refuses every later one. *)
Definition full_oss : Oss :=
  mkOss (fun _ _ _ _ => None)
        (fun history _ _ _ =>
           if existsb (fun c => match c with
                                | PutObjectFromFile _ _ _ => true
                                | _ => false
                                end) history
           then Some "quota exceeded" else None)
        (fun _ _ _ _ => None)
        (fun _ _ _ _ => inr empty_listing).

(** ** What the calls of a run are *)

(** A computation respects a relation on states when the state it leaves,
    returning or raising, is related to the state it started from. *)
Definition respects (R : State -> State -> Prop) {A : Type} (m : M A) : Prop :=
  forall s, R s (snd (m s)).

(** A call made on the handle [b]; the constructor is no such call. *)
Definition on_handle (b : Bucket) (c : Call) : Prop :=
  match c with
  | BucketInit _ _ _ => False
  | PutObjectFromFile b' _ _ => b' = b
  | GetObjectToFile b' _ _ => b' = b
  | ListObjects b' _ _ => b' = b
  end.

(** From a state that stores the handle [b]: the object stays as it is, no
    handle is created, and the calls made since are all on [b]. *)
Definition confined (b : Bucket) (s s' : State) : Prop :=
  oss_bucket (self s) = Some b ->
  self s' = self s /\ allocated s' = allocated s
  /\ exists made, calls s' = calls s ++ made /\ Forall (on_handle b) made.

(** The log of calls is only ever appended to. *)
Definition grows (s s' : State) : Prop :=
  exists made, calls s' = calls s ++ made.

(** The attributes [__init__] set, the handle apart. *)
Definition configuration (r : Repo)
  : string * option string * option string * option Auth * option string
    * bool :=
  (artifact_uri r, experiment_id r, run_id r, auth r, oss_endpoint_url r,
   is_plugin r).

(** A storage whose constructor and calls all fail. *)
Definition failing_oss : Oss :=
  mkOss (fun _ _ _ _ => Some "invalid endpoint")
        (fun _ _ _ _ => Some "connection reset")
        (fun _ _ _ _ => Some "no such key")
        (fun _ _ _ _ => inl "access denied").

(** The operations that obtain the handle before anything else. *)
Definition uses_handle (op : Op) : bool :=
  match op with
  | GetOssBucket _ | DeleteArtifacts _ => false
  | _ => true
  end.

(** The key pair of the environment is complete: both variables are set
    and not empty. *)
Definition key_pair_set (host : Host) : bool :=
  truthy_opt (environ host "MLFLOW_OSS_KEY_ID")
  && truthy_opt (environ host "MLFLOW_OSS_KEY_SECRET").

(** A host with an endpoint and a key id but no secret, whose default
    credential chain answers. *)
Definition chain_host : Host :=
  mkHost "/"
         (fun name =>
            if name =? "MLFLOW_OSS_ENDPOINT_URL"
            then Some "https://oss.example.com"
            else if name =? "MLFLOW_OSS_KEY_ID" then Some "id"
            else None)
         (fun _ => None)
         (Some (mkClient "sts-id" "sts-secret" "sts-token"))
         (fun _ => true).

(** The sub-path under which the single upload of a file of a tree puts
    it where the upload of the tree does: the sub-path of the tree for a
    file of the root directory, joined with the directories to the file
    otherwise. *)
Definition subpath_of_file (artifact_path : option string)
           (dirs_to : list string) : option string :=
  match dirs_to with
  | [] => artifact_path
  | _ => Some (Posixpath.join
                 (match artifact_path with Some p => p | None => "" end)
                 [String.concat "/" dirs_to])
  end.

(** ** Entries of a listing *)

(** The entry has the path [p]. *)
Definition has_path (p : string) (i : FileInfo) : bool := path i =? p.

(** All the paths of an answer of the storage: keys, then common
    prefixes. *)
Definition answered_paths (r : ListObjectsResult) : list string :=
  map key (object_list r) ++ prefix_list r.

(** The sub-path that spells the given directory names; none for no name. *)
Definition subpath_of_names (names : list string) : option string :=
  match names with
  | [] => None
  | _ => Some (String.concat "/" names)
  end.

(** The key below the prefix that spells the given names. *)
Definition key_below (prefix : string) (names : list string) : string :=
  if Str.truthy prefix then prefix +++ "/" +++ String.concat "/" names
  else String.concat "/" names.

(** A storage that answers every listing with a key and a common prefix
    that give the same relative path. *)
Definition tied_listing : ListObjectsResult :=
  mkListObjectsResult [mkObjectInfo "run/b" 2; mkObjectInfo "run/a" 1]
                      ["run/a/"].

(** An answer with an empty key. *)
Definition blank_listing : ListObjectsResult :=
  mkListObjectsResult [mkObjectInfo "a.txt" 1; mkObjectInfo "" 0] [].

(** An answer with a key of a sibling of the run, whose name extends the
    name of the run. *)
Definition sibling_listing : ListObjectsResult :=
  mkListObjectsResult [mkObjectInfo "runner/a.txt" 4] [].

(** * Facts about the library functions *)

Module StrFacts.
Import Str.

Lemma append_empty_r (s : string) : s +++ "" = s.
Proof. induction s; simpl; congruence. Qed.

Lemma append_assoc (a b c : string) : (a +++ b) +++ c = a +++ b +++ c.
Proof. induction a; simpl; congruence. Qed.

Lemma startswith_empty (s : string) : startswith s "" = true.
Proof. destruct s; reflexivity. Qed.

Lemma startswith_app (p s : string) : startswith (p +++ s) p = true.
Proof.
  unfold startswith. induction p as [|a p IH]; simpl.
  - destruct s; reflexivity.
  - rewrite IH. destruct (ascii_dec a a); congruence.
Qed.

Lemma startswith_char (s : string) (c : ascii) :
  startswith s (String c "") = true <-> exists s', s = String c s'.
Proof.
  unfold startswith. destruct s as [|a s]; simpl.
  - split; [discriminate | intros [s' H]; discriminate].
  - destruct (ascii_dec c a) as [->|n].
    + split; [eauto|]. intros _. destruct s; reflexivity.
    + split; [discriminate|]. intros [s' H]. congruence.
Qed.

Lemma startswith_cons (a c : ascii) (s : string) :
  startswith (String a s) (String c "") = Ascii.eqb c a.
Proof.
  unfold startswith. simpl. destruct (ascii_dec c a) as [->|n].
  - rewrite Ascii.eqb_refl. destruct s; reflexivity.
  - symmetry. now apply Ascii.eqb_neq.
Qed.

Lemma truthy_false (s : string) : truthy s = false <-> s = "".
Proof.
  unfold truthy. destruct s; simpl; split; congruence.
Qed.

Lemma truthy_true (s : string) : truthy s = true <-> s <> "".
Proof.
  unfold truthy. destruct s; simpl; split; congruence.
Qed.

Lemma split_nonempty (s : string) (c : ascii) :
  exists h t, split s c = h :: t.
Proof.
  induction s as [|a s IH]; simpl; eauto.
  destruct (Ascii.eqb a c); eauto.
  destruct IH as (h & t & ->). eauto.
Qed.

Lemma split_no_sep (s : string) (c : ascii) :
  contains s c = false -> split s c = [s].
Proof.
  induction s as [|a s IH]; simpl; auto.
  intros H. apply orb_false_iff in H as [-> H].
  now rewrite (IH H).
Qed.

Lemma split_app (a b : string) (c : ascii) :
  split (a +++ String c b) c = split a c ++ split b c.
Proof.
  induction a as [|x a IH]; simpl.
  - now rewrite Ascii.eqb_refl.
  - destruct (Ascii.eqb x c); [now rewrite IH|].
    rewrite IH. destruct (split_nonempty a c) as (h & t & ->).
    reflexivity.
Qed.

Lemma split_elems (s : string) (c : ascii) (x : string) :
  In x (split s c) -> contains x c = false.
Proof.
  revert x. induction s as [|a s IH]; simpl; intros x H.
  - destruct H as [<-|[]]. reflexivity.
  - destruct (Ascii.eqb a c) eqn:E.
    + destruct H as [<-|H]; auto.
    + destruct (split_nonempty s c) as (h & t & Hs).
      rewrite Hs in *. destruct H as [<-|H].
      * simpl. rewrite E. apply IH. now left.
      * apply IH. now right.
Qed.

Lemma contains_app (a b : string) (c : ascii) :
  contains (a +++ b) c = contains a c || contains b c.
Proof.
  induction a as [|x a IH]; simpl; auto.
  now rewrite IH, orb_assoc.
Qed.

Lemma endswith_app (a b : string) (c : ascii) :
  b <> "" -> endswith (a +++ b) c = endswith b c.
Proof.
  intros Hb. induction a as [|x a IH]; simpl; auto.
  rewrite IH. destruct (a +++ b) eqn:E; auto.
  destruct a; simpl in E; congruence.
Qed.

Lemma endswith_contains (s : string) (c : ascii) :
  endswith s c = true -> contains s c = true.
Proof.
  induction s as [|a s IH]; simpl; [discriminate|].
  destruct s.
  - intros ->. reflexivity.
  - intros H. rewrite (IH H). apply orb_true_r.
Qed.

Lemma endswith_snoc (s : string) (c : ascii) :
  endswith s c = true -> exists s', s = s' +++ String c "".
Proof.
  induction s as [|a s IH]; simpl; [discriminate|].
  destruct s.
  - intros H. apply Ascii.eqb_eq in H as ->. now exists "".
  - intros H. destruct (IH H) as [s' Hs']. exists (String a s').
    simpl. now rewrite <- Hs'.
Qed.

Lemma rfind_none (s : string) (c : ascii) :
  rfind s c = None -> contains s c = false.
Proof.
  induction s as [|a s IH]; simpl; auto.
  destruct (rfind s c); [discriminate|].
  destruct (Ascii.eqb a c); [discriminate|]. auto.
Qed.

End StrFacts.

Module PathFacts.
Import Str StrFacts Posixpath.

Lemma plain_name_spec (d : string) :
  plain_name d = true ->
  d <> "" /\ contains d sep = false /\ d <> curdir /\ d <> pardir.
Proof.
  unfold plain_name. intros H.
  repeat (apply andb_true_iff in H as [H ?]).
  repeat split.
  - now apply truthy_true.
  - now apply negb_true_iff.
  - apply String.eqb_neq. now apply negb_true_iff.
  - apply String.eqb_neq. now apply negb_true_iff.
Qed.

Lemma plain_not_abs (d : string) :
  plain_name d = true -> startswith d "/" = false.
Proof.
  intros H. apply plain_name_spec in H as (_ & Hc & _).
  destruct (startswith d "/") eqn:E; auto.
  apply startswith_char in E as [s' ->]. simpl in Hc. discriminate.
Qed.

Lemma plain_not_endswith (d : string) :
  plain_name d = true -> endswith d sep = false.
Proof.
  intros H. apply plain_name_spec in H as (_ & Hc & _).
  destruct (endswith d sep) eqn:E; auto.
  apply endswith_contains in E. congruence.
Qed.

(** *** [normpath] on plain components *)

Lemma norm_step_plain (k : nat) (l : list string) (d : string) :
  plain_name d = true -> norm_step k l d = l ++ [d].
Proof.
  intros H. apply plain_name_spec in H as (H1 & _ & H2 & H3).
  unfold norm_step.
  apply String.eqb_neq in H1, H2, H3. rewrite H1, H2, H3. reflexivity.
Qed.

Lemma norm_step_empty (k : nat) (l : list string) : norm_step k l "" = l.
Proof. reflexivity. Qed.

Lemma norm_step_rooted (k : nat) (l : list string) (c : string) :
  norm_step (S k) l c = norm_step 1 l c.
Proof. reflexivity. Qed.

Lemma fold_norm_rooted (k : nat) (cs l : list string) :
  fold_left (norm_step (S k)) cs l = fold_left (norm_step 1) cs l.
Proof.
  revert l. induction cs as [|c cs IH]; simpl; intros l; auto.
Qed.

Lemma fold_norm_plain (k : nat) (rs l : list string) :
  forallb plain_name rs = true ->
  fold_left (norm_step k) rs l = l ++ rs.
Proof.
  revert l. induction rs as [|r rs IH]; simpl; intros l H.
  - now rewrite app_nil_r.
  - apply andb_true_iff in H as [Hr Hrs].
    rewrite (norm_step_plain _ _ _ Hr), (IH _ Hrs), <- app_assoc.
    reflexivity.
Qed.

(** The components [normpath] keeps are components it was given, and none of
    them is empty. *)
Lemma norm_step_keeps (k : nat) (l : list string) (c x : string) :
  In x (norm_step k l c) -> In x l \/ (x = c /\ c <> "").
Proof.
  unfold norm_step.
  destruct (c =? "") eqn:E1; simpl; auto.
  destruct (c =? curdir); simpl; auto.
  apply String.eqb_neq in E1.
  match goal with |- context [if ?b then _ else _] => destruct b end.
  - intros H. apply in_app_or in H as [H|[<-|[]]]; auto.
  - intros H. left. clear E1. induction l as [|y l IH]; simpl in *; auto.
    destruct l; simpl in *; [contradiction|].
    destruct H as [H|H]; auto.
Qed.

Lemma fold_norm_keeps (k : nat) (cs l : list string) (x : string) :
  In x (fold_left (norm_step k) cs l) ->
  In x l \/ (In x cs /\ x <> "").
Proof.
  revert l. induction cs as [|c cs IH]; simpl; intros l H; auto.
  apply IH in H as [H|[H Hx]]; auto.
  apply norm_step_keeps in H as [H|[-> Hc]]; auto.
Qed.

Lemma norm_comps_elems (p x : string) :
  In x (norm_comps p) -> truthy x = true /\ contains x sep = false.
Proof.
  intros H. apply fold_norm_keeps in H as [[]|[H Hx]].
  split; [now apply truthy_true | now apply split_elems in H].
Qed.

(** *** [split] after [join] *)

Lemma concat_cons (x : string) (l : list string) :
  l <> [] -> String.concat "/" (x :: l) = x +++ "/" +++ String.concat "/" l.
Proof. destruct l; [congruence | reflexivity]. Qed.

Lemma split_concat (l : list string) :
  l <> [] ->
  (forall x, In x l -> contains x sep = false) ->
  split (String.concat "/" l) sep = l.
Proof.
  induction l as [|x l IH]; [congruence|]. intros _ H.
  destruct l as [|y l].
  - simpl. apply split_no_sep. apply H. now left.
  - rewrite concat_cons by discriminate.
    change ("/" +++ String.concat "/" (y :: l))
      with (String sep (String.concat "/" (y :: l))).
    rewrite split_app, IH.
    + rewrite split_no_sep; [reflexivity | apply H; now left].
    + discriminate.
    + intros z Hz. apply H. now right.
Qed.

Lemma filter_truthy_id (l : list string) :
  (forall x, In x l -> truthy x = true) -> filter truthy l = l.
Proof.
  induction l as [|x l IH]; simpl; intros H; auto.
  rewrite (H x) by now left. f_equal. apply IH. intros; apply H; now right.
Qed.

Lemma parts_concat (l : list string) :
  (forall x, In x l -> truthy x = true /\ contains x sep = false) ->
  parts (String.concat "/" l) = l.
Proof.
  intros H. unfold parts. destruct l as [|x l]; [reflexivity|].
  rewrite split_concat.
  - apply filter_truthy_id. intros; now apply H.
  - discriminate.
  - intros; now apply H.
Qed.

Lemma parts_slash (s : string) : parts ("/" +++ s) = parts s.
Proof. reflexivity. Qed.

Lemma initial_slashes_abs (p : string) :
  isabs p = true -> exists k, initial_slashes p = S k /\ k < 2.
Proof.
  unfold isabs, initial_slashes. intros ->.
  destruct (_ && _); [exists 1 | exists 0]; split; auto.
Qed.

(** The components of the normal form of an absolute path. *)
Lemma parts_normpath (p : string) :
  isabs p = true -> parts (normpath p) = norm_comps p.
Proof.
  intros Habs. unfold normpath.
  destruct (p =? "") eqn:E.
  - apply String.eqb_eq in E. subst. discriminate.
  - destruct (initial_slashes_abs _ Habs) as (k & -> & Hk).
    rewrite fold_norm_rooted. fold (norm_comps p).
    assert (Hp : parts (String.concat "/" (norm_comps p)) = norm_comps p)
      by (apply parts_concat, norm_comps_elems).
    destruct k as [|[|k]]; [| |lia]; cbn [slashes_string repeat Str.join
      String.concat String.append truthy String.eqb negb];
      unfold Str.join; simpl String.append; exact Hp.
Qed.

(** *** [join] on plain components *)

Lemma join_step_rel (p d : string) :
  p <> "" -> startswith d "/" = false ->
  join_step p d = if endswith p sep then p +++ d else p +++ "/" +++ d.
Proof.
  intros Hp Hd. unfold join_step. rewrite Hd.
  apply truthy_true in Hp. rewrite Hp. reflexivity.
Qed.

Lemma join_plain (a : string) (p : list string) :
  a <> "" -> endswith a sep = false -> forallb plain_name p = true ->
  join a p = String.concat "/" (a :: p).
Proof.
  revert a. induction p as [|b p IH]; intros a Ha He Hp; [reflexivity|].
  simpl in Hp. apply andb_true_iff in Hp as [Hb Hp].
  unfold join. simpl fold_left. fold (join (join_step a b) p).
  rewrite join_step_rel, He by auto using plain_not_abs.
  destruct (plain_name_spec _ Hb) as (Hb0 & _).
  rewrite IH; auto.
  - rewrite (concat_cons a (b :: p)) by discriminate.
    destruct p as [|c p]; [reflexivity|].
    rewrite !concat_cons by discriminate.
    now rewrite !append_assoc.
  - destruct a; simpl; congruence.
  - rewrite endswith_app by (simpl; congruence).
    change ("/" +++ b) with (String sep b).
    simpl. destruct b; [congruence|]. fold (endswith (String a0 b) sep).
    now apply plain_not_endswith.
Qed.

Lemma isabs_app (p q : string) : isabs p = true -> isabs (p +++ q) = true.
Proof.
  unfold isabs. intros H. apply startswith_char in H as [s' ->].
  apply startswith_char. simpl. eauto.
Qed.

Lemma isabs_join_step (p d : string) :
  isabs p = true -> isabs (join_step p d) = true.
Proof.
  intros H. unfold join_step.
  destruct (startswith d "/") eqn:E; [exact E|].
  destruct (_ || _); now apply isabs_app.
Qed.

Lemma isabs_nonempty (p : string) : isabs p = true -> p <> "".
Proof. intros H ->. discriminate. Qed.

(** *** The components of a joined path *)

Lemma norm_comps_app (a q : string) :
  norm_comps (a +++ "/" +++ q) =
  fold_left (norm_step 1) (split q sep) (norm_comps a).
Proof.
  unfold norm_comps. change ("/" +++ q) with (String sep q).
  now rewrite split_app, fold_left_app.
Qed.

Lemma norm_comps_trailing (a : string) : norm_comps (a +++ "/") = norm_comps a.
Proof.
  change (a +++ "/") with (a +++ "/" +++ "").
  rewrite norm_comps_app. reflexivity.
Qed.

Lemma norm_comps_join_step (p q : string) :
  p <> "" -> startswith q "/" = false ->
  norm_comps (join_step p q) =
  fold_left (norm_step 1) (split q sep) (norm_comps p).
Proof.
  intros Hp Hq. rewrite join_step_rel by auto.
  destruct (endswith p sep) eqn:E.
  - apply endswith_snoc in E as [p' ->].
    rewrite append_assoc. change (String sep "" +++ q) with ("/" +++ q).
    now rewrite norm_comps_app, norm_comps_trailing.
  - apply norm_comps_app.
Qed.

Lemma absolute_isabs (cwd p : string) :
  isabs cwd = true -> isabs (absolute cwd p) = true.
Proof.
  intros H. unfold absolute. destruct (isabs p) eqn:E; auto.
  now apply isabs_join_step.
Qed.

Lemma abs_comps (cwd p : string) :
  isabs cwd = true ->
  norm_comps (absolute cwd p) =
  fold_left (norm_step 1) (split p sep) (base_comps cwd p).
Proof.
  intros H. unfold absolute, base_comps.
  destruct (isabs p) eqn:E; [reflexivity|].
  apply norm_comps_join_step; auto using isabs_nonempty.
Qed.

Lemma parts_abspath (cwd p : string) :
  isabs cwd = true ->
  parts (abspath cwd p) =
  fold_left (norm_step 1) (split p sep) (base_comps cwd p).
Proof.
  intros H. unfold abspath. fold (absolute cwd p).
  rewrite parts_normpath by now apply absolute_isabs.
  now apply abs_comps.
Qed.

(** *** [relpath] below its start *)

Lemma commonprefix_app (l r : list string) : commonprefix l (l ++ r) = l.
Proof.
  induction l as [|x l IH]; simpl; [now destruct r|].
  now rewrite String.eqb_refl, IH.
Qed.

(** When the components of [path] are those of [start] followed by plain
    names, [relpath] is these names joined. *)
Lemma relpath_of_comps (cwd path start : string) (rs : list string) :
  isabs cwd = true ->
  path <> "" ->
  fold_left (norm_step 1) (split path sep) (base_comps cwd path) =
    fold_left (norm_step 1) (split start sep) (base_comps cwd start) ++ rs ->
  forallb plain_name rs = true ->
  rs <> [] ->
  relpath cwd path start = OK (String.concat "/" rs).
Proof.
  intros Hcwd Hp Hcomps Hrs Hne. unfold relpath.
  apply truthy_true in Hp. rewrite Hp. simpl negb. cbv iota.
  rewrite !parts_abspath by assumption. rewrite Hcomps.
  set (n := fold_left _ _ (base_comps cwd start)).
  rewrite commonprefix_app, Nat.sub_diag. simpl repeat. simpl app.
  rewrite skipn_app, skipn_all, Nat.sub_diag. simpl.
  destruct rs as [|a p]; [congruence|].
  simpl in Hrs. apply andb_true_iff in Hrs as [Ha Hrs].
  f_equal. apply join_plain; auto using plain_not_endswith.
  now apply plain_name_spec in Ha.
Qed.

Lemma split_spelled (rest : string) (rs : list string) (l : list string) :
  spelled rest rs -> forallb plain_name rs = true -> rs <> [] ->
  fold_left (norm_step 1) (split rest sep) l = l ++ rs.
Proof.
  intros Hs Hrs Hne.
  assert (Hsplit : split (String.concat "/" rs) sep = rs).
  { apply split_concat; auto. intros x Hx.
    rewrite forallb_forall in Hrs. now apply plain_name_spec, Hrs. }
  destruct Hs as [->| ->].
  - rewrite Hsplit. now apply fold_norm_plain.
  - change "/" with (String sep "") at 2.
    rewrite split_app, Hsplit, fold_left_app. simpl.
    now apply fold_norm_plain.
Qed.

Lemma spelled_not_abs (rest : string) (rs : list string) :
  spelled rest rs -> forallb plain_name rs = true -> rs <> [] ->
  rest <> "" /\ isabs rest = false.
Proof.
  intros Hs Hrs Hne. destruct rs as [|r rs]; [congruence|].
  simpl in Hrs. apply andb_true_iff in Hrs as [Hr _].
  pose proof (plain_not_abs _ Hr) as Hna.
  apply plain_name_spec in Hr as (Hr0 & _).
  destruct r as [|c r]; [congruence|].
  assert (exists t, rest = String c t) as [t ->].
  { destruct Hs as [->| ->]; destruct rs; simpl; eauto. }
  split; [discriminate|].
  destruct (isabs (String c t)) eqn:E; [|reflexivity].
  apply startswith_char in E as [t' E]. injection E as -> _.
  assert (startswith (String "/" r) "/" = true)
    by (apply startswith_char; eauto).
  congruence.
Qed.

(** A key below the start: the relative path is the key with the start and
    the separator stripped, and without the trailing separator. *)
Lemma relpath_below (cwd start rest : string) (rs : list string) :
  isabs cwd = true ->
  spelled rest rs -> forallb plain_name rs = true -> rs <> [] ->
  relpath cwd (if truthy start then start +++ "/" +++ rest else rest) start
  = OK (String.concat "/" rs).
Proof.
  intros Hcwd Hs Hrs Hne.
  destruct (spelled_not_abs _ _ Hs Hrs Hne) as [Hr0 Hrabs].
  destruct (truthy start) eqn:Et.
  - apply truthy_true in Et.
    apply relpath_of_comps; auto.
    + destruct start; simpl; congruence.
    + assert (Hb : base_comps cwd (start +++ "/" +++ rest)
                   = base_comps cwd start).
      { unfold base_comps, isabs. destruct start; [congruence|].
        simpl String.append. now rewrite !startswith_cons. }
      rewrite Hb. change ("/" +++ rest) with (String sep rest).
      rewrite split_app, fold_left_app.
      now apply split_spelled.
  - apply truthy_false in Et. subst start.
    apply relpath_of_comps; auto.
    unfold base_comps. rewrite Hrabs. simpl.
    now apply split_spelled.
Qed.

(** Below an absolute directory, through plain directory names. *)
Lemma isabs_join (p : string) (ds : list string) :
  isabs p = true -> isabs (join p ds) = true.
Proof.
  revert p. induction ds as [|d ds IH]; intros p H; auto.
  apply IH. now apply isabs_join_step.
Qed.

Lemma norm_comps_join (p : string) (ds : list string) :
  isabs p = true -> forallb plain_name ds = true ->
  norm_comps (join p ds) = norm_comps p ++ ds.
Proof.
  revert p. induction ds as [|d ds IH]; intros p H Hds.
  - now rewrite app_nil_r.
  - simpl in Hds. apply andb_true_iff in Hds as [Hd Hds].
    unfold join. simpl fold_left. fold (join (join_step p d) ds).
    rewrite IH by auto using isabs_join_step.
    rewrite norm_comps_join_step by auto using isabs_nonempty, plain_not_abs.
    rewrite split_no_sep by now apply plain_name_spec in Hd.
    simpl. rewrite norm_step_plain by assumption.
    now rewrite <- app_assoc.
Qed.

Lemma relpath_subdir (cwd top : string) (ds : list string) :
  isabs cwd = true -> isabs top = true ->
  forallb plain_name ds = true -> ds <> [] ->
  relpath cwd (join top ds) top = OK (String.concat "/" ds).
Proof.
  intros Hcwd Htop Hds Hne.
  pose proof (isabs_join _ ds Htop) as Habs.
  apply relpath_of_comps; auto using isabs_nonempty.
  unfold base_comps. rewrite Habs, Htop.
  fold (norm_comps (join top ds)). fold (norm_comps top).
  now apply norm_comps_join.
Qed.

Lemma join_subdir_neq (top : string) (ds : list string) :
  isabs top = true -> forallb plain_name ds = true -> ds <> [] ->
  (join top ds =? top) = false.
Proof.
  intros Htop Hds Hne. apply String.eqb_neq. intros E.
  pose proof (norm_comps_join _ _ Htop Hds) as H. rewrite E in H.
  apply (f_equal (@List.length string)) in H.
  rewrite length_app in H. destruct ds; [congruence|]. simpl in H. lia.
Qed.

End PathFacts.

(** * Facts about the repository *)

Section RepositoryFacts.

Variable host : Host.
Variable oss : Oss.

Lemma strip_leading_slash_drop (p : string) :
  (if Str.startswith p "/" then Str.drop 1 p else p) = strip_leading_slash p.
Proof.
  destruct p as [|a p]; [reflexivity|].
  rewrite StrFacts.startswith_cons, Ascii.eqb_sym. reflexivity.
Qed.

Lemma parse_oss_uri_ok (uri : string) (parsed : Urllib.ParseResult) :
  Urllib.urlparse (bracketed_netloc_ok host) uri = OK parsed ->
  Urllib.scheme parsed = "oss" ->
  parse_oss_uri host uri
  = OK (Urllib.netloc parsed, strip_leading_slash (Urllib.path parsed)).
Proof.
  intros Hp Hs. unfold parse_oss_uri. rewrite Hp, Hs. simpl.
  now rewrite strip_leading_slash_drop.
Qed.

Lemma parse_oss_uri_other (uri : string) (parsed : Urllib.ParseResult) :
  Urllib.urlparse (bracketed_netloc_ok host) uri = OK parsed ->
  Urllib.scheme parsed <> "oss" ->
  parse_oss_uri host uri = Raise (not_an_oss_uri uri).
Proof.
  intros Hp Hs. unfold parse_oss_uri. rewrite Hp.
  apply String.eqb_neq in Hs. now rewrite Hs.
Qed.

Lemma parse_oss_uri_unparsed (uri : string) (e : exn) :
  Urllib.urlparse (bracketed_netloc_ok host) uri = Raise e ->
  parse_oss_uri host uri = Raise e.
Proof. intros Hp. unfold parse_oss_uri. now rewrite Hp. Qed.

(** [__init__] stores the handle it is given, and none otherwise. *)
Lemma init_handle (uri : string) (experiment run : option string)
      (given : option Bucket) (r : Repo) :
  init host uri experiment run given = OK r ->
  oss_bucket r = given /\ artifact_uri r = uri.
Proof.
  unfold init. destruct given as [b|].
  - intros H. injection H as <-. auto.
  - destruct (negb _); [discriminate|].
    match goal with |- context [match ?a with Some _ => _ | None => _ end = OK r] =>
      destruct a end; [|discriminate].
    intros H. injection H as <-. auto.
Qed.

(** The sub-path test of the three operations is [effective_path]. *)
Lemma effective_path_eq (prefix : string) (subpath : option string) :
  match subpath with
  | Some p => if Str.truthy p then Posixpath.join prefix [p] else prefix
  | None => prefix
  end = effective_path prefix subpath.
Proof. destruct subpath; reflexivity. Qed.

(** *** The bucket handle *)

Lemma get_oss_bucket_stored (bucket : string) (s : State) (b : Bucket) :
  oss_bucket (self s) = Some b -> _get_oss_bucket oss bucket s = (OK b, s).
Proof. intros H. unfold _get_oss_bucket. now rewrite H. Qed.

Lemma get_oss_bucket_ok (bucket : string) (s s1 : State) (b : Bucket) :
  _get_oss_bucket oss bucket s = (OK b, s1) ->
  oss_bucket (self s1) = Some b
  /\ artifact_uri (self s1) = artifact_uri (self s)
  /\ ((oss_bucket (self s) = Some b /\ s1 = s)
      \/ (oss_bucket (self s) = None
          /\ b = mkBucket (allocated s) (auth (self s))
                          (oss_endpoint_url (self s)) bucket
          /\ calls s1 = calls s ++ [BucketInit (auth (self s))
                                               (oss_endpoint_url (self s))
                                               bucket]
          /\ allocated s1 = S (allocated s))).
Proof.
  unfold _get_oss_bucket.
  destruct (oss_bucket (self s)) as [b0|] eqn:E.
  - intros H. injection H as <- <-. auto.
  - destruct (bucket_init oss _ _ _ _); [discriminate|].
    intros H. injection H as <- <-. simpl. auto 10.
Qed.

(** *** The three calls on the stored handle *)

Lemma oss_put_stored (k f : string) (s : State) (b : Bucket) :
  oss_bucket (self s) = Some b ->
  oss_put oss k f s =
  (match put_object_from_file oss (calls s) b k f with
   | Some msg => Raise (OssError msg)
   | None => OK tt
   end, log_call s (PutObjectFromFile b k f)).
Proof.
  intros H. unfold oss_put. rewrite H.
  now destruct (put_object_from_file oss _ _ _ _).
Qed.

Lemma oss_get_stored (k f : string) (s : State) (b : Bucket) :
  oss_bucket (self s) = Some b ->
  oss_get oss k f s =
  (match get_object_to_file oss (calls s) b k f with
   | Some msg => Raise (OssError msg)
   | None => OK tt
   end, log_call s (GetObjectToFile b k f)).
Proof.
  intros H. unfold oss_get. rewrite H.
  now destruct (get_object_to_file oss _ _ _ _).
Qed.

Lemma oss_list_stored (p d : string) (s : State) (b : Bucket) :
  oss_bucket (self s) = Some b ->
  oss_list oss p d s =
  (match list_objects oss (calls s) b p d with
   | inl msg => Raise (OssError msg)
   | inr r => OK r
   end, log_call s (ListObjects b p d)).
Proof.
  intros H. unfold oss_list. rewrite H.
  now destruct (list_objects oss _ _ _ _).
Qed.

(** *** The operations, once the URI is parsed and the handle obtained *)

Lemma log_artifact_run (local_file : string) (artifact_path : option string)
      (s s1 : State) (bucket prefix : string) (b : Bucket) :
  parse_oss_uri host (artifact_uri (self s)) = OK (bucket, prefix) ->
  _get_oss_bucket oss bucket s = (OK b, s1) ->
  log_artifact host oss local_file artifact_path s =
  oss_put oss (Posixpath.join (effective_path prefix artifact_path)
                              [Posixpath.basename local_file])
          local_file s1.
Proof.
  intros Hp Hb. unfold log_artifact, get_self, lift.
  unfold bind at 1. unfold bind at 1. rewrite Hp. cbv iota beta.
  rewrite effective_path_eq. unfold bind at 1. rewrite Hb. reflexivity.
Qed.

Lemma download_file_run (remote_file_path local_path : string)
      (s s1 : State) (bucket prefix : string) (b : Bucket) :
  parse_oss_uri host (artifact_uri (self s)) = OK (bucket, prefix) ->
  _get_oss_bucket oss bucket s = (OK b, s1) ->
  _download_file host oss remote_file_path local_path s =
  oss_get oss (Posixpath.join prefix [remote_file_path]) local_path s1.
Proof.
  intros Hp Hb. unfold _download_file, get_self, lift.
  unfold bind at 1. unfold bind at 1. rewrite Hp. cbv iota beta.
  unfold bind at 1. rewrite Hb. reflexivity.
Qed.

Lemma list_artifacts_run (path : option string)
      (s s1 : State) (bucket artifact_path : string) (b : Bucket) :
  parse_oss_uri host (artifact_uri (self s)) = OK (bucket, artifact_path) ->
  _get_oss_bucket oss bucket s = (OK b, s1) ->
  list_artifacts host oss path s =
  (results <- oss_list oss
                (listing_prefix (effective_path artifact_path path)) "/" ;;
   infos <- for_fold (object_list results) []
                     (list_file host artifact_path) ;;
   infos <- for_fold (prefix_list results) infos
                     (list_subdir host artifact_path) ;;
   ret (sorted_by_path infos)) s1.
Proof.
  intros Hp Hb. unfold list_artifacts, get_self, lift.
  unfold bind at 1. unfold bind at 1. rewrite Hp. cbv iota beta.
  rewrite effective_path_eq. unfold bind at 1. rewrite Hb. reflexivity.
Qed.

Lemma log_artifacts_run (local_dir : string) (artifact_path : option string)
      (s s1 : State) (bucket prefix : string) (b : Bucket) :
  parse_oss_uri host (artifact_uri (self s)) = OK (bucket, prefix) ->
  _get_oss_bucket oss bucket s = (OK b, s1) ->
  log_artifacts host oss local_dir artifact_path s =
  for_each (Os.walk host (Posixpath.abspath (getcwd host) local_dir))
           (log_artifacts_body host oss
              (Posixpath.abspath (getcwd host) local_dir)
              (effective_path prefix artifact_path)) s1.
Proof.
  intros Hp Hb. unfold log_artifacts, get_self, lift.
  unfold bind at 1. unfold bind at 1. rewrite Hp. cbv iota beta.
  rewrite effective_path_eq. unfold bind at 1. rewrite Hb. reflexivity.
Qed.

(** Every operation that parses the URI stops there when parsing fails,
    in the state it started from. *)
Lemma operations_stop_on_parse_error (s : State) (e : exn) :
  parse_oss_uri host (artifact_uri (self s)) = Raise e ->
  (forall f p, log_artifact host oss f p s = (Raise e, s))
  /\ (forall d p, log_artifacts host oss d p s = (Raise e, s))
  /\ (forall p, list_artifacts host oss p s = (Raise e, s))
  /\ (forall r l, _download_file host oss r l s = (Raise e, s)).
Proof.
  intros Hp. repeat split; intros;
    unfold log_artifact, log_artifacts, list_artifacts, _download_file,
      get_self, lift;
    unfold bind at 1; unfold bind at 1; now rewrite Hp.
Qed.

End RepositoryFacts.

(** ** The two loops of the listing *)

Section ListingFacts.

Variable host : Host.
Variable oss : Oss.

Lemma for_fold_list_file (ap : string) (l : list ObjectInfo)
      (infos : list FileInfo) (s : State) :
  for_fold l infos (list_file host ap) s
  = (listed (getcwd host) ap key file_entry l infos, s).
Proof.
  revert infos. induction l as [|o l IH]; intros infos; [reflexivity|].
  simpl. unfold bind at 1. unfold list_file at 1, bind, lift, ret.
  destruct (_verify_listed_object_contains_artifact_path_prefix _ _);
    [|reflexivity].
  destruct (Posixpath.relpath _ _ _); [|reflexivity].
  apply IH.
Qed.

Lemma for_fold_list_subdir (ap : string) (l : list string)
      (infos : list FileInfo) (s : State) :
  for_fold l infos (list_subdir host ap) s
  = (listed (getcwd host) ap (fun p => p) dir_entry l infos, s).
Proof.
  revert infos. induction l as [|o l IH]; intros infos; [reflexivity|].
  simpl. unfold bind at 1. unfold list_subdir at 1, bind, lift, ret.
  destruct (_verify_listed_object_contains_artifact_path_prefix _ _);
    [|reflexivity].
  destruct (Posixpath.relpath _ _ _); [|reflexivity].
  apply IH.
Qed.

(** The listing, once the URI is parsed and the handle obtained: one query,
    then the answer is turned into entries without any further call. *)
Lemma list_artifacts_answer (path : option string) (s s1 : State)
      (bucket artifact_path : string) (b : Bucket) :
  parse_oss_uri host (artifact_uri (self s)) = OK (bucket, artifact_path) ->
  _get_oss_bucket oss bucket s = (OK b, s1) ->
  list_artifacts host oss path s =
  (match list_objects oss (calls s1) b
           (listing_prefix (effective_path artifact_path path)) "/" with
   | inl msg => Raise (OssError msg)
   | inr r => listing_of (getcwd host) artifact_path r
   end,
   log_call s1 (ListObjects b
                  (listing_prefix (effective_path artifact_path path)) "/")).
Proof.
  intros Hp Hb. rewrite (list_artifacts_run host oss path s s1 _ _ _ Hp Hb).
  destruct (get_oss_bucket_ok oss _ _ _ _ Hb) as (Hs1 & _).
  unfold bind at 1. rewrite (oss_list_stored oss _ _ _ _ Hs1).
  destruct (list_objects oss _ _ _ _) as [msg|r]; [reflexivity|].
  unfold bind at 1. rewrite for_fold_list_file.
  unfold listing_of.
  destruct (listed _ _ key _ _ _) as [infos|e]; [|reflexivity].
  unfold bind at 1. rewrite for_fold_list_subdir.
  destruct (listed _ _ _ _ _ _) as [infos'|e]; reflexivity.
Qed.

End ListingFacts.

(** ** Keys *)

Lemma basename_no_sep (p : string) :
  Str.contains (Posixpath.basename p) Posixpath.sep = false.
Proof.
  unfold Posixpath.basename. induction p as [|a p IH]; [reflexivity|].
  simpl Str.rfind. destruct (Str.rfind p Posixpath.sep) as [i|] eqn:E.
  - exact IH.
  - apply StrFacts.rfind_none in E.
    destruct (Ascii.eqb a Posixpath.sep) eqn:Ea; simpl; [exact E|].
    now rewrite Ea, E.
Qed.

Lemma basename_not_abs (p : string) :
  Str.startswith (Posixpath.basename p) "/" = false.
Proof.
  pose proof (basename_no_sep p) as H.
  destruct (Str.startswith (Posixpath.basename p) "/") eqn:E; auto.
  apply StrFacts.startswith_char in E as [s' E]. rewrite E in H.
  simpl in H. discriminate.
Qed.

Lemma join_abs (p q : string) :
  Str.startswith q "/" = true -> Posixpath.join p [q] = q.
Proof. intros H. unfold Posixpath.join, Posixpath.join_step. simpl. now rewrite H. Qed.

Lemma join_rel (p q : string) :
  p <> "" -> Str.endswith p Posixpath.sep = false ->
  Str.startswith q "/" = false ->
  Posixpath.join p [q] = p +++ "/" +++ q.
Proof.
  intros Hp He Hq. unfold Posixpath.join. simpl.
  now rewrite PathFacts.join_step_rel, He.
Qed.

Lemma join_empty (q : string) : Posixpath.join "" [q] = q.
Proof.
  unfold Posixpath.join, Posixpath.join_step. simpl.
  now destruct (Str.startswith q "/").
Qed.

Lemma startswith_first (a c : ascii) (s t : string) :
  Str.startswith (String a s) (String c t) = true -> a = c.
Proof.
  unfold Str.startswith. simpl. destruct (ascii_dec c a); congruence.
Qed.

(** A path that starts with ["/"] does not start with a non-empty prefix
    that does not. *)
Lemma abs_outside_rel (p prefix : string) :
  Str.startswith p "/" = true -> prefix <> "" ->
  Str.startswith prefix "/" = false ->
  Str.startswith p prefix = false.
Proof.
  intros Hp Hne Hrel. apply StrFacts.startswith_char in Hp as [p' ->].
  destruct prefix as [|c t]; [congruence|].
  destruct (Str.startswith (String "/" p') (String c t)) eqn:E; auto.
  apply startswith_first in E. subst c.
  rewrite StrFacts.startswith_cons in Hrel. discriminate.
Qed.

Lemma startswith_trans (p q r : string) :
  Str.startswith p q = true -> Str.startswith q r = true ->
  Str.startswith p r = true.
Proof.
  unfold Str.startswith. revert p q. induction r as [|c r IH]; intros p q H1 H2.
  - destruct p; reflexivity.
  - destruct q as [|b q]; [discriminate|]. destruct p as [|a p]; [discriminate|].
    simpl in *. destruct (ascii_dec b a); [subst|discriminate].
    destruct (ascii_dec c a); [|discriminate]. eauto.
Qed.

(** ** What the loops of the listing compute *)

Lemma relpath_defined (cwd p start : string) :
  p <> "" -> exists rel, Posixpath.relpath cwd p start = OK rel.
Proof.
  intros Hp. unfold Posixpath.relpath.
  apply StrFacts.truthy_true in Hp. rewrite Hp. simpl negb. cbv iota.
  match goal with |- context [match ?l with [] => _ | _ => _ end] =>
    destruct l end; eauto.
Qed.

Lemma startswith_of_empty (p : string) :
  Str.startswith "" p = true -> p = "".
Proof. destruct p; [reflexivity | discriminate]. Qed.

Section Listed.

Context {A : Type}.
Variables cwd ap : string.
Variable path_of : A -> string.
Variable entry : string -> A -> FileInfo.

Lemma listed_spec (l : list A) (infos : list FileInfo) :
  match listed cwd ap path_of entry l infos with
  | OK r =>
      (forall x, In x l ->
                 Str.startswith (path_of x) ap = true /\ path_of x <> "")
      /\ exists new, r = infos ++ new /\ Forall2 (entry_for cwd ap path_of entry) l new
  | Raise e =>
      (exists x, In x l /\ Str.startswith (path_of x) ap = false
                 /\ e = object_path_mismatch ap (path_of x))
      \/ (ap = "" /\ e = ValueError "no path specified"
          /\ exists x, In x l /\ path_of x = "")
  end.
Proof.
  revert infos. induction l as [|x l IH]; intros infos.
  - simpl. split; [contradiction|]. exists []. now rewrite app_nil_r.
  - simpl. unfold _verify_listed_object_contains_artifact_path_prefix.
    destruct (Str.startswith (path_of x) ap) eqn:Es; simpl.
    + destruct (string_dec (path_of x) "") as [E0|N0].
      * assert (Hr : Posixpath.relpath cwd (path_of x) ap
                     = Raise (ValueError "no path specified"))
          by (rewrite E0; reflexivity).
        rewrite Hr. rewrite E0 in Es. apply startswith_of_empty in Es.
        right. repeat split; auto. exists x. auto with datatypes.
      * destruct (relpath_defined cwd (path_of x) ap N0) as [rel Hrel].
        rewrite Hrel. specialize (IH (infos ++ [entry rel x])).
        destruct (listed _ _ _ _ l _) as [r|e].
        -- destruct IH as (Hall & new & -> & HF). split.
           ++ intros y [<-|Hy]; auto.
           ++ exists (entry rel x :: new). rewrite <- app_assoc. split; auto.
              constructor; auto. now exists rel.
        -- destruct IH as [(y & Hy & Hs & He)|(Ha & He & y & Hy & Hy0)].
           ++ left. exists y. auto with datatypes.
           ++ right. repeat split; auto. exists y. auto with datatypes.
    + left. exists x. auto with datatypes.
Qed.

(** The loop raises the path mismatch exactly when an answer does not start
    with the artifact path. *)
Lemma listed_mismatch_iff (l : list A) (infos : list FileInfo) :
  (exists p, listed cwd ap path_of entry l infos
             = Raise (object_path_mismatch ap p))
  <-> (exists x, In x l /\ Str.startswith (path_of x) ap = false).
Proof.
  pose proof (listed_spec l infos) as H.
  destruct (listed cwd ap path_of entry l infos) as [r|e].
  - destruct H as (Hall & _). split.
    + intros [p Hp]. discriminate.
    + intros (x & Hx & Hs). destruct (Hall x Hx). congruence.
  - destruct H as [(x & Hx & Hs & ->)|(-> & -> & _)].
    + split; eauto.
    + split.
      * intros [p Hp]. discriminate.
      * intros (x & Hx & Hs). now rewrite StrFacts.startswith_empty in Hs.
Qed.

Lemma listed_ok (l : list A) (infos : list FileInfo) :
  (forall x, In x l ->
             Str.startswith (path_of x) ap = true /\ path_of x <> "") ->
  exists new, listed cwd ap path_of entry l infos = OK (infos ++ new)
              /\ Forall2 (entry_for cwd ap path_of entry) l new.
Proof.
  intros Hall. pose proof (listed_spec l infos) as H.
  destruct (listed cwd ap path_of entry l infos) as [r|e].
  - destruct H as (_ & new & -> & HF). eauto.
  - destruct H as [(x & Hx & Hs & _)|(_ & _ & x & Hx & Hx0)];
      destruct (Hall x Hx); congruence.
Qed.

End Listed.

(** ** URIs written out *)

Lemma all_chars_impl (f g : ascii -> bool) (s : string) :
  (forall a, f a = true -> g a = true) ->
  Str.all_chars f s = true -> Str.all_chars g s = true.
Proof.
  intros H. induction s as [|a s IH]; simpl; auto.
  intros Hs. apply andb_true_iff in Hs as [Ha Hs].
  rewrite (H a Ha). auto.
Qed.

Lemma remove_none (f : ascii -> bool) (s : string) :
  Str.all_chars (fun a => negb (f a)) s = true -> Str.remove f s = s.
Proof.
  induction s as [|a s IH]; simpl; auto.
  intros H. apply andb_true_iff in H as [Ha Hs].
  apply negb_true_iff in Ha. rewrite Ha. now rewrite IH.
Qed.

Lemma all_chars_app (f : ascii -> bool) (s t : string) :
  Str.all_chars f (s +++ t) = Str.all_chars f s && Str.all_chars f t.
Proof.
  induction s as [|a s IH]; simpl; auto. now rewrite IH, andb_assoc.
Qed.

Lemma find_none (s : string) (c : ascii) :
  Str.all_chars (fun a => negb (Ascii.eqb a c)) s = true ->
  Str.find s c = None.
Proof.
  induction s as [|a s IH]; simpl; auto.
  intros H. apply andb_true_iff in H as [Ha Hs].
  apply negb_true_iff in Ha. rewrite Ha. now rewrite IH.
Qed.

Lemma contains_none (s : string) (c : ascii) :
  Str.all_chars (fun a => negb (Ascii.eqb a c)) s = true ->
  Str.contains s c = false.
Proof.
  induction s as [|a s IH]; simpl; auto.
  intros H. apply andb_true_iff in H as [Ha Hs].
  apply negb_true_iff in Ha. rewrite Ha. now rewrite IH.
Qed.

Lemma splitnetloc_plain (bucket rest : string) :
  Str.all_chars (fun a => negb (Urllib.netloc_delim a)) bucket = true ->
  rest = "" \/ (exists r, rest = String "/" r) ->
  Urllib.splitnetloc (bucket +++ rest) = (bucket, rest).
Proof.
  intros Hb Hr. induction bucket as [|a s IH]; simpl.
  - destruct Hr as [->|[r ->]]; reflexivity.
  - simpl in Hb. apply andb_true_iff in Hb as [Ha Hs].
    apply negb_true_iff in Ha. rewrite Ha. now rewrite IH.
Qed.

Ltac chars_excluded :=
  let a := fresh "a" in
  intros a; cbv beta; unfold Urllib.netloc_delim, Urllib.unsafe_url_byte;
  repeat match goal with
         | |- context [Ascii.eqb a ?c] => destruct (Ascii.eqb a c)
         | |- context [Nat.eqb ?x ?y] => destruct (Nat.eqb x y)
         end;
  simpl; congruence.

Lemma parse_written_uri (host : Host) (bucket rest : string) :
  plain_bucket bucket = true -> plain_prefix rest = true ->
  rest = "" \/ (exists r, rest = String "/" r) ->
  parse_oss_uri host ("oss://" +++ bucket +++ rest)
  = OK (bucket, strip_leading_slash rest).
Proof.
  intros Hb Hp Hr.
  assert (B1 : Str.all_chars (fun a => negb (Urllib.netloc_delim a)) bucket
               = true).
  { revert Hb. apply all_chars_impl. chars_excluded. }
  assert (B2 : Str.all_chars (fun a => negb (Urllib.unsafe_url_byte a)) bucket
               = true).
  { revert Hb. apply all_chars_impl. chars_excluded. }
  assert (B3 : Str.contains bucket "[" = false).
  { apply contains_none. revert Hb. apply all_chars_impl.
    chars_excluded. }
  assert (P1 : Str.all_chars (fun a => negb (Urllib.unsafe_url_byte a)) rest
               = true).
  { revert Hp. apply all_chars_impl. chars_excluded. }
  assert (P2 : Str.find rest "#" = None).
  { apply find_none. revert Hp. apply all_chars_impl. chars_excluded. }
  assert (P3 : Str.find rest "?" = None).
  { apply find_none. revert Hp. apply all_chars_impl. chars_excluded. }
  assert (B4 : Str.contains bucket "]" = false).
  { apply contains_none. revert Hb. apply all_chars_impl.
    chars_excluded. }
  assert (Hsplit :
            Urllib.urlsplit (bracketed_netloc_ok host)
                            ("oss://" +++ bucket +++ rest)
            = OK ("oss", bucket, rest, "", "")).
  { unfold Urllib.urlsplit.
    change (Str.lstrip Urllib.c0_control_or_space
                       ("oss://" +++ bucket +++ rest))
      with ("oss://" +++ bucket +++ rest).
    rewrite remove_none
      by (rewrite !all_chars_app, B2, P1; reflexivity).
    change (Urllib.split_scheme ("oss://" +++ bucket +++ rest))
      with ("oss", "//" +++ bucket +++ rest).
    cbv iota beta.
    rewrite (StrFacts.startswith_app "//" (bucket +++ rest)).
    change (Str.drop 2 ("//" +++ bucket +++ rest)) with (bucket +++ rest).
    rewrite splitnetloc_plain by assumption.
    rewrite B3, B4. simpl.
    unfold Urllib.split_once. now rewrite P2, P3. }
  unfold parse_oss_uri, Urllib.urlparse. rewrite Hsplit. simpl.
  now rewrite strip_leading_slash_drop.
Qed.

(** ** The fixtures *)

Lemma fresh_repo_init (uri : string) :
  init home_host uri None None None = OK (self (fresh_repo uri)).
Proof. reflexivity. Qed.

(** * The claims *)

(** C3. For every URI whose scheme is [oss], [parse_oss_uri] returns the
    authority of the URI unchanged as the bucket, and as the key prefix the
    path of the URI with exactly one leading ["/"] removed when there is one:
    further slashes, trailing slashes and dot segments stay as they are. A
    URI written [oss://bucket/prefix] gives back the bucket and the prefix
    it was written with. So [oss://mybucket/path/to/run] gives
    [("mybucket", "path/to/run")] and [oss://mybucket] gives
    [("mybucket", "")]. *)
Theorem parse_oss_uri_bucket_and_prefix :
  forall (host : Host) (uri : string) (parsed : Urllib.ParseResult),
    Urllib.urlparse (bracketed_netloc_ok host) uri = OK parsed ->
    Urllib.scheme parsed = "oss" ->
    parse_oss_uri host uri
    = OK (Urllib.netloc parsed, strip_leading_slash (Urllib.path parsed))
    /\ (forall bucket prefix,
          plain_bucket bucket = true -> plain_prefix prefix = true ->
          parse_oss_uri host ("oss://" +++ bucket +++ "/" +++ prefix)
          = OK (bucket, prefix)
          /\ parse_oss_uri host ("oss://" +++ bucket) = OK (bucket, ""))
    /\ parse_oss_uri host "oss://mybucket/path/to/run"
       = OK ("mybucket", "path/to/run")
    /\ parse_oss_uri host "oss://mybucket" = OK ("mybucket", "")
    /\ parse_oss_uri host "oss://mybucket//a/./b/../c//"
       = OK ("mybucket", "/a/./b/../c//").
Proof.
  intros host uri parsed Hp Hs.
  split; [now apply parse_oss_uri_ok|]. split; [|repeat split].
  intros bucket prefix Hb Hpre. split.
  - apply (parse_written_uri host bucket (String "/" prefix)); eauto.
  - pose proof (parse_written_uri host bucket "" Hb eq_refl (or_introl eq_refl))
      as H.
    now rewrite StrFacts.append_empty_r in H.
Qed.

Lemma parse_oss_uri_bucket_and_prefix_witness :
  parse_oss_uri home_host "OSS://My.Bucket//run/?versionId=3"
  = OK ("My.Bucket", "/run/").
Proof.
  exact (proj1 (parse_oss_uri_bucket_and_prefix
                  home_host "OSS://My.Bucket//run/?versionId=3"
                  (Urllib.mkParseResult "oss" "My.Bucket" "//run/" ""
                                        "versionId=3" "")
                  eq_refl eq_refl)).
Defined.

(** C7. For every URI whose scheme is not [oss], [parse_oss_uri] raises the
    exception "Not an OSS URI" and does nothing else; the operations of a
    repository with such a URI raise it before any call to the storage, in
    an unchanged state. So [s3://mybucket/x] is refused. *)
Theorem parse_oss_uri_rejects_other_schemes :
  forall (host : Host) (uri : string) (parsed : Urllib.ParseResult),
    Urllib.urlparse (bracketed_netloc_ok host) uri = OK parsed ->
    Urllib.scheme parsed <> "oss" ->
    parse_oss_uri host uri = Raise (not_an_oss_uri uri)
    /\ (forall (oss : Oss) (s : State),
          artifact_uri (self s) = uri ->
          (forall f p, log_artifact host oss f p s
                       = (Raise (not_an_oss_uri uri), s))
          /\ (forall d p, log_artifacts host oss d p s
                          = (Raise (not_an_oss_uri uri), s))
          /\ (forall p, list_artifacts host oss p s
                        = (Raise (not_an_oss_uri uri), s))
          /\ (forall r l, _download_file host oss r l s
                          = (Raise (not_an_oss_uri uri), s)))
    /\ parse_oss_uri host "s3://mybucket/x"
       = Raise (not_an_oss_uri "s3://mybucket/x").
Proof.
  intros host uri parsed Hp Hs.
  pose proof (parse_oss_uri_other host uri parsed Hp Hs) as H.
  split; [exact H|]. split; [|reflexivity].
  intros oss s Hu. apply operations_stop_on_parse_error. now rewrite Hu.
Qed.

Lemma parse_oss_uri_rejects_other_schemes_witness :
  parse_oss_uri home_host "http://mybucket/run"
  = Raise (not_an_oss_uri "http://mybucket/run").
Proof.
  refine (proj1 (parse_oss_uri_rejects_other_schemes
                   home_host "http://mybucket/run"
                   (Urllib.mkParseResult "http" "mybucket" "/run" "" "" "")
                   eq_refl _)).
  discriminate.
Defined.

(** C8. Whatever its argument, [delete_artifacts] raises the exception
    "Delete artifacts not implemented yet": it makes no call to the storage
    and leaves the state as it was. *)
Theorem delete_artifacts_not_implemented :
  forall (artifact_path : option string) (s : State),
    delete_artifacts artifact_path s = (Raise delete_not_implemented, s)
    /\ calls (snd (delete_artifacts artifact_path s)) = calls s.
Proof. intros. split; reflexivity. Qed.

(** ** The query of the listing *)

(** Listing the root of [oss://mybucket] queries the prefix [""], not
    ["/"]. *)
Lemma listing_query_of_empty_path :
  ~ listing_query_as_stated home_host (accepting_oss empty_listing) None
      (fresh_repo "oss://mybucket").
Proof.
  intros H.
  specialize (H "mybucket" "" eq_refl
                (mkBucket 0 (Some (StaticAuth "id" "secret"))
                          (Some "https://oss.example.com") "mybucket")
                "" "/").
  destruct H as [H _]; [|discriminate H].
  vm_compute. right. left. reflexivity.
Qed.

(** C6, amended. Every listing makes one query to the storage, with the
    delimiter ["/"]; its prefix is the effective listing path followed by
    ["/"] when that path is not empty, and the empty string when it is. *)
Theorem list_artifacts_query :
  forall (host : Host) (oss : Oss) (path : option string) (s s1 : State)
         (bucket artifact_path : string) (b : Bucket),
    parse_oss_uri host (artifact_uri (self s)) = OK (bucket, artifact_path) ->
    _get_oss_bucket oss bucket s = (OK b, s1) ->
    exists prefix,
      calls (snd (list_artifacts host oss path s))
      = calls s1 ++ [ListObjects b prefix "/"]
      /\ (effective_path artifact_path path <> "" ->
          prefix = effective_path artifact_path path +++ "/")
      /\ (effective_path artifact_path path = "" -> prefix = "").
Proof.
  intros host oss path s s1 bucket ap b Hp Hb.
  exists (listing_prefix (effective_path ap path)).
  rewrite (list_artifacts_answer host oss path s s1 bucket ap b Hp Hb).
  split; [reflexivity|]. unfold listing_prefix. split; intros H.
  - apply StrFacts.truthy_true in H. now rewrite H.
  - now rewrite H.
Qed.

Lemma list_artifacts_query_witness :
  exists prefix,
    calls (snd (list_artifacts home_host (accepting_oss empty_listing)
                               (Some "models")
                               (fresh_repo "oss://mybucket/run")))
    = [BucketInit (Some (StaticAuth "id" "secret"))
                  (Some "https://oss.example.com") "mybucket"]
      ++ [ListObjects (mkBucket 0 (Some (StaticAuth "id" "secret"))
                                (Some "https://oss.example.com") "mybucket")
                      prefix "/"]
    /\ (effective_path "run" (Some "models") <> "" ->
        prefix = effective_path "run" (Some "models") +++ "/")
    /\ (effective_path "run" (Some "models") = "" -> prefix = "").
Proof.
  exact (list_artifacts_query
           home_host (accepting_oss empty_listing) (Some "models")
           (fresh_repo "oss://mybucket/run") _ "mybucket" "run" _
           eq_refl eq_refl).
Defined.

(** ** The key of a single upload *)

(** With the URI [oss://mybucket], whose prefix is empty, a file is
    uploaded to its base name, without a leading ["/"]. *)
Lemma upload_key_of_empty_prefix :
  ~ upload_key_as_stated home_host (accepting_oss empty_listing)
      "/tmp/model.pkl" None (fresh_repo "oss://mybucket").
Proof.
  intros H.
  specialize (H "mybucket" "" eq_refl
                (mkBucket 0 (Some (StaticAuth "id" "secret"))
                          (Some "https://oss.example.com") "mybucket")
                "model.pkl" "/tmp/model.pkl").
  discriminate H. vm_compute. right. left. reflexivity.
Qed.

(** C2, amended. A single upload makes one [put] call, with the key
    [posixpath.join(prefix, subpath, basename)] (the sub-path left out when
    it is absent or empty). When the prefix is not empty and does not end
    with ["/"], and the sub-path neither starts nor ends with ["/"], this is
    [prefix + "/" + subpath + "/" + basename] with a sub-path and
    [prefix + "/" + basename] without; when the prefix is empty it is that
    string without its leading ["/"]: [subpath + "/" + basename],
    respectively [basename]. *)
Theorem log_artifact_key :
  forall (host : Host) (oss : Oss) (local_file : string)
         (artifact_path : option string) (s s1 : State)
         (bucket prefix : string) (b : Bucket),
    parse_oss_uri host (artifact_uri (self s)) = OK (bucket, prefix) ->
    _get_oss_bucket oss bucket s = (OK b, s1) ->
    exists k,
      calls (snd (log_artifact host oss local_file artifact_path s))
      = calls s1 ++ [PutObjectFromFile b k local_file]
      /\ k = Posixpath.join
               (effective_path prefix artifact_path)
               [Posixpath.basename local_file]
      /\ (relative_subpath artifact_path ->
          Str.endswith prefix Posixpath.sep = false ->
          (prefix <> "" ->
           k = key_as_stated prefix artifact_path
                             (Posixpath.basename local_file))
          /\ (prefix = "" ->
              "/" +++ k = key_as_stated prefix artifact_path
                                        (Posixpath.basename local_file))).
Proof.
  intros host oss local_file ap s s1 bucket prefix b Hp Hb.
  eexists. split; [|split; [reflexivity|]].
  - rewrite (log_artifact_run host oss _ _ _ _ _ _ _ Hp Hb).
    destruct (get_oss_bucket_ok oss _ _ _ _ Hb) as (Hs1 & _).
    rewrite (oss_put_stored oss _ _ _ _ Hs1). reflexivity.
  - intros Hrel Hend.
    pose proof (basename_not_abs local_file) as Hbase.
    set (name := Posixpath.basename local_file) in *.
    assert (Hsub : forall p, ap = Some p -> Str.truthy p = true ->
                   p <> "" /\ Str.startswith p "/" = false
                   /\ Str.endswith p Posixpath.sep = false).
    { intros p -> Ht. destruct Hrel. apply StrFacts.truthy_true in Ht. auto. }
    split.
    + intros Hne. unfold effective_path, key_as_stated, truthy_opt.
      destruct ap as [p|]; [destruct (Str.truthy p) eqn:Et|].
      * destruct (Hsub p eq_refl Et) as (Hp0 & Hp1 & Hp2).
        rewrite (join_rel prefix p) by auto.
        rewrite join_rel; auto.
        -- now rewrite !StrFacts.append_assoc.
        -- destruct prefix; simpl; congruence.
        -- rewrite StrFacts.endswith_app by (simpl; congruence).
           change ("/" +++ p) with (String Posixpath.sep p).
           destruct p; [congruence|]. exact Hp2.
      * now apply join_rel.
      * now apply join_rel.
    + intros ->. unfold effective_path, key_as_stated, truthy_opt.
      destruct ap as [p|]; [destruct (Str.truthy p) eqn:Et|].
      * destruct (Hsub p eq_refl Et) as (Hp0 & Hp1 & Hp2).
        rewrite join_empty. now rewrite join_rel.
      * now rewrite join_empty.
      * now rewrite join_empty.
Qed.

Lemma log_artifact_key_witness :
  exists k,
    calls (snd (log_artifact home_host (accepting_oss empty_listing)
                             "/tmp/out/model.pkl" (Some "models")
                             (fresh_repo "oss://mybucket/path/to/run")))
    = [BucketInit (Some (StaticAuth "id" "secret"))
                  (Some "https://oss.example.com") "mybucket"]
      ++ [PutObjectFromFile
            (mkBucket 0 (Some (StaticAuth "id" "secret"))
                      (Some "https://oss.example.com") "mybucket")
            k "/tmp/out/model.pkl"]
    /\ k = "path/to/run/models/model.pkl".
Proof.
  destruct (log_artifact_key
              home_host (accepting_oss empty_listing) "/tmp/out/model.pkl"
              (Some "models") (fresh_repo "oss://mybucket/path/to/run") _
              "mybucket" "path/to/run" _ eq_refl eq_refl)
    as (k & Hcalls & Hk & _).
  exists k. split; [exact Hcalls | exact Hk].
Defined.

(** ** The path check of the listing *)

(** The mismatch is raised exactly when an answer lies outside the
    artifact path. *)
Lemma listing_of_mismatch_iff (cwd ap : string) (r : ListObjectsResult) :
  (exists p, listing_of cwd ap r = Raise (object_path_mismatch ap p))
  <-> (exists p, In p (map key (object_list r) ++ prefix_list r)
                 /\ Str.startswith p ap = false).
Proof.
  unfold listing_of.
  pose proof (listed_spec cwd ap key file_entry (object_list r) []) as HF.
  destruct (listed _ _ key _ _ _) as [infos|e].
  - destruct HF as (Hfiles & _).
    pose proof (listed_spec cwd ap (fun p => p) dir_entry
                            (prefix_list r) infos) as HD.
    destruct (listed _ _ _ dir_entry _ _) as [infos'|e].
    + destruct HD as (Hdirs & _). split.
      * intros [p H]. discriminate.
      * intros (p & Hin & Hs). apply in_app_or in Hin as [Hin|Hin].
        -- apply in_map_iff in Hin as (o & <- & Ho).
           destruct (Hfiles o Ho). congruence.
        -- destruct (Hdirs p Hin). congruence.
    + destruct HD as [(p & Hin & Hs & ->)|(-> & -> & _)].
      * split; [|eauto]. intros _. exists p. auto with datatypes.
      * split.
        -- intros [p H]. discriminate.
        -- intros (p & _ & Hs). now rewrite StrFacts.startswith_empty in Hs.
  - destruct HF as [(o & Hin & Hs & ->)|(-> & -> & _)].
    + split; [|eauto]. intros _. exists (key o). split; auto.
      apply in_or_app. left. now apply in_map.
    + split.
      * intros [p H]. discriminate.
      * intros (p & _ & Hs). now rewrite StrFacts.startswith_empty in Hs.
Qed.

(** C5. When the storage answers the query of a listing, the listing raises
    the exception "The path of the listed oss object does not begin with the
    specified artifact path" if and only if some key or common prefix of the
    answer does not start with the key prefix parsed from the artifact URI;
    the sub-path of the listing plays no part in the check. *)
Theorem list_artifacts_mismatch_iff :
  forall (host : Host) (oss : Oss) (path : option string) (s s1 : State)
         (bucket artifact_path : string) (b : Bucket) (r : ListObjectsResult),
    parse_oss_uri host (artifact_uri (self s)) = OK (bucket, artifact_path) ->
    _get_oss_bucket oss bucket s = (OK b, s1) ->
    list_objects oss (calls s1) b
                 (listing_prefix (effective_path artifact_path path)) "/"
    = inr r ->
    (exists p, fst (list_artifacts host oss path s)
               = Raise (object_path_mismatch artifact_path p))
    <-> (exists p, In p (map key (object_list r) ++ prefix_list r)
                   /\ Str.startswith p artifact_path = false).
Proof.
  intros host oss path s s1 bucket ap b r Hp Hb Hl.
  rewrite (list_artifacts_answer host oss path s s1 bucket ap b Hp Hb), Hl.
  cbn [fst]. apply listing_of_mismatch_iff.
Qed.

Lemma list_artifacts_mismatch_iff_witness :
  (exists p, fst (list_artifacts home_host (accepting_oss stray_listing)
                                 (Some "sub")
                                 (fresh_repo "oss://mybucket/run"))
             = Raise (object_path_mismatch "run" p))
  <-> (exists p, In p (map key (object_list stray_listing)
                       ++ prefix_list stray_listing)
                 /\ Str.startswith p "run" = false).
Proof.
  exact (list_artifacts_mismatch_iff
           home_host (accepting_oss stray_listing) (Some "sub")
           (fresh_repo "oss://mybucket/run") _ "mybucket" "run" _
           stray_listing eq_refl eq_refl eq_refl).
Defined.

(** ** Sub-paths that start with ["/"] *)

(** Listing [/other] in the repository [oss://mybucket/run] fails on the
    first key the storage returns. *)
Lemma listing_absolute_subpath_fails :
  ~ absolute_subpath_goes_through
      home_host (accepting_oss other_listing)
      "/tmp/model.pkl" "/tmp/a.txt" "/other"
      (fresh_repo "oss://mybucket/run").
Proof.
  intros (_ & _ & infos & H). vm_compute in H. discriminate H.
Qed.

(** C10, amended. In a repository with a non-empty key prefix, a sub-path
    that starts with ["/"] replaces the prefix in the join: the effective
    path is the sub-path alone. The upload then puts the key
    [join(subpath, basename)] and the download gets the key [subpath], and
    both succeed when the storage accepts the call; the listing queries the
    prefix [subpath + "/"], and raises the path mismatch as soon as the
    answer holds a key or common prefix that does not start with the key
    prefix of the repository. When the key prefix does not itself start with
    ["/"], these keys are outside it, and every non-empty answer to the
    listing query that lies below the queried prefix makes the listing
    fail. *)
Theorem absolute_subpath_discards_prefix :
  forall (host : Host) (oss : Oss) (s s1 : State) (bucket prefix : string)
         (b : Bucket) (subpath : string),
    parse_oss_uri host (artifact_uri (self s)) = OK (bucket, prefix) ->
    prefix <> "" ->
    _get_oss_bucket oss bucket s = (OK b, s1) ->
    Str.startswith subpath "/" = true ->
    effective_path prefix (Some subpath) = subpath
    /\ (forall local_file,
          let k := Posixpath.join subpath [Posixpath.basename local_file] in
          calls (snd (log_artifact host oss local_file (Some subpath) s))
          = calls s1 ++ [PutObjectFromFile b k local_file]
          /\ (put_object_from_file oss (calls s1) b k local_file = None ->
              fst (log_artifact host oss local_file (Some subpath) s) = OK tt)
          /\ (Str.startswith prefix "/" = false ->
              Str.startswith k prefix = false))
    /\ (forall dest,
          calls (snd (_download_file host oss subpath dest s))
          = calls s1 ++ [GetObjectToFile b subpath dest]
          /\ (get_object_to_file oss (calls s1) b subpath dest = None ->
              fst (_download_file host oss subpath dest s) = OK tt)
          /\ (Str.startswith prefix "/" = false ->
              Str.startswith subpath prefix = false))
    /\ calls (snd (list_artifacts host oss (Some subpath) s))
       = calls s1 ++ [ListObjects b (subpath +++ "/") "/"]
    /\ (forall r,
          list_objects oss (calls s1) b (subpath +++ "/") "/" = inr r ->
          ((exists p, In p (map key (object_list r) ++ prefix_list r)
                      /\ Str.startswith p prefix = false) ->
           exists p, fst (list_artifacts host oss (Some subpath) s)
                     = Raise (object_path_mismatch prefix p))
          /\ (Str.startswith prefix "/" = false ->
              map key (object_list r) ++ prefix_list r <> [] ->
              (forall p, In p (map key (object_list r) ++ prefix_list r) ->
                         Str.startswith p (subpath +++ "/") = true) ->
              exists p, fst (list_artifacts host oss (Some subpath) s)
                        = Raise (object_path_mismatch prefix p))).
Proof.
  intros host oss s s1 bucket prefix b subpath Hp Hne Hb Habs.
  assert (Hsub0 : subpath <> "") by (intros ->; discriminate).
  assert (Heff : effective_path prefix (Some subpath) = subpath).
  { unfold effective_path, truthy_opt.
    apply StrFacts.truthy_true in Hsub0. rewrite Hsub0.
    now apply join_abs. }
  destruct (get_oss_bucket_ok oss _ _ _ _ Hb) as (Hs1 & _).
  split; [exact Heff|]. split; [|split; [|split]].
  - intros local_file k.
    rewrite (log_artifact_run host oss _ _ _ _ _ _ _ Hp Hb), Heff.
    rewrite (oss_put_stored oss _ _ _ _ Hs1). fold k.
    split; [reflexivity|]. split.
    + intros ->. reflexivity.
    + intros Hrel. apply abs_outside_rel; auto.
      apply (PathFacts.isabs_join subpath [Posixpath.basename local_file]).
      exact Habs.
  - intros dest.
    rewrite (download_file_run host oss _ _ _ _ _ _ _ Hp Hb).
    rewrite (join_abs prefix subpath Habs).
    rewrite (oss_get_stored oss _ _ _ _ Hs1).
    split; [reflexivity|]. split.
    + intros ->. reflexivity.
    + intros Hrel. now apply abs_outside_rel.
  - rewrite (list_artifacts_answer host oss _ _ _ _ _ _ Hp Hb), Heff.
    unfold listing_prefix. apply StrFacts.truthy_true in Hsub0.
    now rewrite Hsub0.
  - intros r Hl.
    assert (Hl' : list_objects oss (calls s1) b
                    (listing_prefix (effective_path prefix (Some subpath)))
                    "/" = inr r).
    { rewrite Heff. unfold listing_prefix.
      apply StrFacts.truthy_true in Hsub0. now rewrite Hsub0. }
    pose proof (listing_of_mismatch_iff (getcwd host) prefix r) as Hiff.
    rewrite (list_artifacts_answer host oss _ _ _ _ _ _ Hp Hb), Hl'.
    cbn [fst].
    split; [apply Hiff|].
    intros Hrel Hsome Hbelow. apply Hiff.
    destruct (map key (object_list r) ++ prefix_list r) as [|p l] eqn:E;
      [congruence|].
    exists p. split; [now left|].
    apply abs_outside_rel; auto.
    apply startswith_trans with (q := subpath +++ "/").
    + apply Hbelow. now left.
    + apply StrFacts.startswith_char in Habs as [t ->].
      apply StrFacts.startswith_char. simpl. eauto.
Qed.

Lemma absolute_subpath_discards_prefix_witness :
  effective_path "run" (Some "/other") = "/other"
  /\ calls (snd (log_artifact home_host (accepting_oss other_listing)
                              "/tmp/model.pkl" (Some "/other")
                              (fresh_repo "oss://mybucket/run")))
     = [BucketInit (Some (StaticAuth "id" "secret"))
                   (Some "https://oss.example.com") "mybucket";
        PutObjectFromFile
          (mkBucket 0 (Some (StaticAuth "id" "secret"))
                    (Some "https://oss.example.com") "mybucket")
          "/other/model.pkl" "/tmp/model.pkl"]
  /\ exists p, fst (list_artifacts home_host (accepting_oss other_listing)
                                   (Some "/other")
                                   (fresh_repo "oss://mybucket/run"))
               = Raise (object_path_mismatch "run" p).
Proof.
  destruct (absolute_subpath_discards_prefix
              home_host (accepting_oss other_listing)
              (fresh_repo "oss://mybucket/run") _ "mybucket" "run" _ "/other"
              eq_refl ltac:(discriminate) eq_refl eq_refl)
    as (Heff & Hput & _ & _ & Hlist).
  split; [exact Heff|]. split.
  - exact (proj1 (Hput "/tmp/model.pkl")).
  - apply (proj2 (Hlist other_listing eq_refl) eq_refl).
    + discriminate.
    + intros p [<-|[]]. reflexivity.
Defined.

(** ** The bucket handle over the life of a repository *)

Lemma handle_step_refl (s : State) : handle_step s s.
Proof. unfold handle_step. destruct (oss_bucket (self s)); auto. Qed.

Lemma handle_step_trans (s s' s'' : State) :
  handle_step s s' -> handle_step s' s'' -> handle_step s s''.
Proof.
  unfold handle_step. destruct (oss_bucket (self s)) as [b|] eqn:E.
  - intros (H1 & H2 & H3). rewrite H1, E. intros (H4 & H5 & H6).
    repeat split; congruence.
  - intros [(H1 & H2)|(b & H1 & H2)].
    + rewrite H1, E. intros [(H4 & H5)|(b & H4 & H5)].
      * left. split; congruence.
      * right. exists b. split; congruence.
    + rewrite H1. simpl. intros (H4 & H5 & _).
      right. exists b. split; congruence.
Qed.

Lemma handle_step_log_call (s : State) (c : Call) :
  is_bucket_init c = false -> handle_step s (log_call s c).
Proof.
  intros Hc. unfold handle_step, log_call, constructor_calls. simpl.
  rewrite filter_app. simpl. rewrite Hc, app_nil_r.
  destruct (oss_bucket (self s)); auto.
Qed.

Lemma tracks_ret {A : Type} (a : A) : tracks (ret a).
Proof. intros s. apply handle_step_refl. Qed.

Lemma tracks_raise {A : Type} (e : exn) : tracks (@raise A e).
Proof. intros s. apply handle_step_refl. Qed.

Lemma tracks_lift {A : Type} (r : result A) : tracks (lift r).
Proof. intros s. apply handle_step_refl. Qed.

Lemma tracks_get_self : tracks get_self.
Proof. intros s. apply handle_step_refl. Qed.

Lemma tracks_bind {A B : Type} (m : M A) (k : A -> M B) :
  tracks m -> (forall a, tracks (k a)) -> tracks (bind m k).
Proof.
  intros Hm Hk s. unfold bind. specialize (Hm s).
  destruct (m s) as [[a|e] s']; simpl in *; auto.
  eapply handle_step_trans; [exact Hm | apply Hk].
Qed.

Lemma tracks_for_each {A : Type} (l : list A) (body : A -> M unit) :
  (forall x, tracks (body x)) -> tracks (for_each l body).
Proof.
  intros Hb. induction l as [|x l IH]; simpl.
  - apply tracks_ret.
  - apply tracks_bind; auto.
Qed.

Lemma tracks_for_fold {A B : Type} (l : list A) (acc : B)
      (body : B -> A -> M B) :
  (forall acc x, tracks (body acc x)) -> tracks (for_fold l acc body).
Proof.
  intros Hb. revert acc. induction l as [|x l IH]; intros acc; simpl.
  - apply tracks_ret.
  - apply tracks_bind; auto.
Qed.

Section HandleFacts.

Variable host : Host.
Variable oss : Oss.

Lemma tracks_get_oss_bucket (bucket : string) :
  tracks (_get_oss_bucket oss bucket).
Proof.
  intros s. unfold _get_oss_bucket, handle_step.
  destruct (oss_bucket (self s)) as [b|] eqn:E.
  - simpl. auto.
  - destruct (bucket_init oss _ _ _ _); simpl; eauto.
Qed.

Lemma tracks_oss_put (k f : string) : tracks (oss_put oss k f).
Proof.
  intros s. unfold oss_put.
  destruct (oss_bucket (self s)) as [b|] eqn:E.
  - destruct (put_object_from_file oss _ _ _ _);
      now apply handle_step_log_call.
  - apply handle_step_refl.
Qed.

Lemma tracks_oss_get (k f : string) : tracks (oss_get oss k f).
Proof.
  intros s. unfold oss_get.
  destruct (oss_bucket (self s)) as [b|] eqn:E.
  - destruct (get_object_to_file oss _ _ _ _);
      now apply handle_step_log_call.
  - apply handle_step_refl.
Qed.

Lemma tracks_oss_list (p d : string) : tracks (oss_list oss p d).
Proof.
  intros s. unfold oss_list.
  destruct (oss_bucket (self s)) as [b|] eqn:E.
  - destruct (list_objects oss _ _ _ _);
      now apply handle_step_log_call.
  - apply handle_step_refl.
Qed.

Ltac tracks_steps :=
  repeat first
    [ apply tracks_bind; [|intros]
    | apply tracks_get_self
    | apply tracks_lift
    | apply tracks_ret
    | apply tracks_raise
    | apply tracks_get_oss_bucket
    | apply tracks_oss_put
    | apply tracks_oss_get
    | apply tracks_oss_list
    | apply tracks_for_each; intros
    | apply tracks_for_fold; intros
    | match goal with
      | |- tracks (let '(_, _) := ?p in _) => destruct p
      end ].

Lemma tracks_log_artifact (f : string) (p : option string) :
  tracks (log_artifact host oss f p).
Proof. unfold log_artifact. tracks_steps. Qed.

Lemma tracks_log_artifacts (d : string) (p : option string) :
  tracks (log_artifacts host oss d p).
Proof.
  unfold log_artifacts. tracks_steps.
  unfold log_artifacts_body. destruct x as [[root dirnames] filenames].
  tracks_steps.
Qed.

Lemma tracks_list_artifacts (p : option string) :
  tracks (list_artifacts host oss p).
Proof. unfold list_artifacts. tracks_steps. Qed.

Lemma tracks_download_file (r l : string) :
  tracks (_download_file host oss r l).
Proof. unfold _download_file. tracks_steps. Qed.

Lemma handle_step_run_op (s : State) (op : Op) :
  handle_step s (run_op host oss s op).
Proof.
  destruct op; simpl.
  - apply tracks_get_oss_bucket.
  - apply tracks_log_artifact.
  - apply tracks_log_artifacts.
  - apply tracks_list_artifacts.
  - apply tracks_download_file.
  - apply handle_step_refl.
Qed.

Lemma handle_step_run_ops (ops : list Op) (s : State) :
  handle_step s (run_ops host oss ops s).
Proof.
  unfold run_ops. revert s. induction ops as [|op ops IH]; intros s; simpl.
  - apply handle_step_refl.
  - eapply handle_step_trans; [apply handle_step_run_op | apply IH].
Qed.

End HandleFacts.

(** C9. The handle of a repository is built at most once. On a repository
    without a handle, a call of [_get_oss_bucket] whose constructor call the
    storage library accepts returns: it builds one handle, for the bucket it
    is given, stores it, and every later call of [_get_oss_bucket], with
    whatever bucket name, returns that same handle and leaves the state as
    it is. A call that returns on a repository without a handle has built
    and stored the handle it returns. With a handle stored, whatever
    operations are invoked, in whatever order, the stored handle stays the
    same object, no handle is created and the constructor is not called
    again. From any state, a sequence of operations creates at most one
    handle. *)
Theorem bucket_handle_constructed_once :
  forall (host : Host) (oss : Oss) (s : State),
    (forall bucket,
        oss_bucket (self s) = None ->
        bucket_init oss (calls s) (auth (self s)) (oss_endpoint_url (self s))
                    bucket = None ->
        exists b s1,
          _get_oss_bucket oss bucket s = (OK b, s1)
          /\ oss_bucket (self s1) = Some b
          /\ handle b = allocated s
          /\ bucket_name b = bucket
          /\ allocated s1 = S (allocated s)
          /\ calls s1 = calls s ++ [BucketInit (auth (self s))
                                               (oss_endpoint_url (self s))
                                               bucket]
          /\ forall bucket', _get_oss_bucket oss bucket' s1 = (OK b, s1))
    /\ (forall bucket b s1,
          oss_bucket (self s) = None ->
          _get_oss_bucket oss bucket s = (OK b, s1) ->
          oss_bucket (self s1) = Some b
          /\ handle b = allocated s
          /\ bucket_name b = bucket
          /\ allocated s1 = S (allocated s)
          /\ calls s1 = calls s ++ [BucketInit (auth (self s))
                                               (oss_endpoint_url (self s))
                                               bucket])
    /\ (forall b,
          oss_bucket (self s) = Some b ->
          (forall bucket, _get_oss_bucket oss bucket s = (OK b, s))
          /\ (forall ops,
                oss_bucket (self (run_ops host oss ops s)) = Some b
                /\ allocated (run_ops host oss ops s) = allocated s
                /\ constructor_calls (calls (run_ops host oss ops s))
                   = constructor_calls (calls s)))
    /\ (forall ops, allocated (run_ops host oss ops s) <= S (allocated s)).
Proof.
  intros host oss s. split; [|split; [|split]].
  - intros bucket Hnone Hinit.
    exists (mkBucket (allocated s) (auth (self s))
                     (oss_endpoint_url (self s)) bucket).
    eexists. split.
    + unfold _get_oss_bucket. rewrite Hnone, Hinit. reflexivity.
    + repeat split.
  - intros bucket b s1 Hnone Hb.
    destruct (get_oss_bucket_ok oss _ _ _ _ Hb)
      as (Hs1 & _ & [(Hsome & _)|(_ & -> & Hc & Ha)]); [congruence|].
    auto.
  - intros b Hsome. split.
    + intros bucket. now apply get_oss_bucket_stored.
    + intros ops. pose proof (handle_step_run_ops host oss ops s) as H.
      unfold handle_step in H. rewrite Hsome in H.
      destruct H as (H1 & H2 & H3). rewrite H1. auto.
  - intros ops. pose proof (handle_step_run_ops host oss ops s) as H.
    unfold handle_step in H.
    destruct (oss_bucket (self s)); [|destruct H as [H|[b H]]];
      destruct H as (_ & H2 & ?) || destruct H as (_ & H2); lia.
Qed.

Lemma bucket_handle_constructed_once_witness :
  exists b s1,
    _get_oss_bucket (accepting_oss empty_listing) "mybucket"
                    (fresh_repo "oss://mybucket/run") = (OK b, s1)
    /\ oss_bucket (self s1) = Some b
    /\ handle b = 0
    /\ bucket_name b = "mybucket"
    /\ allocated s1 = 1
    /\ calls s1 = [BucketInit (Some (StaticAuth "id" "secret"))
                              (Some "https://oss.example.com") "mybucket"]
    /\ forall bucket',
        _get_oss_bucket (accepting_oss empty_listing) bucket' s1 = (OK b, s1).
Proof.
  exact (proj1 (bucket_handle_constructed_once
                  home_host (accepting_oss empty_listing)
                  (fresh_repo "oss://mybucket/run"))
               "mybucket" eq_refl eq_refl).
Defined.

(** ** Sorting by path *)

Lemma ltb_leb (a b : string) : String.ltb a b = true -> String.leb a b = true.
Proof.
  unfold String.ltb, String.leb. destruct (String.compare a b); congruence.
Qed.

Lemma not_ltb_leb (a b : string) :
  String.ltb a b = false -> String.leb b a = true.
Proof.
  unfold String.ltb, String.leb. rewrite (String.compare_antisym b a).
  destruct (String.compare a b); simpl; congruence.
Qed.

Lemma leb_cases (a b : string) :
  String.leb a b = true <-> a = b \/ String_as_OT.lt a b.
Proof.
  unfold String.leb. fold (String_as_OT.cmp a b).
  destruct (String_as_OT.cmp a b) eqn:E.
  - apply String_as_OT.cmp_eq in E. tauto.
  - apply String_as_OT.cmp_lt in E. tauto.
  - split; [discriminate|]. intros [->|H].
    + assert (String_as_OT.cmp b b = Eq) by now apply String_as_OT.cmp_eq.
      congruence.
    + apply String_as_OT.cmp_lt in H. congruence.
Qed.

Lemma path_le_trans (x y z : FileInfo) :
  path_le x y -> path_le y z -> path_le x z.
Proof.
  unfold path_le. rewrite !leb_cases.
  intros [E1|H1] [E2|H2].
  - left. congruence.
  - right. now rewrite E1.
  - right. now rewrite <- E2.
  - right. eapply String_as_OT.lt_trans; eauto.
Qed.

Lemma insert_by_path_perm (x : FileInfo) (l : list FileInfo) :
  Permutation (insert_by_path x l) (x :: l).
Proof.
  induction l as [|y l IH]; cbn [insert_by_path]; auto.
  destruct (String.ltb (path y) (path x)); auto.
  rewrite IH. apply perm_swap.
Qed.

Lemma sorted_by_path_perm (l : list FileInfo) :
  Permutation (sorted_by_path l) l.
Proof.
  induction l as [|x l IH]; cbn [sorted_by_path fold_right]; auto.
  rewrite insert_by_path_perm. now constructor.
Qed.

Lemma insert_by_path_hd (a x : FileInfo) (l : list FileInfo) :
  HdRel path_le a l -> path_le a x -> HdRel path_le a (insert_by_path x l).
Proof.
  intros Hl Hx. destruct l as [|y l]; cbn [insert_by_path].
  - now constructor.
  - destruct (String.ltb (path y) (path x)); constructor; auto.
    now inversion Hl.
Qed.

Lemma insert_by_path_sorted (x : FileInfo) (l : list FileInfo) :
  Sorted path_le l -> Sorted path_le (insert_by_path x l).
Proof.
  induction l as [|y l IH]; cbn [insert_by_path]; intros Hs.
  - repeat constructor.
  - inversion Hs as [|? ? Hl Hhd]; subst.
    destruct (String.ltb (path y) (path x)) eqn:E.
    + constructor; auto. apply insert_by_path_hd; auto.
      now apply ltb_leb.
    + constructor; auto. constructor. now apply not_ltb_leb.
Qed.

Lemma sorted_by_path_sorted (l : list FileInfo) :
  StronglySorted path_le (sorted_by_path l).
Proof.
  apply Sorted_StronglySorted; [exact path_le_trans|].
  induction l as [|x l IH]; cbn [sorted_by_path fold_right].
  - constructor.
  - now apply insert_by_path_sorted.
Qed.

(** ** The entries of a listing *)

(** C1. When the storage answers a listing with keys and common prefixes
    that start with the key prefix of the repository, the listing returns:
    for every key an entry that is not a directory, with the size the
    storage reports and the path [posixpath.relpath(key, prefix)]; for every
    common prefix an entry that is a directory, without size, with the path
    made relative in the same way; all of them, sorted by path in ascending
    lexicographic order. For a key or common prefix that spells plain names
    below the key prefix, the relative path is what follows the key prefix
    and its separator, without a trailing ["/"]. So the keys [run/a.txt]
    and [run/b.txt] and the common prefix [run/sub/] of the prefix [run] are
    listed as the files [a.txt] and [b.txt] and the directory [sub], in this
    order. *)
Theorem list_artifacts_entries :
  forall (host : Host) (oss : Oss) (path_arg : option string) (s s1 : State)
         (bucket artifact_path : string) (b : Bucket) (r : ListObjectsResult),
    parse_oss_uri host (artifact_uri (self s)) = OK (bucket, artifact_path) ->
    _get_oss_bucket oss bucket s = (OK b, s1) ->
    list_objects oss (calls s1) b
                 (listing_prefix (effective_path artifact_path path_arg)) "/"
    = inr r ->
    Posixpath.isabs (getcwd host) = true ->
    (forall p, In p (map key (object_list r) ++ prefix_list r) ->
               Str.startswith p artifact_path = true /\ p <> "") ->
    (exists files dirs,
        Forall2 (fun obj i =>
                   Posixpath.relpath (getcwd host) (key obj) artifact_path
                   = OK (path i)
                   /\ is_dir i = false /\ file_size i = Some (size obj))
                (object_list r) files
        /\ Forall2 (fun p i =>
                      Posixpath.relpath (getcwd host) p artifact_path
                      = OK (path i)
                      /\ is_dir i = true /\ file_size i = None)
                   (prefix_list r) dirs
        /\ fst (list_artifacts host oss path_arg s)
           = OK (sorted_by_path (files ++ dirs))
        /\ Permutation (sorted_by_path (files ++ dirs)) (files ++ dirs)
        /\ StronglySorted path_le (sorted_by_path (files ++ dirs)))
    /\ (forall rest rs,
          spelled rest rs ->
          forallb plain_name rs = true -> rs <> [] ->
          Posixpath.relpath
            (getcwd host)
            (if Str.truthy artifact_path then artifact_path +++ "/" +++ rest
             else rest)
            artifact_path
          = OK (String.concat "/" rs))
    /\ (forall size_a size_b,
          artifact_path = "run" ->
          object_list r = [mkObjectInfo "run/a.txt" size_a;
                           mkObjectInfo "run/b.txt" size_b]
          \/ object_list r = [mkObjectInfo "run/b.txt" size_b;
                              mkObjectInfo "run/a.txt" size_a] ->
          prefix_list r = ["run/sub/"] ->
          fst (list_artifacts host oss path_arg s)
          = OK [mkFileInfo "a.txt" false (Some size_a);
                mkFileInfo "b.txt" false (Some size_b);
                mkFileInfo "sub" true None]).
Proof.
  intros host oss path_arg s s1 bucket ap b r Hp Hb Hl Hcwd Hall.
  rewrite (list_artifacts_answer host oss path_arg s s1 bucket ap b Hp Hb), Hl.
  cbn [fst]. split; [|split].
  - unfold listing_of.
    destruct (listed_ok (getcwd host) ap key file_entry (object_list r) [])
      as (files & -> & HF).
    { intros o Ho. apply Hall, in_or_app. left. now apply in_map. }
    destruct (listed_ok (getcwd host) ap (fun p => p) dir_entry
                        (prefix_list r) ([] ++ files))
      as (dirs & -> & HD).
    { intros p Hin. apply Hall, in_or_app. now right. }
    exists files, dirs. simpl app. repeat split.
    + eapply Forall2_impl; [|exact HF].
      intros o i (rel & Hrel & ->). auto.
    + eapply Forall2_impl; [|exact HD].
      intros p i (rel & Hrel & ->). auto.
    + apply sorted_by_path_perm.
    + apply sorted_by_path_sorted.
  - intros rest rs. now apply PathFacts.relpath_below.
  - intros size_a size_b -> Hobjs Hdirs.
    assert (Ha : Posixpath.relpath (getcwd host) "run/a.txt" "run"
                 = OK "a.txt")
      by (apply (PathFacts.relpath_below (getcwd host) "run" "a.txt"
                   ["a.txt"]); auto; [now left | discriminate]).
    assert (Hb' : Posixpath.relpath (getcwd host) "run/b.txt" "run"
                  = OK "b.txt")
      by (apply (PathFacts.relpath_below (getcwd host) "run" "b.txt"
                   ["b.txt"]); auto; [now left | discriminate]).
    assert (Hs : Posixpath.relpath (getcwd host) "run/sub/" "run" = OK "sub")
      by (apply (PathFacts.relpath_below (getcwd host) "run" "sub/"
                   ["sub"]); auto; [now right | discriminate]).
    unfold listing_of. rewrite Hdirs.
    destruct Hobjs as [-> | ->]; cbn [listed key];
      unfold _verify_listed_object_contains_artifact_path_prefix;
      cbn [Str.startswith String.prefix negb];
      rewrite ?Ha, ?Hb', ?Hs; reflexivity.
Qed.

Lemma list_artifacts_entries_witness :
  fst (list_artifacts home_host (accepting_oss run_listing) None
                      (fresh_repo "oss://mybucket/run"))
  = OK [mkFileInfo "a.txt" false (Some 5%N);
        mkFileInfo "b.txt" false (Some 3%N);
        mkFileInfo "sub" true None].
Proof.
  refine (proj2 (proj2 (list_artifacts_entries
                          home_host (accepting_oss run_listing) None
                          (fresh_repo "oss://mybucket/run") _ "mybucket"
                          "run" _ run_listing eq_refl eq_refl eq_refl
                          eq_refl _))
                5%N 3%N eq_refl (or_intror eq_refl) eq_refl).
  intros p [<-|[<-|[<-|[]]]]; split; (reflexivity || discriminate).
Defined.

(** ** The upload of a directory *)

Lemma tree_induction (P : tree -> Prop) :
  (forall filenames dirs,
      Forall (fun d => P (snd d)) dirs -> P (Dir filenames dirs)) ->
  forall t, P t.
Proof.
  intros H. fix IH 1. intros [filenames dirs]. apply H.
  induction dirs as [|d dirs IHd]; constructor; auto.
Qed.

Lemma add_calls_nil (s : State) : add_calls s [] = s.
Proof. destruct s. unfold add_calls. simpl. now rewrite app_nil_r. Qed.

Lemma add_calls_app (s : State) (l1 l2 : list Call) :
  add_calls (add_calls s l1) l2 = add_calls s (l1 ++ l2).
Proof. unfold add_calls. simpl. now rewrite app_assoc. Qed.

Lemma for_each_app {A : Type} (l1 l2 : list A) (body : A -> M unit)
      (s s' : State) :
  for_each l1 body s = (OK tt, s') ->
  for_each (l1 ++ l2) body s = for_each l2 body s'.
Proof.
  revert s. induction l1 as [|x l1 IH]; intros s; simpl.
  - unfold ret. intros H. now injection H as <-.
  - unfold bind. destruct (body x s) as [[[]|e] s0]; [apply IH|discriminate].
Qed.

Section WalkFacts.

Variable host : Host.
Variable oss : Oss.
Variable b : Bucket.
Variables top dest : string.

Hypothesis cwd_abs : Posixpath.isabs (getcwd host) = true.
Hypothesis top_abs : Posixpath.isabs top = true.
Hypothesis put_accepted :
  forall l b' k f, put_object_from_file oss l b' k f = None.

Lemma for_each_put (upload_path root : string) (filenames : list string)
      (s : State) :
  oss_bucket (self s) = Some b ->
  for_each filenames
           (fun f => oss_put oss (Posixpath.join upload_path [f])
                             (Posixpath.join root [f])) s
  = (OK tt,
     add_calls s (map (fun f => PutObjectFromFile
                                  b (Posixpath.join upload_path [f])
                                  (Posixpath.join root [f]))
                      filenames)).
Proof.
  revert s. induction filenames as [|f l IH]; intros s Hs.
  - simpl. unfold ret. now rewrite add_calls_nil.
  - simpl. unfold bind. rewrite (oss_put_stored oss _ _ _ _ Hs).
    rewrite put_accepted. rewrite IH by exact Hs.
    f_equal. unfold add_calls, log_call. simpl.
    now rewrite <- app_assoc.
Qed.

(** One directory of the walk, reached from the top through [dirs_to]. *)
Lemma log_artifacts_body_at (dirs_to dirnames filenames : list string)
      (s : State) :
  oss_bucket (self s) = Some b ->
  forallb plain_name dirs_to = true ->
  log_artifacts_body host oss top dest
                     (Posixpath.join top dirs_to, dirnames, filenames) s
  = (OK tt,
     add_calls s (map (fun f => tree_put b dest top (dirs_to, f)) filenames)).
Proof.
  intros Hs Hplain. unfold log_artifacts_body.
  assert (Hup : (if negb (Posixpath.join top dirs_to =? top)
                 then match Posixpath.relpath (getcwd host)
                              (Posixpath.join top dirs_to) top with
                      | OK rel_path =>
                          OK (Posixpath.join
                                dest
                                [relative_path_to_artifact_path rel_path])
                      | Raise e => Raise e
                      end
                 else OK dest)
                = OK (match dirs_to with
                      | [] => dest
                      | _ => Posixpath.join dest [String.concat "/" dirs_to]
                      end)).
  { destruct dirs_to as [|d ds] eqn:E.
    - unfold Posixpath.join at 1. simpl fold_left.
      now rewrite String.eqb_refl.
    - rewrite PathFacts.join_subdir_neq by (auto; discriminate).
      rewrite PathFacts.relpath_subdir by (auto; discriminate).
      reflexivity. }
  rewrite Hup. unfold bind at 1, lift.
  rewrite for_each_put by exact Hs. f_equal. f_equal.
  apply map_ext. intros f. unfold tree_put, tree_key. simpl fst. simpl snd.
  f_equal.
  - now destruct dirs_to.
  - unfold Posixpath.join. now rewrite fold_left_app.
Qed.

(** The walk below a directory of the tree. *)
Lemma for_each_walk_tree (t : tree) :
  forall (dirs_to : list string) (s : State),
    oss_bucket (self s) = Some b ->
    forallb plain_name dirs_to = true ->
    plain_dirs t = true ->
    for_each (Os.walk_tree (Posixpath.join top dirs_to) t)
             (log_artifacts_body host oss top dest) s
    = (OK tt, add_calls s (map (tree_put b dest top) (tree_files dirs_to t))).
Proof.
  induction t as [filenames dirs IH] using tree_induction.
  intros dirs_to s Hs Hplain Hdirs.
  cbn [Os.walk_tree tree_files for_each]. unfold bind at 1.
  rewrite log_artifacts_body_at by assumption.
  rewrite map_app, map_map, <- add_calls_app.
  set (s0 := add_calls s _).
  assert (Hs0 : oss_bucket (self s0) = Some b) by exact Hs.
  clearbody s0. clear Hs s. revert s0 Hs0.
  cbn [plain_dirs] in Hdirs.
  induction dirs as [|d dirs IHd]; intros s Hs.
  - simpl. unfold ret. now rewrite add_calls_nil.
  - cbn [flat_map]. cbn [forallb] in Hdirs.
    apply andb_true_iff in Hdirs as [Hd Hdirs].
    apply andb_true_iff in Hd as [Hname Hsub].
    inversion IH as [|? ? IHhead IHtail]; subst.
    assert (Hchain : forallb plain_name (dirs_to ++ [fst d]) = true).
    { rewrite forallb_app, Hplain. simpl. now rewrite Hname. }
    assert (Hjoin : Posixpath.join (Posixpath.join top dirs_to) [fst d]
                    = Posixpath.join top (dirs_to ++ [fst d])).
    { unfold Posixpath.join. now rewrite fold_left_app. }
    rewrite Hjoin.
    erewrite for_each_app by (apply IHhead; eauto).
    rewrite IHd; auto.
    rewrite map_app, add_calls_app. reflexivity.
Qed.

End WalkFacts.

Lemma normpath_isabs (p : string) :
  Posixpath.isabs p = true -> Posixpath.isabs (Posixpath.normpath p) = true.
Proof.
  intros Habs. unfold Posixpath.normpath.
  destruct (p =? "") eqn:E.
  - apply String.eqb_eq in E. subst. discriminate.
  - destruct (PathFacts.initial_slashes_abs _ Habs) as (k & -> & Hk).
    set (c := Str.join "/" _).
    destruct k as [|[|k]]; [| |lia].
    + change (Posixpath.slashes_string 1 +++ c) with (String "/" c).
      cbn [Str.truthy String.eqb negb]. unfold Posixpath.isabs.
      now rewrite StrFacts.startswith_cons.
    + change (Posixpath.slashes_string 2 +++ c)
        with (String "/" (String "/" c)).
      cbn [Str.truthy String.eqb negb]. unfold Posixpath.isabs.
      now rewrite StrFacts.startswith_cons.
Qed.

Lemma abspath_isabs (cwd p : string) :
  Posixpath.isabs cwd = true -> Posixpath.isabs (Posixpath.abspath cwd p) = true.
Proof.
  intros H. unfold Posixpath.abspath. apply normpath_isabs.
  now apply PathFacts.absolute_isabs.
Qed.

(** C4. When the storage accepts every upload, the upload of a local
    directory puts every file that [os.walk] finds below it, in the order of
    the walk and nothing else: a file of the root directory under the key
    [join(effective_root, name)], a file of a directory below the root
    under [join(effective_root, relative_dir, name)], where [relative_dir]
    is the names of the directories from the root to the file's directory
    joined by ["/"]; the local file is each time the one the walk found. So
    the tree with [f1.txt] and [sub/f2.txt] is uploaded below the effective
    root [run] as [run/f1.txt] and [run/sub/f2.txt]. *)
Theorem log_artifacts_keys :
  forall (host : Host) (oss : Oss) (local_dir : string)
         (artifact_path : option string) (s s1 : State)
         (bucket prefix : string) (b : Bucket) (t : tree),
    parse_oss_uri host (artifact_uri (self s)) = OK (bucket, prefix) ->
    _get_oss_bucket oss bucket s = (OK b, s1) ->
    Posixpath.isabs (getcwd host) = true ->
    directory host (Posixpath.abspath (getcwd host) local_dir) = Some t ->
    plain_dirs t = true ->
    (forall l b' k f, put_object_from_file oss l b' k f = None) ->
    let top := Posixpath.abspath (getcwd host) local_dir in
    let effective_root := effective_path prefix artifact_path in
    log_artifacts host oss local_dir artifact_path s
    = (OK tt,
       add_calls s1 (map (fun file =>
                            PutObjectFromFile
                              b
                              (match fst file with
                               | [] => Posixpath.join effective_root
                                                      [snd file]
                               | _ => Posixpath.join
                                        effective_root
                                        [String.concat "/" (fst file);
                                         snd file]
                               end)
                              (Posixpath.join top (fst file ++ [snd file])))
                         (tree_files [] t)))
    /\ (t = Dir ["f1.txt"] [("sub", Dir ["f2.txt"] [])] ->
        effective_root = "run" ->
        calls (snd (log_artifacts host oss local_dir artifact_path s))
        = calls s1
          ++ [PutObjectFromFile b "run/f1.txt"
                                (Posixpath.join top ["f1.txt"]);
              PutObjectFromFile b "run/sub/f2.txt"
                                (Posixpath.join top ["sub"; "f2.txt"])]).
Proof.
  intros host oss local_dir ap s s1 bucket prefix b t Hp Hb Hcwd Hdir Hplain
         Hput top root.
  assert (Hrun : log_artifacts host oss local_dir ap s
                 = (OK tt, add_calls s1 (map (tree_put b root top)
                                             (tree_files [] t)))).
  { rewrite (log_artifacts_run host oss _ _ _ _ _ _ _ Hp Hb).
    fold top. fold root. unfold Os.walk. fold top in Hdir. rewrite Hdir.
    destruct (get_oss_bucket_ok oss _ _ _ _ Hb) as (Hs1 & _).
    apply (for_each_walk_tree host oss b top root Hcwd
             (abspath_isabs _ _ Hcwd) Hput t [] s1 Hs1 eq_refl Hplain). }
  split; [exact Hrun|].
  intros -> Hroot. rewrite Hrun, Hroot. reflexivity.
Qed.

Lemma log_artifacts_keys_witness :
  calls (snd (log_artifacts home_host (accepting_oss empty_listing) "root"
                            None (fresh_repo "oss://mybucket/run")))
  = [BucketInit (Some (StaticAuth "id" "secret"))
                (Some "https://oss.example.com") "mybucket"]
    ++ [PutObjectFromFile
          (mkBucket 0 (Some (StaticAuth "id" "secret"))
                    (Some "https://oss.example.com") "mybucket")
          "run/f1.txt" "/home/u/root/f1.txt";
        PutObjectFromFile
          (mkBucket 0 (Some (StaticAuth "id" "secret"))
                    (Some "https://oss.example.com") "mybucket")
          "run/sub/f2.txt" "/home/u/root/sub/f2.txt"].
Proof.
  exact (proj2 (log_artifacts_keys
                  home_host (accepting_oss empty_listing) "root" None
                  (fresh_repo "oss://mybucket/run") _ "mybucket" "run" _
                  (Dir ["f1.txt"] [("sub", Dir ["f2.txt"] [])])
                  eq_refl eq_refl eq_refl eq_refl eq_refl
                  (fun _ _ _ _ => eq_refl))
               eq_refl eq_refl).
Defined.

(** * Further properties of the repository *)

(** ** Uploads that the storage refuses *)

Lemma for_each_app_bind {A : Type} (l1 l2 : list A) (body : A -> M unit)
      (s : State) :
  for_each (l1 ++ l2) body s
  = match for_each l1 body s with
    | (OK _, s') => for_each l2 body s'
    | (Raise e, s') => (Raise e, s')
    end.
Proof.
  revert s. induction l1 as [|x l1 IH]; intros s; [reflexivity|].
  simpl. unfold bind. destruct (body x s) as [[[]|e] s0]; [|reflexivity].
  apply IH.
Qed.

Lemma for_each_ext {A : Type} (l : list A) (body body' : A -> M unit) :
  (forall x s, In x l -> body x s = body' x s) ->
  forall s, for_each l body s = for_each l body' s.
Proof.
  induction l as [|x l IH]; intros H s; [reflexivity|].
  simpl. unfold bind. rewrite H by now left.
  destruct (body' x s) as [[[]|e] s0]; [|reflexivity].
  apply IH. intros; apply H; now right.
Qed.

Lemma for_each_flat_map {A B : Type} (f : A -> list B) (l : list A)
      (body : B -> M unit) (s : State) :
  for_each (flat_map f l) body s
  = for_each l (fun x => for_each (f x) body) s.
Proof.
  revert s. induction l as [|x l IH]; intros s; [reflexivity|].
  simpl. rewrite for_each_app_bind. unfold bind.
  destruct (for_each (f x) body s) as [[[]|e] s0]; [|reflexivity].
  apply IH.
Qed.

Lemma for_each_map {A B : Type} (f : A -> B) (l : list A)
      (body : B -> M unit) (s : State) :
  for_each (map f l) body s = for_each l (fun x => body (f x)) s.
Proof.
  revert s. induction l as [|x l IH]; intros s; [reflexivity|].
  simpl. unfold bind. destruct (body (f x) s) as [[[]|e] s0]; [|reflexivity].
  apply IH.
Qed.

Section UploadFacts.

Variable host : Host.
Variable oss : Oss.
Variables top dest : string.

Hypothesis cwd_abs : Posixpath.isabs (getcwd host) = true.
Hypothesis top_abs : Posixpath.isabs top = true.

(** The put of one file of the tree. *)
Let put_file (file : list string * string) : M unit :=
  oss_put oss (tree_key dest (fst file) (snd file))
          (Posixpath.join top (fst file ++ [snd file])).

Lemma log_artifacts_body_puts (dirs_to dirnames filenames : list string)
      (s : State) :
  forallb plain_name dirs_to = true ->
  log_artifacts_body host oss top dest
                     (Posixpath.join top dirs_to, dirnames, filenames) s
  = for_each (map (fun f => (dirs_to, f)) filenames) put_file s.
Proof.
  intros Hplain. unfold log_artifacts_body.
  assert (Hup : (if negb (Posixpath.join top dirs_to =? top)
                 then match Posixpath.relpath (getcwd host)
                              (Posixpath.join top dirs_to) top with
                      | OK rel_path =>
                          OK (Posixpath.join
                                dest
                                [relative_path_to_artifact_path rel_path])
                      | Raise e => Raise e
                      end
                 else OK dest)
                = OK (match dirs_to with
                      | [] => dest
                      | _ => Posixpath.join dest [String.concat "/" dirs_to]
                      end)).
  { destruct dirs_to as [|d ds] eqn:E.
    - unfold Posixpath.join at 1. simpl fold_left.
      now rewrite String.eqb_refl.
    - rewrite PathFacts.join_subdir_neq by (auto; discriminate).
      rewrite PathFacts.relpath_subdir by (auto; discriminate).
      reflexivity. }
  rewrite Hup. unfold bind at 1, lift.
  rewrite for_each_map. apply for_each_ext. intros f s0 _.
  unfold put_file, tree_key. simpl fst. simpl snd. f_equal.
  - now destruct dirs_to.
  - unfold Posixpath.join. now rewrite fold_left_app.
Qed.

Lemma walk_tree_puts (t : tree) :
  forall (dirs_to : list string) (s : State),
    forallb plain_name dirs_to = true ->
    plain_dirs t = true ->
    for_each (Os.walk_tree (Posixpath.join top dirs_to) t)
             (log_artifacts_body host oss top dest) s
    = for_each (tree_files dirs_to t) put_file s.
Proof.
  induction t as [filenames dirs IH] using tree_induction.
  intros dirs_to s Hplain Hdirs.
  cbn [Os.walk_tree tree_files for_each].
  rewrite for_each_app_bind. unfold bind at 1.
  rewrite log_artifacts_body_puts by assumption.
  destruct (for_each (map _ filenames) put_file s) as [[[]|e] s0];
    [|reflexivity].
  rewrite !for_each_flat_map. apply for_each_ext. intros d s1 Hd.
  cbn [plain_dirs] in Hdirs. rewrite forallb_forall in Hdirs.
  specialize (Hdirs d Hd). apply andb_true_iff in Hdirs as [Hname Hsub].
  rewrite Forall_forall in IH.
  assert (Hjoin : Posixpath.join (Posixpath.join top dirs_to) [fst d]
                  = Posixpath.join top (dirs_to ++ [fst d])).
  { unfold Posixpath.join. now rewrite fold_left_app. }
  rewrite Hjoin. apply (IH d Hd).
  - rewrite forallb_app, Hplain. simpl. now rewrite Hname.
  - exact Hsub.
Qed.

End UploadFacts.

Lemma for_each_put_all (oss : Oss) (b : Bucket)
      (files : list (string * string)) (s : State) :
  oss_bucket (self s) = Some b ->
  for_each files (fun file => oss_put oss (fst file) (snd file)) s
  = (match fst (put_all oss b (calls s) files) with
     | Some msg => Raise (OssError msg)
     | None => OK tt
     end,
     add_calls s (snd (put_all oss b (calls s) files))).
Proof.
  revert s. induction files as [|[k f] files IH]; intros s Hs.
  - simpl. unfold ret. now rewrite add_calls_nil.
  - simpl. unfold bind. rewrite (oss_put_stored oss _ _ _ _ Hs).
    destruct (put_object_from_file oss (calls s) b k f) as [msg|] eqn:E.
    + reflexivity.
    + rewrite IH by exact Hs. simpl calls.
      destruct (put_all oss b (calls s ++ [PutObjectFromFile b k f]) files)
        as [outcome made].
      simpl. f_equal. unfold add_calls, log_call. simpl.
      now rewrite <- app_assoc.
Qed.

(** What [put_all] makes: every put when none is refused; otherwise the
    puts up to the refused one, which the storage refused after the earlier
    ones. *)
Lemma put_all_spec (oss : Oss) (b : Bucket) (files : list (string * string))
      (history : list Call) :
  match fst (put_all oss b history files) with
  | None => snd (put_all oss b history files) = map (upload_call b) files
  | Some msg =>
      exists before k f after,
        files = before ++ (k, f) :: after
        /\ snd (put_all oss b history files)
           = map (upload_call b) (before ++ [(k, f)])
        /\ put_object_from_file oss (history ++ map (upload_call b) before)
                                b k f = Some msg
  end.
Proof.
  revert history. induction files as [|[k f] files IH]; intros history.
  - reflexivity.
  - simpl. destruct (put_object_from_file oss history b k f) as [msg|] eqn:E.
    + simpl. exists [], k, f, files. simpl. rewrite app_nil_r. auto.
    + specialize (IH (history ++ [PutObjectFromFile b k f])).
      destruct (put_all oss b (history ++ [PutObjectFromFile b k f]) files)
        as [[msg|] made]; simpl in *.
      * destruct IH as (before & k' & f' & after & -> & -> & Hr).
        exists ((k, f) :: before), k', f', after. simpl.
        rewrite <- app_assoc in Hr. auto.
      * now rewrite IH.
Qed.

Lemma put_all_accepted (oss : Oss) (b : Bucket)
      (files : list (string * string)) (history : list Call) :
  accepted oss b history files = true ->
  put_all oss b history files = (None, map (upload_call b) files).
Proof.
  revert history. induction files as [|[k f] files IH]; intros history H.
  - reflexivity.
  - cbn [accepted put_all] in *.
    destruct (put_object_from_file oss history b k f); [discriminate|].
    now rewrite (IH _ H).
Qed.

Lemma put_all_refused (oss : Oss) (b : Bucket)
      (before after : list (string * string)) (k f msg : string)
      (history : list Call) :
  accepted oss b history before = true ->
  put_object_from_file oss (history ++ map (upload_call b) before) b k f
  = Some msg ->
  put_all oss b history (before ++ (k, f) :: after)
  = (Some msg, map (upload_call b) (before ++ [(k, f)])).
Proof.
  revert history. induction before as [|[k' f'] before IH];
    intros history Hacc Hput.
  - simpl in *. rewrite app_nil_r in Hput. now rewrite Hput.
  - cbn [accepted] in Hacc. cbn [app put_all].
    destruct (put_object_from_file oss history b k' f'); [discriminate|].
    rewrite (IH (history ++ [PutObjectFromFile b k' f']) Hacc).
    + reflexivity.
    + now rewrite <- app_assoc.
Qed.

Lemma put_all_returned (oss : Oss) (b : Bucket)
      (files : list (string * string)) (history : list Call) :
  fst (put_all oss b history files) = None ->
  accepted oss b history files = true.
Proof.
  revert history. induction files as [|[k f] files IH]; intros history H.
  - reflexivity.
  - cbn [accepted put_all] in *.
    destruct (put_object_from_file oss history b k f); [discriminate|].
    apply IH.
    now destruct (put_all oss b (history ++ [PutObjectFromFile b k f]) files).
Qed.

(** The upload of a directory, once the URI is parsed and the handle
    obtained: the puts of the files of the walk, in order. *)
Lemma log_artifacts_puts (host : Host) (oss : Oss) (local_dir : string)
      (artifact_path : option string) (s s1 : State)
      (bucket prefix : string) (b : Bucket) (t : tree) :
  parse_oss_uri host (artifact_uri (self s)) = OK (bucket, prefix) ->
  _get_oss_bucket oss bucket s = (OK b, s1) ->
  Posixpath.isabs (getcwd host) = true ->
  directory host (Posixpath.abspath (getcwd host) local_dir) = Some t ->
  plain_dirs t = true ->
  log_artifacts host oss local_dir artifact_path s
  = for_each (tree_uploads (effective_path prefix artifact_path)
                           (Posixpath.abspath (getcwd host) local_dir) t)
             (fun file => oss_put oss (fst file) (snd file)) s1.
Proof.
  intros Hp Hb Hcwd Hdir Hplain.
  rewrite (log_artifacts_run host oss _ _ _ _ _ _ _ Hp Hb).
  unfold Os.walk. rewrite Hdir.
  pose proof (walk_tree_puts host oss _ (effective_path prefix artifact_path)
                             Hcwd (abspath_isabs _ local_dir Hcwd)
                             t [] s1 eq_refl Hplain) as Hw.
  unfold Posixpath.join in Hw. simpl fold_left in Hw. rewrite Hw.
  unfold tree_uploads. now rewrite for_each_map.
Qed.

(** X1. The upload of a directory stops at the first put the storage
    refuses. When the storage accepts the puts of all the files of the
    walk, each made after the earlier ones, the upload returns after
    exactly these puts, in the order of the walk. When it accepts the puts
    of the files before one file and refuses the put of that file, the
    upload raises the error of that put unchanged, the puts made are those
    of the files before it and the refused one, no later file is put and
    nothing is undone. The upload returns only if no put was refused. *)
Theorem log_artifacts_stops_at_refusal :
  forall (host : Host) (oss : Oss) (local_dir : string)
         (artifact_path : option string) (s s1 : State)
         (bucket prefix : string) (b : Bucket) (t : tree),
    parse_oss_uri host (artifact_uri (self s)) = OK (bucket, prefix) ->
    _get_oss_bucket oss bucket s = (OK b, s1) ->
    Posixpath.isabs (getcwd host) = true ->
    directory host (Posixpath.abspath (getcwd host) local_dir) = Some t ->
    plain_dirs t = true ->
    let files := tree_uploads (effective_path prefix artifact_path)
                              (Posixpath.abspath (getcwd host) local_dir) t in
    (accepted oss b (calls s1) files = true ->
     log_artifacts host oss local_dir artifact_path s
     = (OK tt, add_calls s1 (map (upload_call b) files)))
    /\ (forall before k f after msg,
          files = before ++ (k, f) :: after ->
          accepted oss b (calls s1) before = true ->
          put_object_from_file
            oss (calls s1 ++ map (upload_call b) before) b k f = Some msg ->
          log_artifacts host oss local_dir artifact_path s
          = (Raise (OssError msg),
             add_calls s1 (map (upload_call b) (before ++ [(k, f)]))))
    /\ (fst (log_artifacts host oss local_dir artifact_path s) = OK tt ->
        accepted oss b (calls s1) files = true).
Proof.
  intros host oss local_dir ap s s1 bucket prefix b t Hp Hb Hcwd Hdir Hplain
         files.
  destruct (get_oss_bucket_ok oss _ _ _ _ Hb) as (Hs1 & _).
  rewrite (log_artifacts_puts host oss local_dir ap s s1 bucket prefix b t
                              Hp Hb Hcwd Hdir Hplain).
  fold files. rewrite (for_each_put_all oss b files s1 Hs1).
  split; [|split].
  - intros Hacc. now rewrite (put_all_accepted oss b files _ Hacc).
  - intros before k f after msg Hfiles Hacc Hput.
    now rewrite Hfiles, (put_all_refused oss b before after k f msg _
                                         Hacc Hput).
  - cbn [fst]. intros Hok. apply put_all_returned.
    now destruct (fst (put_all oss b (calls s1) files)).
Qed.

Lemma log_artifacts_stops_at_refusal_witness :
  log_artifacts home_host full_oss "root" None
                (fresh_repo "oss://mybucket/run")
  = (Raise (OssError "quota exceeded"),
     add_calls bound_repo
               (map (upload_call
                       (mkBucket 0 (Some (StaticAuth "id" "secret"))
                                 (Some "https://oss.example.com")
                                 "mybucket"))
                    ([("run/f1.txt", "/home/u/root/f1.txt")]
                     ++ [("run/sub/f2.txt", "/home/u/root/sub/f2.txt")]))).
Proof.
  exact (proj1 (proj2 (log_artifacts_stops_at_refusal
                         home_host full_oss "root" None
                         (fresh_repo "oss://mybucket/run") bound_repo
                         "mybucket" "run" _
                         (Dir ["f1.txt"] [("sub", Dir ["f2.txt"] [])])
                         eq_refl eq_refl eq_refl eq_refl eq_refl))
               [("run/f1.txt", "/home/u/root/f1.txt")]
               "run/sub/f2.txt" "/home/u/root/sub/f2.txt" []
               "quota exceeded" eq_refl eq_refl eq_refl).
Defined.

(** X2. The upload of a local path that is not a directory finds nothing
    to walk: it makes no put and returns normally, after the handle was
    obtained. *)
Theorem log_artifacts_missing_directory :
  forall (host : Host) (oss : Oss) (local_dir : string)
         (artifact_path : option string) (s s1 : State)
         (bucket prefix : string) (b : Bucket),
    parse_oss_uri host (artifact_uri (self s)) = OK (bucket, prefix) ->
    _get_oss_bucket oss bucket s = (OK b, s1) ->
    directory host (Posixpath.abspath (getcwd host) local_dir) = None ->
    log_artifacts host oss local_dir artifact_path s = (OK tt, s1).
Proof.
  intros host oss local_dir ap s s1 bucket prefix b Hp Hb Hdir.
  rewrite (log_artifacts_run host oss _ _ _ _ _ _ _ Hp Hb).
  unfold Os.walk. now rewrite Hdir.
Qed.

Lemma log_artifacts_missing_directory_witness :
  log_artifacts home_host (accepting_oss empty_listing) "/nowhere" None
                bound_repo
  = (OK tt, bound_repo).
Proof.
  exact (log_artifacts_missing_directory
           home_host (accepting_oss empty_listing) "/nowhere" None
           bound_repo bound_repo "mybucket" "run"
           (mkBucket 0 (Some (StaticAuth "id" "secret"))
                     (Some "https://oss.example.com") "mybucket")
           eq_refl eq_refl eq_refl).
Defined.

(** ** Relations every computation respects *)

Section Respects.

Variable R : State -> State -> Prop.
Hypothesis R_refl : forall s, R s s.
Hypothesis R_trans : forall s s' s'', R s s' -> R s' s'' -> R s s''.

Lemma respects_ret {A : Type} (a : A) : respects R (ret a).
Proof. intros s. apply R_refl. Qed.

Lemma respects_raise {A : Type} (e : exn) : respects R (@raise A e).
Proof. intros s. apply R_refl. Qed.

Lemma respects_lift {A : Type} (r : result A) : respects R (lift r).
Proof. intros s. apply R_refl. Qed.

Lemma respects_get_self : respects R get_self.
Proof. intros s. apply R_refl. Qed.

Lemma respects_bind {A B : Type} (m : M A) (k : A -> M B) :
  respects R m -> (forall a, respects R (k a)) -> respects R (bind m k).
Proof.
  intros Hm Hk s. unfold bind. specialize (Hm s).
  destruct (m s) as [[a|e] s']; simpl in *; auto.
  eapply R_trans; [exact Hm | apply Hk].
Qed.

Lemma respects_for_each {A : Type} (l : list A) (body : A -> M unit) :
  (forall x, respects R (body x)) -> respects R (for_each l body).
Proof.
  intros Hb. induction l as [|x l IH]; simpl.
  - apply respects_ret.
  - apply respects_bind; auto.
Qed.

Lemma respects_for_fold {A B : Type} (l : list A) (acc : B)
      (body : B -> A -> M B) :
  (forall acc x, respects R (body acc x)) -> respects R (for_fold l acc body).
Proof.
  intros Hb. revert acc. induction l as [|x l IH]; intros acc; simpl.
  - apply respects_ret.
  - apply respects_bind; auto.
Qed.

Variable host : Host.
Variable oss : Oss.

Hypothesis R_bucket : forall bucket, respects R (_get_oss_bucket oss bucket).
Hypothesis R_put : forall k f, respects R (oss_put oss k f).
Hypothesis R_get : forall k f, respects R (oss_get oss k f).
Hypothesis R_list : forall p d, respects R (oss_list oss p d).

Ltac respects_steps :=
  repeat first
    [ apply respects_bind; [|intros]
    | apply respects_get_self
    | apply respects_lift
    | apply respects_ret
    | apply respects_raise
    | apply R_bucket
    | apply R_put
    | apply R_get
    | apply R_list
    | apply respects_for_each; intros
    | apply respects_for_fold; intros
    | match goal with
      | |- respects R (let '(_, _) := ?p in _) => destruct p
      end ].

Lemma respects_log_artifact (f : string) (p : option string) :
  respects R (log_artifact host oss f p).
Proof. unfold log_artifact. respects_steps. Qed.

Lemma respects_log_artifacts (d : string) (p : option string) :
  respects R (log_artifacts host oss d p).
Proof.
  unfold log_artifacts. respects_steps.
  unfold log_artifacts_body. destruct x as [[root dirnames] filenames].
  respects_steps.
Qed.

Lemma respects_list_artifacts (p : option string) :
  respects R (list_artifacts host oss p).
Proof. unfold list_artifacts. respects_steps. Qed.

Lemma respects_download_file (r l : string) :
  respects R (_download_file host oss r l).
Proof. unfold _download_file. respects_steps. Qed.

Lemma respects_run_op (s : State) (op : Op) : R s (run_op host oss s op).
Proof.
  destruct op; simpl.
  - apply R_bucket.
  - apply respects_log_artifact.
  - apply respects_log_artifacts.
  - apply respects_list_artifacts.
  - apply respects_download_file.
  - apply R_refl.
Qed.

Lemma respects_run_ops (ops : list Op) (s : State) :
  R s (run_ops host oss ops s).
Proof.
  unfold run_ops. revert s. induction ops as [|op ops IH]; intros s; simpl.
  - apply R_refl.
  - eapply R_trans; [apply respects_run_op | apply IH].
Qed.

End Respects.

(** *** Calls confined to the stored handle *)

Lemma confined_refl (b : Bucket) (s : State) : confined b s s.
Proof.
  intros _. repeat split. exists []. now rewrite app_nil_r.
Qed.

Lemma confined_trans (b : Bucket) (s s' s'' : State) :
  confined b s s' -> confined b s' s'' -> confined b s s''.
Proof.
  intros H1 H2 Hs. destruct (H1 Hs) as (E1 & A1 & m1 & C1 & F1).
  destruct H2 as (E2 & A2 & m2 & C2 & F2); [now rewrite E1|].
  repeat split; try congruence.
  exists (m1 ++ m2). rewrite C2, C1, app_assoc. split; auto.
  now apply Forall_app.
Qed.

Lemma confined_log_call (b : Bucket) (s : State) (c : Call) :
  on_handle b c -> confined b s (log_call s c).
Proof.
  intros Hc _. repeat split. exists [c]. split; auto.
Qed.

Lemma confined_get_oss_bucket (oss : Oss) (b : Bucket) (bucket : string) :
  respects (confined b) (_get_oss_bucket oss bucket).
Proof.
  intros s Hs. rewrite (get_oss_bucket_stored oss bucket s b Hs).
  now apply confined_refl.
Qed.

Lemma confined_oss_put (oss : Oss) (b : Bucket) (k f : string) :
  respects (confined b) (oss_put oss k f).
Proof.
  intros s Hs. rewrite (oss_put_stored oss k f s b Hs).
  now apply confined_log_call.
Qed.

Lemma confined_oss_get (oss : Oss) (b : Bucket) (k f : string) :
  respects (confined b) (oss_get oss k f).
Proof.
  intros s Hs. rewrite (oss_get_stored oss k f s b Hs).
  now apply confined_log_call.
Qed.

Lemma confined_oss_list (oss : Oss) (b : Bucket) (p d : string) :
  respects (confined b) (oss_list oss p d).
Proof.
  intros s Hs. rewrite (oss_list_stored oss p d s b Hs).
  now apply confined_log_call.
Qed.

Lemma confined_run_ops (host : Host) (oss : Oss) (b : Bucket)
      (ops : list Op) (s : State) :
  confined b s (run_ops host oss ops s).
Proof.
  apply respects_run_ops.
  - apply confined_refl.
  - apply confined_trans.
  - apply confined_get_oss_bucket.
  - apply confined_oss_put.
  - apply confined_oss_get.
  - apply confined_oss_list.
Qed.

(** *** The log only grows *)

Lemma grows_refl (s : State) : grows s s.
Proof. exists []. now rewrite app_nil_r. Qed.

Lemma grows_trans (s s' s'' : State) : grows s s' -> grows s' s'' -> grows s s''.
Proof.
  intros [m1 H1] [m2 H2]. exists (m1 ++ m2). now rewrite H2, H1, app_assoc.
Qed.

Lemma grows_get_oss_bucket (oss : Oss) (bucket : string) :
  respects grows (_get_oss_bucket oss bucket).
Proof.
  intros s. unfold _get_oss_bucket.
  destruct (oss_bucket (self s)); [apply grows_refl|].
  destruct (bucket_init oss _ _ _ _); simpl; eexists; reflexivity.
Qed.

Lemma grows_oss_put (oss : Oss) (k f : string) : respects grows (oss_put oss k f).
Proof.
  intros s. unfold oss_put. destruct (oss_bucket (self s)); [|apply grows_refl].
  destruct (put_object_from_file oss _ _ _ _); simpl; eexists; reflexivity.
Qed.

Lemma grows_oss_get (oss : Oss) (k f : string) : respects grows (oss_get oss k f).
Proof.
  intros s. unfold oss_get. destruct (oss_bucket (self s)); [|apply grows_refl].
  destruct (get_object_to_file oss _ _ _ _); simpl; eexists; reflexivity.
Qed.

Lemma grows_oss_list (oss : Oss) (p d : string) :
  respects grows (oss_list oss p d).
Proof.
  intros s. unfold oss_list. destruct (oss_bucket (self s)); [|apply grows_refl].
  destruct (list_objects oss _ _ _ _); simpl; eexists; reflexivity.
Qed.

Lemma grows_run_op (host : Host) (oss : Oss) (s : State) (op : Op) :
  grows s (run_op host oss s op).
Proof.
  apply respects_run_op.
  - apply grows_refl.
  - apply grows_trans.
  - apply grows_get_oss_bucket.
  - apply grows_oss_put.
  - apply grows_oss_get.
  - apply grows_oss_list.
Qed.

(** ** The constructor of the repository *)

Lemma init_without_handle (host : Host) (uri : string)
      (experiment run : option string) (r : Repo) :
  init host uri experiment run None = OK r ->
  exists a endpoint,
    r = mkRepo uri experiment run (Some a) (Some endpoint) None true
    /\ environ host "MLFLOW_OSS_ENDPOINT_URL" = Some endpoint
    /\ endpoint <> ""
    /\ (key_pair_set host = true ->
        exists i k, environ host "MLFLOW_OSS_KEY_ID" = Some i
                    /\ environ host "MLFLOW_OSS_KEY_SECRET" = Some k
                    /\ a = StaticAuth i k)
    /\ (key_pair_set host = false ->
        exists c, credentials_client host = Some c
                  /\ a = ProviderAuth (mkWrapper c)).
Proof.
  unfold init, key_pair_set.
  destruct (environ host "MLFLOW_OSS_ENDPOINT_URL") as [endpoint|] eqn:Ee;
    simpl; [|discriminate].
  destruct (Str.truthy endpoint) eqn:Et; simpl; [|discriminate].
  apply StrFacts.truthy_true in Et.
  destruct (environ host "MLFLOW_OSS_KEY_ID") as [i|];
    [destruct (environ host "MLFLOW_OSS_KEY_SECRET") as [k|]|]; simpl.
  - destruct (Str.truthy i && Str.truthy k) eqn:Ek.
    + intros H. injection H as <-. exists (StaticAuth i k), endpoint.
      repeat split; auto; [eauto | discriminate].
    + destruct (credentials_client host) as [c|]; simpl; [|discriminate].
      intros H. injection H as <-. exists (ProviderAuth (mkWrapper c)), endpoint.
      repeat split; auto; [discriminate | eauto].
  - rewrite andb_false_r.
    destruct (credentials_client host) as [c|]; simpl; [|discriminate].
    intros H. injection H as <-. exists (ProviderAuth (mkWrapper c)), endpoint.
    repeat split; auto; [discriminate | eauto].
  - destruct (credentials_client host) as [c|]; simpl; [|discriminate].
    intros H. injection H as <-. exists (ProviderAuth (mkWrapper c)), endpoint.
    repeat split; auto; [discriminate | eauto].
Qed.

(** X3. Without a handle given, [__init__] first wants the endpoint: when
    [MLFLOW_OSS_ENDPOINT_URL] is unset or empty it raises, whatever the
    credentials. It then succeeds exactly when the key pair is complete or
    the default credential chain answers, and raises the missing
    credentials otherwise; a key id without a secret (or the reverse) is
    not used. A complete key pair is preferred to the chain. The URI is
    stored as given, without being parsed, and no handle is stored. *)
Theorem init_outcome :
  forall (host : Host) (uri : string) (experiment run : option string),
    (truthy_opt (environ host "MLFLOW_OSS_ENDPOINT_URL") = false ->
     init host uri experiment run None = Raise missing_endpoint)
    /\ (truthy_opt (environ host "MLFLOW_OSS_ENDPOINT_URL") = true ->
        key_pair_set host = false -> credentials_client host = None ->
        init host uri experiment run None = Raise missing_credentials)
    /\ ((exists r, init host uri experiment run None = OK r)
        <-> truthy_opt (environ host "MLFLOW_OSS_ENDPOINT_URL") = true
            /\ (key_pair_set host = true \/ credentials_client host <> None))
    /\ (forall r,
          init host uri experiment run None = OK r ->
          artifact_uri r = uri /\ experiment_id r = experiment
          /\ run_id r = run /\ oss_bucket r = None
          /\ oss_endpoint_url r = environ host "MLFLOW_OSS_ENDPOINT_URL"
          /\ (if key_pair_set host
              then exists i k,
                  environ host "MLFLOW_OSS_KEY_ID" = Some i
                  /\ environ host "MLFLOW_OSS_KEY_SECRET" = Some k
                  /\ auth r = Some (StaticAuth i k)
              else exists c,
                  credentials_client host = Some c
                  /\ auth r = Some (ProviderAuth (mkWrapper c)))).
Proof.
  intros host uri experiment run.
  assert (Hcases :
            init host uri experiment run None
            = if negb (truthy_opt (environ host "MLFLOW_OSS_ENDPOINT_URL"))
              then Raise missing_endpoint
              else if key_pair_set host
                   then match environ host "MLFLOW_OSS_KEY_ID",
                              environ host "MLFLOW_OSS_KEY_SECRET" with
                        | Some i, Some k =>
                            OK (mkRepo uri experiment run
                                       (Some (StaticAuth i k))
                                       (environ host "MLFLOW_OSS_ENDPOINT_URL")
                                       None true)
                        | _, _ => Raise missing_credentials
                        end
                   else match credentials_client host with
                        | Some c =>
                            OK (mkRepo uri experiment run
                                       (Some (ProviderAuth (mkWrapper c)))
                                       (environ host "MLFLOW_OSS_ENDPOINT_URL")
                                       None true)
                        | None => Raise missing_credentials
                        end).
  { unfold init, key_pair_set.
    destruct (negb _); [reflexivity|].
    destruct (environ host "MLFLOW_OSS_KEY_ID") as [i|];
      [destruct (environ host "MLFLOW_OSS_KEY_SECRET") as [k|]|]; simpl;
      rewrite ?andb_false_r;
      try destruct (Str.truthy i && Str.truthy k);
      destruct (credentials_client host); reflexivity. }
  split; [|split; [|split]].
  - intros H. now rewrite Hcases, H.
  - intros He Hk Hc. now rewrite Hcases, He, Hk, Hc.
  - rewrite Hcases. split.
    + intros [r H].
      destruct (truthy_opt (environ host "MLFLOW_OSS_ENDPOINT_URL"));
        simpl in H; [|discriminate].
      split; auto. destruct (key_pair_set host); auto.
      right. destruct (credentials_client host); [discriminate|discriminate].
    + intros (He & Hcred). rewrite He. simpl.
      destruct (key_pair_set host) eqn:Ek.
      * unfold key_pair_set in Ek. apply andb_true_iff in Ek as [E1 E2].
        destruct (environ host "MLFLOW_OSS_KEY_ID"); [|discriminate].
        destruct (environ host "MLFLOW_OSS_KEY_SECRET"); [|discriminate].
        eauto.
      * destruct Hcred as [Hcred|Hcred]; [discriminate|].
        destruct (credentials_client host); [eauto | congruence].
  - intros r H.
    destruct (init_without_handle host uri experiment run r H)
      as (a & endpoint & -> & He & _ & Hpair & Hchain).
    simpl. rewrite He. repeat split.
    destruct (key_pair_set host).
    + destruct (Hpair eq_refl) as (i & k & Hi & Hk & ->). eauto.
    + destruct (Hchain eq_refl) as (c & Hc & ->). eauto.
Qed.

Lemma init_outcome_witness :
  exists r, init chain_host "s3://not-parsed" None None None = OK r
            /\ auth r = Some (ProviderAuth
                                (mkWrapper (mkClient "sts-id" "sts-secret"
                                                     "sts-token"))).
Proof.
  destruct (proj2 (proj1 (proj2 (proj2 (init_outcome
                                          chain_host "s3://not-parsed"
                                          None None)))))
    as [r Hr].
  - split; [reflexivity|]. right. discriminate.
  - exists r. split; [exact Hr|].
    destruct (proj2 (proj2 (proj2 (init_outcome chain_host "s3://not-parsed"
                                                None None))) r Hr)
      as (_ & _ & _ & _ & _ & c & Hc & Ha).
    injection Hc as <-. exact Ha.
Defined.

(** ** The handle and the operations *)

Section HandleUse.

Variable host : Host.
Variable oss : Oss.

(** An operation that cannot obtain the handle stops there. *)
Lemma operations_stop_on_handle_error (s s' : State) (bucket prefix : string)
      (e : exn) :
  parse_oss_uri host (artifact_uri (self s)) = OK (bucket, prefix) ->
  _get_oss_bucket oss bucket s = (Raise e, s') ->
  (forall f p, log_artifact host oss f p s = (Raise e, s'))
  /\ (forall d p, log_artifacts host oss d p s = (Raise e, s'))
  /\ (forall p, list_artifacts host oss p s = (Raise e, s'))
  /\ (forall r l, _download_file host oss r l s = (Raise e, s')).
Proof.
  intros Hp Hb. repeat split; intros;
    unfold log_artifact, log_artifacts, list_artifacts, _download_file,
      get_self, lift;
    unfold bind at 1; unfold bind at 1; rewrite Hp; cbv iota beta;
    unfold bind at 1; now rewrite Hb.
Qed.

(** Once the handle is stored, an operation runs as from the state that
    stores it. *)
Lemma run_op_after_handle (s s1 : State) (bucket prefix : string) (b : Bucket)
      (op : Op) :
  parse_oss_uri host (artifact_uri (self s)) = OK (bucket, prefix) ->
  _get_oss_bucket oss bucket s = (OK b, s1) ->
  uses_handle op = true ->
  run_op host oss s op = run_op host oss s1 op.
Proof.
  intros Hp Hb Hop.
  destruct (get_oss_bucket_ok oss _ _ _ _ Hb) as (Hs1 & Huri & _).
  assert (Hp1 : parse_oss_uri host (artifact_uri (self s1))
                = OK (bucket, prefix)) by now rewrite Huri.
  pose proof (get_oss_bucket_stored oss bucket s1 b Hs1) as Hb1.
  destruct op; try discriminate; simpl.
  - now rewrite (log_artifact_run host oss _ _ _ _ _ _ _ Hp Hb),
      (log_artifact_run host oss _ _ _ _ _ _ _ Hp1 Hb1).
  - now rewrite (log_artifacts_run host oss _ _ _ _ _ _ _ Hp Hb),
      (log_artifacts_run host oss _ _ _ _ _ _ _ Hp1 Hb1).
  - now rewrite (list_artifacts_run host oss _ _ _ _ _ _ Hp Hb),
      (list_artifacts_run host oss _ _ _ _ _ _ Hp1 Hb1).
  - now rewrite (download_file_run host oss _ _ _ _ _ _ _ Hp Hb),
      (download_file_run host oss _ _ _ _ _ _ _ Hp1 Hb1).
Qed.

(** The first thing an operation does on a repository without a handle is
    to call the constructor, for the bucket of the URI. *)
Lemma first_call_is_constructor (s : State) (bucket prefix : string) (op : Op) :
  parse_oss_uri host (artifact_uri (self s)) = OK (bucket, prefix) ->
  oss_bucket (self s) = None ->
  uses_handle op = true ->
  exists rest,
    calls (run_op host oss s op)
    = calls s ++ BucketInit (auth (self s)) (oss_endpoint_url (self s)) bucket
                 :: rest.
Proof.
  intros Hp Hnone Hop.
  destruct (_get_oss_bucket oss bucket s) as [[b|e] s1] eqn:Hb.
  - rewrite (run_op_after_handle s s1 bucket prefix b op Hp Hb Hop).
    destruct (get_oss_bucket_ok oss _ _ _ _ Hb)
      as (_ & _ & [(Hsome & _)|(_ & _ & Hc & _)]); [congruence|].
    destruct (grows_run_op host oss s1 op) as [made Hm].
    exists made. now rewrite Hm, Hc, <- app_assoc.
  - assert (Hs1 : s1 = log_call s (BucketInit (auth (self s))
                                              (oss_endpoint_url (self s))
                                              bucket)).
    { unfold _get_oss_bucket in Hb. rewrite Hnone in Hb.
      destruct (bucket_init oss _ _ _ _); [|discriminate].
      now injection Hb as _ <-. }
    destruct (operations_stop_on_handle_error s s1 bucket prefix e Hp Hb)
      as (H1 & H2 & H3 & H4).
    exists []. destruct op; try discriminate; simpl;
      rewrite ?H1, ?H2, ?H3, ?H4; now rewrite Hs1.
Qed.

End HandleUse.

(** X4. When a handle is given to [__init__], the environment is not read
    and the construction succeeds; from then on every call that any
    sequence of operations makes to the storage is a call on the given
    handle: the constructor [oss2.Bucket] is never called and the bucket
    named in the URI is never used. *)
Theorem injected_handle_serves_every_call :
  forall (host other_host : Host) (oss : Oss) (uri : string)
         (experiment run : option string) (b : Bucket)
         (ops : list Op) (history : list Call) (n : nat),
    init host uri experiment run (Some b)
    = init other_host uri experiment run (Some b)
    /\ exists r,
        init host uri experiment run (Some b) = OK r
        /\ oss_bucket r = Some b
        /\ artifact_uri r = uri
        /\ exists made,
            calls (run_ops host oss ops (mkState r history n))
            = history ++ made
            /\ Forall (on_handle b) made
            /\ allocated (run_ops host oss ops (mkState r history n)) = n
            /\ oss_bucket (self (run_ops host oss ops (mkState r history n)))
               = Some b.
Proof.
  intros host other_host oss uri experiment run b ops history n.
  split; [reflexivity|].
  eexists. split; [reflexivity|]. split; [reflexivity|].
  split; [reflexivity|].
  destruct (confined_run_ops host oss b ops
              (mkState (mkRepo uri experiment run None None (Some b) false)
                       history n) eq_refl)
    as (Hself & Halloc & made & Hcalls & Hall).
  exists made. rewrite Hself. auto.
Qed.

(** X5. On a repository made by [__init__] without a handle, the first
    call of every operation that uses the storage is the constructor
    [oss2.Bucket], with the credentials [__init__] chose, the endpoint of
    [MLFLOW_OSS_ENDPOINT_URL] and the bucket of the artifact URI. *)
Theorem first_operation_builds_handle :
  forall (host : Host) (oss : Oss) (uri : string)
         (experiment run : option string) (r : Repo)
         (bucket prefix : string) (op : Op) (history : list Call) (n : nat),
    init host uri experiment run None = OK r ->
    parse_oss_uri host uri = OK (bucket, prefix) ->
    uses_handle op = true ->
    exists a endpoint rest,
      auth r = Some a
      /\ environ host "MLFLOW_OSS_ENDPOINT_URL" = Some endpoint
      /\ calls (run_op host oss (mkState r history n) op)
         = history ++ BucketInit (Some a) (Some endpoint) bucket :: rest.
Proof.
  intros host oss uri experiment run r bucket prefix op history n Hi Hp Hop.
  destruct (init_without_handle host uri experiment run r Hi)
    as (a & endpoint & -> & He & _).
  destruct (first_call_is_constructor
              host oss
              (mkState (mkRepo uri experiment run (Some a) (Some endpoint)
                               None true) history n)
              bucket prefix op Hp eq_refl Hop) as [rest Hrest].
  exists a, endpoint, rest. auto.
Qed.

Lemma first_operation_builds_handle_witness :
  exists a endpoint rest,
    auth (self (fresh_repo "oss://mybucket/run")) = Some a
    /\ environ home_host "MLFLOW_OSS_ENDPOINT_URL" = Some endpoint
    /\ calls (run_op home_host (accepting_oss empty_listing)
                     (mkState (self (fresh_repo "oss://mybucket/run")) [] 0)
                     (ListArtifacts None))
       = [] ++ BucketInit (Some a) (Some endpoint) "mybucket" :: rest.
Proof.
  exact (first_operation_builds_handle
           home_host (accepting_oss empty_listing) "oss://mybucket/run"
           None None (self (fresh_repo "oss://mybucket/run"))
           "mybucket" "run" (ListArtifacts None) [] 0
           eq_refl eq_refl eq_refl).
Defined.

(** X6. When the constructor [oss2.Bucket] raises, its error is passed on
    unchanged and no handle is stored: the operation that asked for the
    handle raises that error without any call on the storage, and the next
    request for the handle calls the constructor again, for the bucket it
    is then given. *)
Theorem bucket_constructor_failure :
  forall (host : Host) (oss : Oss) (s : State) (bucket prefix msg : string),
    oss_bucket (self s) = None ->
    bucket_init oss (calls s) (auth (self s)) (oss_endpoint_url (self s))
                bucket = Some msg ->
    parse_oss_uri host (artifact_uri (self s)) = OK (bucket, prefix) ->
    let s' := log_call s (BucketInit (auth (self s))
                                     (oss_endpoint_url (self s)) bucket) in
    _get_oss_bucket oss bucket s = (Raise (OssError msg), s')
    /\ oss_bucket (self s') = None
    /\ allocated s' = allocated s
    /\ (forall f p, log_artifact host oss f p s = (Raise (OssError msg), s'))
    /\ (forall d p, log_artifacts host oss d p s = (Raise (OssError msg), s'))
    /\ (forall p, list_artifacts host oss p s = (Raise (OssError msg), s'))
    /\ (forall r l, _download_file host oss r l s
                    = (Raise (OssError msg), s'))
    /\ (forall bucket',
          calls (snd (_get_oss_bucket oss bucket' s'))
          = calls s' ++ [BucketInit (auth (self s))
                                    (oss_endpoint_url (self s)) bucket']).
Proof.
  intros host oss s bucket prefix msg Hnone Hinit Hp s'.
  assert (Hb : _get_oss_bucket oss bucket s = (Raise (OssError msg), s')).
  { unfold _get_oss_bucket. now rewrite Hnone, Hinit. }
  split; [exact Hb|]. split; [exact Hnone|]. split; [reflexivity|].
  destruct (operations_stop_on_handle_error host oss s s' bucket prefix _
                                            Hp Hb) as (H1 & H2 & H3 & H4).
  repeat split; auto.
  intros bucket'. unfold _get_oss_bucket.
  change (oss_bucket (self s')) with (oss_bucket (self s)). rewrite Hnone.
  destruct (bucket_init oss (calls s') _ _ bucket'); reflexivity.
Qed.

Lemma bucket_constructor_failure_witness :
  list_artifacts home_host failing_oss None (fresh_repo "oss://mybucket/run")
  = (Raise (OssError "invalid endpoint"),
     log_call (fresh_repo "oss://mybucket/run")
              (BucketInit (Some (StaticAuth "id" "secret"))
                          (Some "https://oss.example.com") "mybucket")).
Proof.
  destruct (bucket_constructor_failure
              home_host failing_oss (fresh_repo "oss://mybucket/run")
              "mybucket" "run" "invalid endpoint" eq_refl eq_refl eq_refl)
    as (_ & _ & _ & _ & _ & Hlist & _).
  exact (Hlist None).
Defined.

(** X7. A call that the storage refuses is made once and its error is
    raised unchanged: the single upload, the download and the listing do
    not retry and do not catch, and they leave the handle stored. *)
Theorem storage_errors_pass_through :
  forall (host : Host) (oss : Oss) (s s1 : State) (bucket prefix : string)
         (b : Bucket),
    parse_oss_uri host (artifact_uri (self s)) = OK (bucket, prefix) ->
    _get_oss_bucket oss bucket s = (OK b, s1) ->
    (forall local_file artifact_path msg,
        let k := Posixpath.join (effective_path prefix artifact_path)
                                [Posixpath.basename local_file] in
        put_object_from_file oss (calls s1) b k local_file = Some msg ->
        log_artifact host oss local_file artifact_path s
        = (Raise (OssError msg),
           log_call s1 (PutObjectFromFile b k local_file)))
    /\ (forall remote_file_path local_path msg,
          let k := Posixpath.join prefix [remote_file_path] in
          get_object_to_file oss (calls s1) b k local_path = Some msg ->
          _download_file host oss remote_file_path local_path s
          = (Raise (OssError msg),
             log_call s1 (GetObjectToFile b k local_path)))
    /\ (forall path msg,
          let q := listing_prefix (effective_path prefix path) in
          list_objects oss (calls s1) b q "/" = inl msg ->
          list_artifacts host oss path s
          = (Raise (OssError msg), log_call s1 (ListObjects b q "/")))
    /\ oss_bucket (self s1) = Some b.
Proof.
  intros host oss s s1 bucket prefix b Hp Hb.
  destruct (get_oss_bucket_ok oss _ _ _ _ Hb) as (Hs1 & _).
  repeat split; auto.
  - intros local_file ap msg k Hput.
    rewrite (log_artifact_run host oss _ _ _ _ _ _ _ Hp Hb).
    rewrite (oss_put_stored oss _ _ _ _ Hs1). fold k. now rewrite Hput.
  - intros remote local_path msg k Hget.
    rewrite (download_file_run host oss _ _ _ _ _ _ _ Hp Hb).
    rewrite (oss_get_stored oss _ _ _ _ Hs1). fold k. now rewrite Hget.
  - intros path msg q Hlist.
    rewrite (list_artifacts_answer host oss _ _ _ _ _ _ Hp Hb).
    fold q. now rewrite Hlist.
Qed.

Lemma storage_errors_pass_through_witness :
  _download_file home_host failing_oss "model.pkl" "/tmp/model.pkl" bound_repo
  = (Raise (OssError "no such key"),
     log_call bound_repo
              (GetObjectToFile
                 (mkBucket 0 (Some (StaticAuth "id" "secret"))
                           (Some "https://oss.example.com") "mybucket")
                 "run/model.pkl" "/tmp/model.pkl")).
Proof.
  destruct (storage_errors_pass_through
              home_host failing_oss bound_repo bound_repo "mybucket" "run"
              (mkBucket 0 (Some (StaticAuth "id" "secret"))
                        (Some "https://oss.example.com") "mybucket")
              eq_refl eq_refl)
    as (_ & Hget & _).
  exact (Hget "model.pkl" "/tmp/model.pkl" "no such key" eq_refl).
Defined.

(** X8. No operation changes what [__init__] set: the artifact URI, the
    identifiers, the credentials and the endpoint are the same after any
    sequence of operations, so every operation parses the same URI; a
    handle, once stored, is the only attribute that was written. The calls
    made to the storage are only ever added to. *)
Theorem operations_keep_configuration :
  forall (host : Host) (oss : Oss) (ops : list Op) (s : State),
    configuration (self (run_ops host oss ops s)) = configuration (self s)
    /\ parse_oss_uri host (artifact_uri (self (run_ops host oss ops s)))
       = parse_oss_uri host (artifact_uri (self s))
    /\ (self (run_ops host oss ops s) = self s
        \/ exists b, oss_bucket (self s) = None
                     /\ self (run_ops host oss ops s)
                        = set_oss_bucket (self s) (Some b))
    /\ exists made, calls (run_ops host oss ops s) = calls s ++ made.
Proof.
  intros host oss ops s.
  assert (Hself : self (run_ops host oss ops s) = self s
                  \/ exists b, oss_bucket (self s) = None
                               /\ self (run_ops host oss ops s)
                                  = set_oss_bucket (self s) (Some b)).
  { pose proof (handle_step_run_ops host oss ops s) as H.
    unfold handle_step in H.
    destruct (oss_bucket (self s)) as [b|].
    - left. now destruct H.
    - destruct H as [[H _]|[b [H _]]]; eauto. }
  assert (Hconf : configuration (self (run_ops host oss ops s))
                  = configuration (self s)).
  { destruct Hself as [->|(b & _ & ->)]; reflexivity. }
  split; [exact Hconf|]. split; [|split; [exact Hself|]].
  - unfold configuration in Hconf. now injection Hconf as ->.
  - apply (respects_run_ops grows grows_refl grows_trans host oss
             (grows_get_oss_bucket oss) (grows_oss_put oss)
             (grows_oss_get oss) (grows_oss_list oss)).
Qed.

(** X9. In a repository that stores a handle, every call that any
    sequence of operations makes to the storage is an upload, a download or
    a listing on that handle; the repository object is left as it is. *)
Theorem calls_stay_on_stored_handle :
  forall (host : Host) (oss : Oss) (b : Bucket) (ops : list Op) (s : State),
    oss_bucket (self s) = Some b ->
    self (run_ops host oss ops s) = self s
    /\ allocated (run_ops host oss ops s) = allocated s
    /\ exists made,
        calls (run_ops host oss ops s) = calls s ++ made
        /\ Forall (on_handle b) made.
Proof.
  intros host oss b ops s Hs. now apply confined_run_ops.
Qed.

Lemma calls_stay_on_stored_handle_witness :
  exists made,
    calls (run_ops home_host (accepting_oss run_listing)
                   [LogArtifact "/tmp/model.pkl" (Some "models");
                    ListArtifacts None;
                    DownloadFile "models/model.pkl" "/tmp/copy.pkl"]
                   bound_repo)
    = calls bound_repo ++ made
    /\ Forall (on_handle (mkBucket 0 (Some (StaticAuth "id" "secret"))
                                   (Some "https://oss.example.com")
                                   "mybucket")) made.
Proof.
  exact (proj2 (proj2 (calls_stay_on_stored_handle
                         home_host (accepting_oss run_listing) _
                         [LogArtifact "/tmp/model.pkl" (Some "models");
                          ListArtifacts None;
                          DownloadFile "models/model.pkl" "/tmp/copy.pkl"]
                         bound_repo eq_refl))).
Defined.

(** ** Joins that compose *)

Lemma startswith_app_nonempty (a x : string) (c : ascii) :
  a <> "" ->
  Str.startswith (a +++ x) (String c "") = Str.startswith a (String c "").
Proof.
  intros Ha. destruct a as [|h a]; [congruence|].
  simpl String.append. now rewrite !StrFacts.startswith_cons.
Qed.

Lemma join_step_abs (p q : string) :
  Str.startswith q "/" = true -> Posixpath.join_step p q = q.
Proof. intros H. unfold Posixpath.join_step. now rewrite H. Qed.

Lemma join_step_unfold (p q : string) :
  Str.startswith q "/" = false ->
  Posixpath.join_step p q
  = if negb (Str.truthy p) || Str.endswith p Posixpath.sep
    then p +++ q else p +++ "/" +++ q.
Proof. intros H. unfold Posixpath.join_step. now rewrite H. Qed.

(** Joining in two steps or in one is the same when the last part is
    relative. *)
Lemma join_step_assoc (c a r : string) :
  Str.startswith r "/" = false ->
  Posixpath.join_step c (Posixpath.join_step a r)
  = Posixpath.join_step (Posixpath.join_step c a) r.
Proof.
  intros Hr.
  destruct (Str.startswith a "/") eqn:Ha.
  - rewrite (join_step_abs c a Ha).
    apply join_step_abs. now apply PathFacts.isabs_join_step.
  - destruct (string_dec a "") as [->|Hne].
    + assert (Hx : Posixpath.join_step "" r = r)
        by (now rewrite join_step_unfold).
      rewrite Hx. rewrite (join_step_unfold c "") by reflexivity.
      rewrite (join_step_unfold c r) by assumption.
      destruct (negb (Str.truthy c) || Str.endswith c Posixpath.sep) eqn:Ec.
      * rewrite StrFacts.append_empty_r.
        rewrite join_step_unfold by assumption. now rewrite Ec.
      * apply orb_false_iff in Ec as [Ec _].
        apply negb_false_iff, StrFacts.truthy_true in Ec.
        rewrite join_step_unfold by assumption.
        assert (Hy : Str.truthy (c +++ "/" +++ "") = true).
        { apply StrFacts.truthy_true. destruct c; simpl; congruence. }
        assert (He : Str.endswith (c +++ "/" +++ "") Posixpath.sep = true)
          by (rewrite StrFacts.endswith_app; [reflexivity | discriminate]).
        rewrite Hy, He. simpl. now rewrite StrFacts.append_assoc.
    + assert (Hx : Str.startswith (Posixpath.join_step a r) "/" = false).
      { rewrite PathFacts.join_step_rel by auto.
        destruct (Str.endswith a Posixpath.sep);
          now rewrite startswith_app_nonempty. }
      rewrite (join_step_unfold c _ Hx).
      rewrite (join_step_unfold c a Ha).
      set (y := if negb (Str.truthy c) || Str.endswith c Posixpath.sep
                then c +++ a else c +++ "/" +++ a).
      assert (Hy0 : y <> "").
      { unfold y. destruct (_ || _); destruct c; simpl; try congruence;
          destruct a; simpl; congruence. }
      assert (Hye : Str.endswith y Posixpath.sep
                    = Str.endswith a Posixpath.sep).
      { unfold y. destruct (_ || _).
        - now apply StrFacts.endswith_app.
        - rewrite StrFacts.endswith_app by (simpl; discriminate).
          change ("/" +++ a) with (String Posixpath.sep a).
          destruct a; [congruence | reflexivity]. }
      rewrite !PathFacts.join_step_rel by auto.
      rewrite Hye. unfold y.
      destruct (Str.endswith a Posixpath.sep);
        destruct (negb (Str.truthy c) || Str.endswith c Posixpath.sep);
        now rewrite ?StrFacts.append_assoc.
Qed.

Lemma basename_cons (a : ascii) (s : string) :
  Str.contains s Posixpath.sep = true ->
  Posixpath.basename (String a s) = Posixpath.basename s.
Proof.
  intros H. unfold Posixpath.basename. simpl Str.rfind.
  destruct (Str.rfind s Posixpath.sep) as [i|] eqn:E; [reflexivity|].
  apply StrFacts.rfind_none in E. congruence.
Qed.

Lemma basename_plain (f : string) :
  Str.contains f Posixpath.sep = false -> Posixpath.basename f = f.
Proof.
  intros H. unfold Posixpath.basename.
  destruct (Str.rfind f Posixpath.sep) as [i|] eqn:E; [|reflexivity].
  exfalso. revert i E. induction f as [|a f IH]; intros i E; [discriminate|].
  simpl in H. apply orb_false_iff in H as [Ha Hf]. simpl in E.
  destruct (Str.rfind f Posixpath.sep) as [j|] eqn:Ej.
  - eapply IH; eauto.
  - rewrite Ha in E. discriminate.
Qed.

Lemma basename_after_sep (x f : string) :
  Str.contains f Posixpath.sep = false ->
  Posixpath.basename (x +++ String Posixpath.sep f) = f.
Proof.
  intros H. induction x as [|a x IH].
  - simpl. unfold Posixpath.basename. simpl Str.rfind.
    destruct (Str.rfind f Posixpath.sep) as [i|] eqn:E.
    + pose proof (basename_plain f H) as Hb. unfold Posixpath.basename in Hb.
      rewrite E in Hb. exact Hb.
    + reflexivity.
  - simpl String.append. rewrite basename_cons; [exact IH|].
    rewrite StrFacts.contains_app. simpl. apply orb_true_r.
Qed.

Lemma basename_join_step (p f : string) :
  Str.contains f Posixpath.sep = false ->
  Posixpath.basename (Posixpath.join_step p f) = f.
Proof.
  intros H.
  assert (Hf : Str.startswith f "/" = false).
  { destruct (Str.startswith f "/") eqn:E; auto.
    apply StrFacts.startswith_char in E as [t ->]. discriminate. }
  destruct (string_dec p "") as [->|Hp].
  - unfold Posixpath.join_step. rewrite Hf. simpl. now apply basename_plain.
  - rewrite PathFacts.join_step_rel by auto.
    destruct (Str.endswith p Posixpath.sep) eqn:E.
    + apply StrFacts.endswith_snoc in E as [p' ->].
      rewrite StrFacts.append_assoc. now apply basename_after_sep.
    + now apply basename_after_sep.
Qed.

(** X10. Whatever the sub-path, the single upload of a file and the
    download of [posixpath.join(subpath, basename(file))] address the same
    key: what was uploaded below a sub-path is downloaded by its relative
    path. Each makes exactly one call on the storage. *)
Theorem upload_download_same_key :
  forall (host : Host) (oss : Oss) (s s1 : State) (bucket prefix : string)
         (b : Bucket) (local_file : string) (artifact_path : option string)
         (dest : string),
    parse_oss_uri host (artifact_uri (self s)) = OK (bucket, prefix) ->
    _get_oss_bucket oss bucket s = (OK b, s1) ->
    let remote :=
      Posixpath.join (match artifact_path with Some p => p | None => "" end)
                     [Posixpath.basename local_file] in
    exists k,
      calls (snd (log_artifact host oss local_file artifact_path s))
      = calls s1 ++ [PutObjectFromFile b k local_file]
      /\ calls (snd (_download_file host oss remote dest s))
         = calls s1 ++ [GetObjectToFile b k dest].
Proof.
  intros host oss s s1 bucket prefix b local_file ap dest Hp Hb remote.
  destruct (get_oss_bucket_ok oss _ _ _ _ Hb) as (Hs1 & _).
  exists (Posixpath.join (effective_path prefix ap)
                         [Posixpath.basename local_file]).
  split.
  - rewrite (log_artifact_run host oss _ _ _ _ _ _ _ Hp Hb).
    now rewrite (oss_put_stored oss _ _ _ _ Hs1).
  - rewrite (download_file_run host oss _ _ _ _ _ _ _ Hp Hb).
    rewrite (oss_get_stored oss _ _ _ _ Hs1). cbn [snd log_call calls].
    do 3 f_equal. unfold remote, effective_path, truthy_opt.
    pose proof (basename_not_abs local_file) as Hbase.
    destruct ap as [p|]; [destruct (Str.truthy p) eqn:Et|].
    + unfold Posixpath.join. simpl. now apply join_step_assoc.
    + apply StrFacts.truthy_false in Et. subst p. now rewrite join_empty.
    + now rewrite join_empty.
Qed.

Lemma upload_download_same_key_witness :
  exists k,
    calls (snd (log_artifact home_host (accepting_oss empty_listing)
                             "/tmp/model.pkl" (Some "models/v1") bound_repo))
    = calls bound_repo
      ++ [PutObjectFromFile
            (mkBucket 0 (Some (StaticAuth "id" "secret"))
                      (Some "https://oss.example.com") "mybucket")
            k "/tmp/model.pkl"]
    /\ calls (snd (_download_file home_host (accepting_oss empty_listing)
                                  "models/v1/model.pkl" "/tmp/copy.pkl"
                                  bound_repo))
       = calls bound_repo
         ++ [GetObjectToFile
               (mkBucket 0 (Some (StaticAuth "id" "secret"))
                         (Some "https://oss.example.com") "mybucket")
               k "/tmp/copy.pkl"].
Proof.
  exact (upload_download_same_key
           home_host (accepting_oss empty_listing) bound_repo bound_repo
           "mybucket" "run" _ "/tmp/model.pkl" (Some "models/v1")
           "/tmp/copy.pkl" eq_refl eq_refl).
Defined.

(** The single upload of a file of a tree, under the sub-path of its
    directory, makes the put of that file of the tree. *)
Lemma log_artifact_at_tree_key :
  forall (host : Host) (oss : Oss) (s s1 : State) (bucket prefix : string)
         (b : Bucket) (artifact_path : option string) (top : string)
         (dirs_to : list string) (name : string),
    parse_oss_uri host (artifact_uri (self s)) = OK (bucket, prefix) ->
    _get_oss_bucket oss bucket s = (OK b, s1) ->
    forallb plain_name dirs_to = true ->
    Str.contains name Posixpath.sep = false ->
    calls (snd (log_artifact host oss
                             (Posixpath.join top (dirs_to ++ [name]))
                             (subpath_of_file artifact_path dirs_to) s))
    = calls s1
      ++ [tree_put b (effective_path prefix artifact_path) top
                   (dirs_to, name)].
Proof.
  intros host oss s s1 bucket prefix b ap top ds name Hp Hb Hds Hname.
  destruct (get_oss_bucket_ok oss _ _ _ _ Hb) as (Hs1 & _).
  rewrite (log_artifact_run host oss _ _ _ _ _ _ _ Hp Hb).
  rewrite (oss_put_stored oss _ _ _ _ Hs1). cbn [snd log_call calls].
  do 2 f_equal. unfold tree_put. cbn [fst snd]. f_equal.
  assert (Hbase : Posixpath.basename (Posixpath.join top (ds ++ [name]))
                  = name).
  { unfold Posixpath.join. rewrite fold_left_app. simpl.
    now apply basename_join_step. }
  rewrite Hbase. unfold tree_key, subpath_of_file.
  destruct ds as [|d ds']; [reflexivity|].
  set (D := String.concat "/" (d :: ds')).
  assert (HD : Str.startswith D "/" = false /\ D <> "").
  { destruct (PathFacts.spelled_not_abs D (d :: ds')) as [H0 Habs]; auto.
    - now left.
    - discriminate. }
  destruct HD as [HDabs HD0].
  assert (Heff : forall S,
             effective_path prefix (Some (Posixpath.join S [D]))
             = Posixpath.join_step prefix (Posixpath.join_step S D)).
  { intros S. unfold effective_path, truthy_opt.
    assert (Ht : Str.truthy (Posixpath.join S [D]) = true).
    { apply StrFacts.truthy_true. unfold Posixpath.join. simpl.
      unfold Posixpath.join_step. rewrite HDabs.
      destruct (_ || _); destruct S; simpl; try congruence;
        destruct D; simpl; congruence. }
    now rewrite Ht. }
  rewrite Heff. unfold Posixpath.join. simpl. f_equal.
  unfold effective_path, truthy_opt.
  destruct ap as [p|]; [destruct (Str.truthy p) eqn:Et|].
  - now apply join_step_assoc.
  - apply StrFacts.truthy_false in Et. subst p.
    unfold Posixpath.join_step at 2. now rewrite HDabs.
  - unfold Posixpath.join_step at 2. now rewrite HDabs.
Qed.

Lemma tree_files_plain (t : tree) :
  forall (dirs_to : list string) (file : list string * string),
    plain_dirs t = true -> forallb plain_name dirs_to = true ->
    In file (tree_files dirs_to t) ->
    forallb plain_name (fst file) = true.
Proof.
  induction t as [filenames dirs IH] using tree_induction.
  intros dirs_to file Hdirs Hplain Hin.
  cbn [tree_files] in Hin. apply in_app_or in Hin as [Hin|Hin].
  - apply in_map_iff in Hin as (f & <- & _). exact Hplain.
  - apply in_flat_map in Hin as (d & Hd & Hin).
    cbn [plain_dirs] in Hdirs. rewrite forallb_forall in Hdirs.
    specialize (Hdirs d Hd). apply andb_true_iff in Hdirs as [Hname Hsub].
    rewrite Forall_forall in IH.
    apply (IH d Hd (dirs_to ++ [fst d]) file Hsub); [|exact Hin].
    rewrite forallb_app, Hplain. simpl. now rewrite Hname.
Qed.

Lemma Forall2_map_right {A B : Type} (P : A -> B -> Prop) (g : A -> B)
      (l : list A) :
  (forall x, In x l -> P x (g x)) -> Forall2 P l (map g l).
Proof.
  induction l as [|x l IH]; intros H; simpl; constructor.
  - apply H. now left.
  - apply IH. intros y Hy. apply H. now right.
Qed.

(** X11. When the storage accepts every put, the upload of a directory
    makes, file by file in the order of the walk, the call that the single
    upload of that file makes: for a file of the root directory the single
    upload with the same sub-path, for a file below the single upload with
    the sub-path joined with the directories that lead to the file. *)
Theorem log_artifacts_as_single_uploads :
  forall (host : Host) (oss : Oss) (local_dir : string)
         (artifact_path : option string) (s s1 : State)
         (bucket prefix : string) (b : Bucket) (t : tree),
    parse_oss_uri host (artifact_uri (self s)) = OK (bucket, prefix) ->
    _get_oss_bucket oss bucket s = (OK b, s1) ->
    Posixpath.isabs (getcwd host) = true ->
    directory host (Posixpath.abspath (getcwd host) local_dir) = Some t ->
    plain_dirs t = true ->
    forallb (fun file => negb (Str.contains (snd file) Posixpath.sep))
            (tree_files [] t) = true ->
    (forall l b' k f, put_object_from_file oss l b' k f = None) ->
    let top := Posixpath.abspath (getcwd host) local_dir in
    exists made,
      log_artifacts host oss local_dir artifact_path s
      = (OK tt, add_calls s1 made)
      /\ Forall2 (fun file c =>
                    calls (snd (log_artifact
                                  host oss
                                  (Posixpath.join top (fst file ++ [snd file]))
                                  (subpath_of_file artifact_path (fst file))
                                  s))
                    = calls s1 ++ [c])
                 (tree_files [] t) made.
Proof.
  intros host oss local_dir ap s s1 bucket prefix b t Hp Hb Hcwd Hdir Hplain
         Hnames Hput top.
  destruct (get_oss_bucket_ok oss _ _ _ _ Hb) as (Hs1 & _).
  exists (map (tree_put b (effective_path prefix ap) top) (tree_files [] t)).
  split.
  - rewrite (log_artifacts_puts host oss local_dir ap s s1 bucket prefix b t
                                Hp Hb Hcwd Hdir Hplain).
    rewrite (for_each_put_all oss b _ s1 Hs1).
    assert (Hacc : forall files history,
               accepted oss b history files = true).
    { induction files as [|[k f] files IH]; intros history;
        [reflexivity|].
      cbn [accepted]. now rewrite Hput. }
    rewrite (put_all_accepted oss b _ _ (Hacc _ _)). cbn [fst snd].
    unfold tree_uploads. now rewrite map_map.
  - apply Forall2_map_right. intros [dirs_to name] Hin. cbn [fst snd].
    apply (log_artifact_at_tree_key host oss s s1 bucket prefix b ap top
                                    dirs_to name Hp Hb).
    + exact (tree_files_plain t [] (dirs_to, name) Hplain eq_refl Hin).
    + rewrite forallb_forall in Hnames. specialize (Hnames _ Hin).
      now apply negb_true_iff in Hnames.
Qed.

Lemma log_artifacts_as_single_uploads_witness :
  exists made,
    log_artifacts home_host (accepting_oss empty_listing) "root"
                  (Some "models") bound_repo
    = (OK tt, add_calls bound_repo made)
    /\ Forall2 (fun file c =>
                  calls (snd (log_artifact
                                home_host (accepting_oss empty_listing)
                                (Posixpath.join "/home/u/root"
                                                (fst file ++ [snd file]))
                                (subpath_of_file (Some "models") (fst file))
                                bound_repo))
                  = calls bound_repo ++ [c])
               (tree_files [] (Dir ["f1.txt"] [("sub", Dir ["f2.txt"] [])]))
               made.
Proof.
  exact (log_artifacts_as_single_uploads
           home_host (accepting_oss empty_listing) "root" (Some "models")
           bound_repo bound_repo "mybucket" "run" _
           (Dir ["f1.txt"] [("sub", Dir ["f2.txt"] [])])
           eq_refl eq_refl eq_refl eq_refl eq_refl eq_refl
           (fun _ _ _ _ => eq_refl)).
Defined.

(** ** What a listing returns *)

Lemma Forall2_in_left {A B : Type} (R : A -> B -> Prop) (l : list A)
      (l' : list B) (x : A) :
  Forall2 R l l' -> In x l -> exists y, In y l' /\ R x y.
Proof.
  induction 1 as [|a b l l' Hab HF IH]; intros Hin; [contradiction|].
  destruct Hin as [<-|Hin].
  - exists b. auto with datatypes.
  - destruct (IH Hin) as (y & Hy & HR). exists y. auto with datatypes.
Qed.

Lemma Forall2_length_eq {A B : Type} (R : A -> B -> Prop) (l : list A)
      (l' : list B) :
  Forall2 R l l' -> List.length l = List.length l'.
Proof. induction 1; simpl; congruence. Qed.

(** The entries of a listing that returns: one per key, one per common
    prefix, sorted. *)
Lemma listing_of_entries (cwd ap : string) (r : ListObjectsResult)
      (infos : list FileInfo) :
  listing_of cwd ap r = OK infos ->
  exists files dirs,
    Forall2 (entry_for cwd ap key file_entry) (object_list r) files
    /\ Forall2 (entry_for cwd ap (fun p => p) dir_entry) (prefix_list r) dirs
    /\ infos = sorted_by_path (files ++ dirs).
Proof.
  unfold listing_of.
  pose proof (listed_spec cwd ap key file_entry (object_list r) []) as HF.
  destruct (listed _ _ key _ _ _) as [fs|e]; [|discriminate].
  destruct HF as (_ & files & -> & HF).
  pose proof (listed_spec cwd ap (fun p => p) dir_entry (prefix_list r)
                          ([] ++ files)) as HD.
  destruct (listed _ _ _ dir_entry _ _) as [ds|e]; [|discriminate].
  destruct HD as (_ & dirs & -> & HD).
  intros H. injection H as <-. exists files, dirs. auto.
Qed.

Lemma listing_of_ok_iff (cwd ap : string) (r : ListObjectsResult) :
  (exists infos, listing_of cwd ap r = OK infos)
  <-> (forall p, In p (answered_paths r) ->
                 Str.startswith p ap = true /\ p <> "").
Proof.
  unfold answered_paths. split.
  - intros [infos H]. unfold listing_of in H.
    pose proof (listed_spec cwd ap key file_entry (object_list r) []) as HF.
    destruct (listed _ _ key _ _ _) as [fs|e]; [|discriminate].
    destruct HF as (Hfiles & _).
    pose proof (listed_spec cwd ap (fun p => p) dir_entry (prefix_list r) fs)
      as HD.
    destruct (listed _ _ _ dir_entry _ _) as [ds|e]; [|discriminate].
    destruct HD as (Hdirs & _).
    intros p Hin. apply in_app_or in Hin as [Hin|Hin]; auto.
    apply in_map_iff in Hin as (o & <- & Ho). auto.
  - intros Hall. unfold listing_of.
    destruct (listed_ok cwd ap key file_entry (object_list r) [])
      as (files & -> & _).
    { intros o Ho. apply Hall, in_or_app. left. now apply in_map. }
    destruct (listed_ok cwd ap (fun p => p) dir_entry (prefix_list r)
                        ([] ++ files)) as (dirs & -> & _).
    { intros p Hin. apply Hall, in_or_app. now right. }
    eauto.
Qed.

Lemma listing_of_value_error_iff (cwd ap : string) (r : ListObjectsResult) :
  listing_of cwd ap r = Raise (ValueError "no path specified")
  <-> ap = "" /\ In "" (answered_paths r).
Proof.
  unfold answered_paths, listing_of.
  pose proof (listed_spec cwd ap key file_entry (object_list r) []) as HF.
  destruct (listed _ _ key _ _ _) as [fs|e].
  - destruct HF as (Hfiles & _).
    pose proof (listed_spec cwd ap (fun p => p) dir_entry (prefix_list r) fs)
      as HD.
    destruct (listed _ _ _ dir_entry _ _) as [ds|e].
    + destruct HD as (Hdirs & _). split; [discriminate|].
      intros (_ & Hin). apply in_app_or in Hin as [Hin|Hin].
      * apply in_map_iff in Hin as (o & Ho0 & Ho).
        destruct (Hfiles o Ho). congruence.
      * destruct (Hdirs "" Hin). congruence.
    + destruct HD as [(p & Hin & Hs & ->)|(-> & -> & p & Hin & Hp0)].
      * split; [discriminate|]. intros (-> & _).
        now rewrite StrFacts.startswith_empty in Hs.
      * split; auto. intros _. split; auto.
        apply in_or_app. right. now rewrite <- Hp0.
  - destruct HF as [(o & Hin & Hs & ->)|(-> & -> & o & Hin & Ho0)].
    + split; [discriminate|]. intros (-> & _).
      now rewrite StrFacts.startswith_empty in Hs.
    + split; auto. intros _. split; auto.
      apply in_or_app. left. rewrite <- Ho0. now apply in_map.
Qed.

(** *** A stable sort *)

Lemma ltb_irrefl (a : string) : String.ltb a a = false.
Proof.
  unfold String.ltb.
  assert (H : String_as_OT.cmp a a = Eq) by now apply String_as_OT.cmp_eq.
  unfold String_as_OT.cmp in H. now rewrite H.
Qed.

Lemma insert_by_path_filter (p : string) (x : FileInfo) (l : list FileInfo) :
  filter (has_path p) (insert_by_path x l) = filter (has_path p) (x :: l).
Proof.
  induction l as [|y l IH]; [reflexivity|].
  cbn [insert_by_path].
  destruct (String.ltb (path y) (path x)) eqn:E; [|reflexivity].
  cbn [filter] in *. rewrite IH. unfold has_path.
  destruct (String.eqb_spec (path y) p) as [Hy|Hy];
    destruct (String.eqb_spec (path x) p) as [Hx|Hx]; try reflexivity.
  rewrite Hy, Hx, ltb_irrefl in E. discriminate.
Qed.

Lemma sorted_by_path_stable (p : string) (l : list FileInfo) :
  filter (has_path p) (sorted_by_path l) = filter (has_path p) l.
Proof.
  induction l as [|x l IH]; [reflexivity|].
  cbn [sorted_by_path fold_right]. rewrite insert_by_path_filter.
  cbn [filter]. fold (sorted_by_path l). now rewrite IH.
Qed.

Section ListingUse.

Variable host : Host.
Variable oss : Oss.

(** The listing and the download on a repository that stores its handle. *)
Lemma list_artifacts_stored (path : option string) (s : State)
      (bucket ap : string) (b : Bucket) :
  parse_oss_uri host (artifact_uri (self s)) = OK (bucket, ap) ->
  oss_bucket (self s) = Some b ->
  list_artifacts host oss path s =
  (match list_objects oss (calls s) b
           (listing_prefix (effective_path ap path)) "/" with
   | inl msg => Raise (OssError msg)
   | inr r => listing_of (getcwd host) ap r
   end,
   log_call s (ListObjects b (listing_prefix (effective_path ap path)) "/")).
Proof.
  intros Hp Hs. apply (list_artifacts_answer host oss path s s bucket ap b Hp).
  now apply get_oss_bucket_stored.
Qed.

Lemma download_file_stored (remote dest : string) (s : State)
      (bucket ap : string) (b : Bucket) :
  parse_oss_uri host (artifact_uri (self s)) = OK (bucket, ap) ->
  oss_bucket (self s) = Some b ->
  calls (snd (_download_file host oss remote dest s))
  = calls s ++ [GetObjectToFile b (Posixpath.join ap [remote]) dest].
Proof.
  intros Hp Hs.
  rewrite (download_file_run host oss remote dest s s bucket ap b Hp
             (get_oss_bucket_stored oss bucket s b Hs)).
  now rewrite (oss_get_stored oss _ _ _ _ Hs).
Qed.

End ListingUse.

(** The key below a prefix is the join of the prefix and the names. *)
Lemma join_key_below (ap : string) (names : list string) :
  Str.endswith ap Posixpath.sep = false ->
  forallb plain_name names = true -> names <> [] ->
  Posixpath.join ap [String.concat "/" names] = key_below ap names.
Proof.
  intros He Hn Hne. unfold key_below.
  destruct (PathFacts.spelled_not_abs (String.concat "/" names) names)
    as [H0 Habs]; auto; [now left|].
  destruct (Str.truthy ap) eqn:Et.
  - apply StrFacts.truthy_true in Et. now apply join_rel.
  - apply StrFacts.truthy_false in Et. subst. apply join_empty.
Qed.

Lemma relpath_key_below (cwd ap : string) (names : list string)
      (slash : bool) :
  Posixpath.isabs cwd = true ->
  forallb plain_name names = true -> names <> [] ->
  Posixpath.relpath cwd (if slash then key_below ap names +++ "/"
                         else key_below ap names) ap
  = OK (String.concat "/" names).
Proof.
  intros Hcwd Hn Hne. unfold key_below.
  pose proof (PathFacts.relpath_below
                cwd ap (if slash then String.concat "/" names +++ "/"
                        else String.concat "/" names) names Hcwd) as H.
  assert (Hs : spelled (if slash then String.concat "/" names +++ "/"
                        else String.concat "/" names) names)
    by (destruct slash; [now right | now left]).
  specialize (H Hs Hn Hne).
  destruct (Str.truthy ap); destruct slash;
    rewrite ?StrFacts.append_assoc; exact H.
Qed.

(** X12. A file that a listing returns can be downloaded by the path of its
    entry: for a key that spells plain names below the key prefix (which
    does not end with ["/"]), the entry is a file with the reported size
    whose path is those names, and the download of that path requests
    exactly that key. *)
Theorem listed_file_downloads_its_key :
  forall (host : Host) (oss : Oss) (path_arg : option string) (s s1 : State)
         (bucket ap : string) (b : Bucket) (r : ListObjectsResult)
         (infos : list FileInfo) (obj : ObjectInfo) (names : list string)
         (dest : string),
    parse_oss_uri host (artifact_uri (self s)) = OK (bucket, ap) ->
    _get_oss_bucket oss bucket s = (OK b, s1) ->
    list_objects oss (calls s1) b
                 (listing_prefix (effective_path ap path_arg)) "/" = inr r ->
    Posixpath.isabs (getcwd host) = true ->
    Str.endswith ap Posixpath.sep = false ->
    fst (list_artifacts host oss path_arg s) = OK infos ->
    In obj (object_list r) ->
    forallb plain_name names = true -> names <> [] ->
    key obj = key_below ap names ->
    let listed_state := snd (list_artifacts host oss path_arg s) in
    In (mkFileInfo (String.concat "/" names) false (Some (size obj))) infos
    /\ calls (snd (_download_file host oss (String.concat "/" names) dest
                                  listed_state))
       = calls listed_state ++ [GetObjectToFile b (key obj) dest].
Proof.
  intros host oss path_arg s s1 bucket ap b r infos obj names dest
         Hp Hb Hl Hcwd Hend Hok Hin Hn Hne Hkey listed_state.
  destruct (get_oss_bucket_ok oss _ _ _ _ Hb) as (Hs1 & Huri & _).
  unfold listed_state.
  rewrite (list_artifacts_answer host oss _ _ _ _ _ _ Hp Hb), Hl in *.
  cbn [fst snd] in *. split.
  - destruct (listing_of_entries _ _ _ _ Hok) as (files & dirs & HF & _ & ->).
    destruct (Forall2_in_left _ _ _ _ HF Hin) as (i & Hi & rel & Hrel & ->).
    rewrite Hkey in Hrel.
    rewrite (relpath_key_below (getcwd host) ap names false Hcwd Hn Hne)
      in Hrel.
    injection Hrel as <-.
    apply (Permutation_in _ (Permutation_sym (sorted_by_path_perm _))).
    apply in_or_app. now left.
  - rewrite (download_file_stored host oss _ _ _ bucket ap b).
    + now rewrite join_key_below, Hkey.
    + simpl. now rewrite Huri.
    + exact Hs1.
Qed.

Lemma listed_file_downloads_its_key_witness :
  In (mkFileInfo "a.txt" false (Some 5%N))
     [mkFileInfo "a.txt" false (Some 5%N);
      mkFileInfo "b.txt" false (Some 3%N);
      mkFileInfo "sub" true None]
  /\ calls (snd (_download_file
                   home_host (accepting_oss run_listing) "a.txt" "/tmp/a.txt"
                   (snd (list_artifacts home_host (accepting_oss run_listing)
                                        None bound_repo))))
     = calls (snd (list_artifacts home_host (accepting_oss run_listing)
                                  None bound_repo))
       ++ [GetObjectToFile
             (mkBucket 0 (Some (StaticAuth "id" "secret"))
                       (Some "https://oss.example.com") "mybucket")
             "run/a.txt" "/tmp/a.txt"].
Proof.
  exact (listed_file_downloads_its_key
           home_host (accepting_oss run_listing) None bound_repo bound_repo
           "mybucket" "run" _ run_listing _ (mkObjectInfo "run/a.txt" 5)
           ["a.txt"] "/tmp/a.txt"
           eq_refl eq_refl eq_refl eq_refl eq_refl eq_refl
           (or_intror (or_introl eq_refl)) eq_refl
           ltac:(discriminate) eq_refl).
Defined.

(** X13. When the key prefix does not end with ["/"], a directory that a
    listing returns can be listed by the path of its entry: for a common
    prefix that spells plain names below the key prefix, followed by
    ["/"], the entry is a directory without size whose path is those names,
    and the listing of that path queries exactly that common prefix. *)
Theorem listed_directory_lists_its_prefix :
  forall (host : Host) (oss : Oss) (path_arg : option string) (s s1 : State)
         (bucket ap : string) (b : Bucket) (r : ListObjectsResult)
         (infos : list FileInfo) (common_prefix : string)
         (names : list string),
    parse_oss_uri host (artifact_uri (self s)) = OK (bucket, ap) ->
    _get_oss_bucket oss bucket s = (OK b, s1) ->
    list_objects oss (calls s1) b
                 (listing_prefix (effective_path ap path_arg)) "/" = inr r ->
    Posixpath.isabs (getcwd host) = true ->
    Str.endswith ap Posixpath.sep = false ->
    fst (list_artifacts host oss path_arg s) = OK infos ->
    In common_prefix (prefix_list r) ->
    forallb plain_name names = true -> names <> [] ->
    common_prefix = key_below ap names +++ "/" ->
    let listed_state := snd (list_artifacts host oss path_arg s) in
    In (mkFileInfo (String.concat "/" names) true None) infos
    /\ calls (snd (list_artifacts host oss (Some (String.concat "/" names))
                                  listed_state))
       = calls listed_state ++ [ListObjects b common_prefix "/"].
Proof.
  intros host oss path_arg s s1 bucket ap b r infos cp names
         Hp Hb Hl Hcwd Hend Hok Hin Hn Hne Hcp listed_state.
  destruct (get_oss_bucket_ok oss _ _ _ _ Hb) as (Hs1 & Huri & _).
  unfold listed_state.
  rewrite (list_artifacts_answer host oss _ _ _ _ _ _ Hp Hb), Hl in *.
  cbn [fst snd] in *. split.
  - destruct (listing_of_entries _ _ _ _ Hok) as (files & dirs & _ & HD & ->).
    destruct (Forall2_in_left _ _ _ _ HD Hin) as (i & Hi & rel & Hrel & ->).
    rewrite Hcp in Hrel.
    rewrite (relpath_key_below (getcwd host) ap names true Hcwd Hn Hne)
      in Hrel.
    injection Hrel as <-.
    apply (Permutation_in _ (Permutation_sym (sorted_by_path_perm _))).
    apply in_or_app. now right.
  - rewrite (list_artifacts_stored host oss _ _ bucket ap b).
    + cbn [snd log_call calls]. do 3 f_equal.
      destruct (PathFacts.spelled_not_abs (String.concat "/" names) names)
        as [H0 Habs]; auto; [now left|].
      unfold effective_path, truthy_opt.
      apply StrFacts.truthy_true in H0. rewrite H0.
      rewrite join_key_below by assumption.
      unfold listing_prefix.
      assert (Hk : Str.truthy (key_below ap names) = true).
      { apply StrFacts.truthy_true. unfold key_below.
        apply StrFacts.truthy_true in H0.
        destruct (Str.truthy ap); [destruct ap; simpl; congruence | exact H0]. }
      now rewrite Hk, Hcp.
    + simpl. now rewrite Huri.
    + exact Hs1.
Qed.

Lemma listed_directory_lists_its_prefix_witness :
  In (mkFileInfo "sub" true None)
     [mkFileInfo "a.txt" false (Some 5%N);
      mkFileInfo "b.txt" false (Some 3%N);
      mkFileInfo "sub" true None]
  /\ calls (snd (list_artifacts
                   home_host (accepting_oss run_listing) (Some "sub")
                   (snd (list_artifacts home_host (accepting_oss run_listing)
                                        None bound_repo))))
     = calls (snd (list_artifacts home_host (accepting_oss run_listing)
                                  None bound_repo))
       ++ [ListObjects
             (mkBucket 0 (Some (StaticAuth "id" "secret"))
                       (Some "https://oss.example.com") "mybucket")
             "run/sub/" "/"].
Proof.
  exact (listed_directory_lists_its_prefix
           home_host (accepting_oss run_listing) None bound_repo bound_repo
           "mybucket" "run" _ run_listing _ "run/sub/" ["sub"]
           eq_refl eq_refl eq_refl eq_refl eq_refl eq_refl
           (or_introl eq_refl) eq_refl ltac:(discriminate) eq_refl).
Defined.

(** X14. When the storage answers the query of a listing, the listing
    returns if and only if every key and common prefix of the answer is
    non-empty and starts with the key prefix; it raises the [ValueError]
    "no path specified" of [posixpath.relpath] if and only if the key
    prefix is empty and the answer holds an empty key or common prefix. *)
Theorem list_artifacts_outcome :
  forall (host : Host) (oss : Oss) (path : option string) (s s1 : State)
         (bucket ap : string) (b : Bucket) (r : ListObjectsResult),
    parse_oss_uri host (artifact_uri (self s)) = OK (bucket, ap) ->
    _get_oss_bucket oss bucket s = (OK b, s1) ->
    list_objects oss (calls s1) b
                 (listing_prefix (effective_path ap path)) "/" = inr r ->
    ((exists infos, fst (list_artifacts host oss path s) = OK infos)
     <-> (forall p, In p (answered_paths r) ->
                    Str.startswith p ap = true /\ p <> ""))
    /\ (fst (list_artifacts host oss path s)
        = Raise (ValueError "no path specified")
        <-> ap = "" /\ In "" (answered_paths r)).
Proof.
  intros host oss path s s1 bucket ap b r Hp Hb Hl.
  rewrite (list_artifacts_answer host oss path s s1 bucket ap b Hp Hb), Hl.
  cbn [fst]. split.
  - apply listing_of_ok_iff.
  - apply listing_of_value_error_iff.
Qed.

Lemma list_artifacts_outcome_witness :
  ((exists infos,
       fst (list_artifacts home_host (accepting_oss blank_listing) None
                           (fresh_repo "oss://mybucket")) = OK infos)
   <-> (forall p, In p (answered_paths blank_listing) ->
                  Str.startswith p "" = true /\ p <> ""))
  /\ (fst (list_artifacts home_host (accepting_oss blank_listing) None
                          (fresh_repo "oss://mybucket"))
      = Raise (ValueError "no path specified")
      <-> "" = "" /\ In "" (answered_paths blank_listing)).
Proof.
  exact (list_artifacts_outcome
           home_host (accepting_oss blank_listing) None
           (fresh_repo "oss://mybucket") _ "mybucket" "" _ blank_listing
           eq_refl eq_refl eq_refl).
Defined.

(** X15. A listing that returns has one entry for every key and every
    common prefix of the answer, duplicates included; entries with the same
    path stay in the order of the answer, those of the keys before those of
    the common prefixes. *)
Theorem list_artifacts_keeps_every_answer :
  forall (host : Host) (oss : Oss) (path_arg : option string) (s s1 : State)
         (bucket ap : string) (b : Bucket) (r : ListObjectsResult)
         (infos : list FileInfo),
    parse_oss_uri host (artifact_uri (self s)) = OK (bucket, ap) ->
    _get_oss_bucket oss bucket s = (OK b, s1) ->
    list_objects oss (calls s1) b
                 (listing_prefix (effective_path ap path_arg)) "/" = inr r ->
    fst (list_artifacts host oss path_arg s) = OK infos ->
    List.length infos
    = (List.length (object_list r) + List.length (prefix_list r))%nat
    /\ exists files dirs,
        Forall2 (entry_for (getcwd host) ap key file_entry)
                (object_list r) files
        /\ Forall2 (entry_for (getcwd host) ap (fun p => p) dir_entry)
                   (prefix_list r) dirs
        /\ forall p, filter (has_path p) infos
                     = filter (has_path p) files ++ filter (has_path p) dirs.
Proof.
  intros host oss path_arg s s1 bucket ap b r infos Hp Hb Hl Hok.
  rewrite (list_artifacts_answer host oss _ _ _ _ _ _ Hp Hb), Hl in Hok.
  cbn [fst] in Hok.
  destruct (listing_of_entries _ _ _ _ Hok) as (files & dirs & HF & HD & ->).
  split.
  - rewrite (Permutation_length (sorted_by_path_perm _)), length_app.
    now rewrite (Forall2_length_eq _ _ _ HF), (Forall2_length_eq _ _ _ HD).
  - exists files, dirs. repeat split; auto.
    intros p. now rewrite sorted_by_path_stable, filter_app.
Qed.

Lemma list_artifacts_keeps_every_answer_witness :
  List.length [mkFileInfo "a" false (Some 1%N); mkFileInfo "a" true None;
               mkFileInfo "b" false (Some 2%N)]
  = (List.length (object_list tied_listing)
     + List.length (prefix_list tied_listing))%nat
  /\ exists files dirs,
      Forall2 (entry_for "/home/u" "run" key file_entry)
              (object_list tied_listing) files
      /\ Forall2 (entry_for "/home/u" "run" (fun p => p) dir_entry)
                 (prefix_list tied_listing) dirs
      /\ forall p,
          filter (has_path p)
                 [mkFileInfo "a" false (Some 1%N); mkFileInfo "a" true None;
                  mkFileInfo "b" false (Some 2%N)]
          = filter (has_path p) files ++ filter (has_path p) dirs.
Proof.
  exact (list_artifacts_keeps_every_answer
           home_host (accepting_oss tied_listing) None bound_repo bound_repo
           "mybucket" "run" _ tied_listing _
           eq_refl eq_refl eq_refl eq_refl).
Defined.

(** The names of a relative path, one more added by a join. *)
Lemma concat_snoc_join (names : list string) (f : string) :
  forallb plain_name names = true -> names <> [] -> plain_name f = true ->
  Posixpath.join_step (String.concat "/" names) f
  = String.concat "/" (names ++ [f]).
Proof.
  intros Hn Hne Hf. destruct names as [|n rest]; [congruence|].
  simpl in Hn. apply andb_true_iff in Hn as [Hn Hrest].
  destruct (PathFacts.plain_name_spec _ Hn) as (Hn0 & _).
  pose proof (PathFacts.plain_not_endswith _ Hn) as Hne'.
  rewrite <- (PathFacts.join_plain n rest Hn0 Hne' Hrest).
  change ((n :: rest) ++ [f]) with (n :: (rest ++ [f])).
  rewrite <- (PathFacts.join_plain n (rest ++ [f]) Hn0 Hne').
  - unfold Posixpath.join. now rewrite fold_left_app.
  - rewrite forallb_app, Hrest. simpl. now rewrite Hf.
Qed.

(** The key of the single upload of a plainly named file below plain
    directory names. *)
Lemma upload_key_below (ap : string) (names : list string) (f : string) :
  Str.endswith ap Posixpath.sep = false ->
  forallb plain_name names = true -> plain_name f = true ->
  Posixpath.join (effective_path ap (subpath_of_names names)) [f]
  = key_below ap (names ++ [f]).
Proof.
  intros He Hn Hf.
  assert (Hall : forallb plain_name (names ++ [f]) = true).
  { rewrite forallb_app, Hn. simpl. now rewrite Hf. }
  assert (Hne : names ++ [f] <> []) by (destruct names; discriminate).
  rewrite <- (join_key_below ap (names ++ [f]) He Hall Hne).
  destruct names as [|n rest].
  - reflexivity.
  - assert (Hne' : n :: rest <> []) by discriminate.
    destruct (PathFacts.spelled_not_abs (String.concat "/" (n :: rest))
                                        (n :: rest))
      as [H0 Habs]; auto; [now left|].
    unfold subpath_of_names, effective_path, truthy_opt.
    apply StrFacts.truthy_true in H0. rewrite H0.
    rewrite <- (concat_snoc_join (n :: rest) f Hn Hne' Hf).
    unfold Posixpath.join. cbn [fold_left].
    symmetry. apply join_step_assoc. now apply PathFacts.plain_not_abs.
Qed.

(** The entry of a key that spells plain names below the key prefix. *)
Lemma listing_of_file_below (cwd ap : string) (r : ListObjectsResult)
      (infos : list FileInfo) (obj : ObjectInfo) (names : list string) :
  Posixpath.isabs cwd = true ->
  listing_of cwd ap r = OK infos ->
  In obj (object_list r) ->
  forallb plain_name names = true -> names <> [] ->
  key obj = key_below ap names ->
  In (mkFileInfo (String.concat "/" names) false (Some (size obj))) infos.
Proof.
  intros Hcwd Hok Hin Hn Hne Hkey.
  destruct (listing_of_entries _ _ _ _ Hok) as (files & dirs & HF & _ & ->).
  destruct (Forall2_in_left _ _ _ _ HF Hin) as (i & Hi & rel & Hrel & ->).
  rewrite Hkey in Hrel.
  rewrite (relpath_key_below cwd ap names false Hcwd Hn Hne) in Hrel.
  injection Hrel as <-.
  apply (Permutation_in _ (Permutation_sym (sorted_by_path_perm _))).
  apply in_or_app. now left.
Qed.

(** X16. A file uploaded alone comes back from a listing under its own
    name: when the key prefix does not end with ["/"], the sub-path spells
    plain directory names and the file has a plain base name, the upload
    puts the file at one key, and every later listing whose answer holds
    that key returns for it the file entry whose path is the directory
    names followed by the base name, with the size the storage reports. *)
Theorem uploaded_file_is_listed_by_name :
  forall (host : Host) (oss : Oss) (s s1 : State) (bucket ap : string)
         (b : Bucket) (local_file : string) (names : list string),
    parse_oss_uri host (artifact_uri (self s)) = OK (bucket, ap) ->
    _get_oss_bucket oss bucket s = (OK b, s1) ->
    Posixpath.isabs (getcwd host) = true ->
    Str.endswith ap Posixpath.sep = false ->
    forallb plain_name names = true ->
    plain_name (Posixpath.basename local_file) = true ->
    let uploaded :=
      snd (log_artifact host oss local_file (subpath_of_names names) s) in
    exists k,
      calls uploaded = calls s1 ++ [PutObjectFromFile b k local_file]
      /\ forall (path_arg : option string) (r : ListObjectsResult)
                (infos : list FileInfo) (n : N),
          list_objects oss (calls uploaded) b
                       (listing_prefix (effective_path ap path_arg)) "/"
          = inr r ->
          In (mkObjectInfo k n) (object_list r) ->
          fst (list_artifacts host oss path_arg uploaded) = OK infos ->
          In (mkFileInfo
                (String.concat "/" (names ++ [Posixpath.basename local_file]))
                false (Some n))
             infos.
Proof.
  intros host oss s s1 bucket ap b local_file names
         Hp Hb Hcwd He Hn Hf uploaded.
  destruct (get_oss_bucket_ok oss _ _ _ _ Hb) as (Hs1 & Huri & _).
  assert (Hup : uploaded
                = log_call s1 (PutObjectFromFile
                                 b (key_below
                                      ap (names
                                          ++ [Posixpath.basename local_file]))
                                 local_file)).
  { unfold uploaded.
    rewrite (log_artifact_run host oss _ _ _ _ _ _ _ Hp Hb).
    rewrite (oss_put_stored oss _ _ _ _ Hs1). cbn [snd].
    now rewrite upload_key_below. }
  exists (key_below ap (names ++ [Posixpath.basename local_file])).
  split; [now rewrite Hup|].
  intros path_arg r infos n Hl Hin Hok.
  assert (Hp' : parse_oss_uri host (artifact_uri (self uploaded))
                = OK (bucket, ap)).
  { rewrite Hup. cbn [log_call self]. now rewrite Huri. }
  assert (Hb' : _get_oss_bucket oss bucket uploaded = (OK b, uploaded)).
  { apply get_oss_bucket_stored. rewrite Hup. exact Hs1. }
  rewrite (list_artifacts_answer host oss _ _ _ _ _ _ Hp' Hb'), Hl in Hok.
  cbn [fst] in Hok.
  apply (listing_of_file_below (getcwd host) ap r infos
                               (mkObjectInfo _ n) _ Hcwd Hok Hin).
  - rewrite forallb_app, Hn. simpl. now rewrite Hf.
  - destruct names; discriminate.
  - reflexivity.
Qed.

Lemma uploaded_file_is_listed_by_name_witness :
  let uploaded :=
    snd (log_artifact home_host (accepting_oss run_listing) "/tmp/a.txt"
                      None bound_repo) in
  exists k,
    calls uploaded
    = calls bound_repo
      ++ [PutObjectFromFile
            (mkBucket 0 (Some (StaticAuth "id" "secret"))
                      (Some "https://oss.example.com") "mybucket")
            k "/tmp/a.txt"]
    /\ forall (path_arg : option string) (r : ListObjectsResult)
              (infos : list FileInfo) (n : N),
        list_objects (accepting_oss run_listing) (calls uploaded)
                     (mkBucket 0 (Some (StaticAuth "id" "secret"))
                               (Some "https://oss.example.com") "mybucket")
                     (listing_prefix (effective_path "run" path_arg)) "/"
        = inr r ->
        In (mkObjectInfo k n) (object_list r) ->
        fst (list_artifacts home_host (accepting_oss run_listing) path_arg
                            uploaded) = OK infos ->
        In (mkFileInfo "a.txt" false (Some n)) infos.
Proof.
  exact (uploaded_file_is_listed_by_name
           home_host (accepting_oss run_listing) bound_repo bound_repo
           "mybucket" "run" _ "/tmp/a.txt" []
           eq_refl eq_refl eq_refl eq_refl eq_refl eq_refl).
Defined.

Lemma startswith_app_cancel (p s t : string) :
  Str.startswith (p +++ s) (p +++ t) = Str.startswith s t.
Proof.
  unfold Str.startswith. induction p as [|a p IH]; [reflexivity|].
  simpl. destruct (ascii_dec a a); congruence.
Qed.

(** The key of an upload against the prefix that the listing of the same
    directory queries. *)
Lemma upload_key_in_query (dest_path local_file : string) :
  Str.startswith (Posixpath.join dest_path [Posixpath.basename local_file])
                 (listing_prefix dest_path)
  = negb (Str.endswith dest_path Posixpath.sep).
Proof.
  pose proof (basename_not_abs local_file) as Hb.
  unfold listing_prefix. destruct (Str.truthy dest_path) eqn:Et.
  - apply StrFacts.truthy_true in Et.
    unfold Posixpath.join. cbn [fold_left].
    rewrite PathFacts.join_step_rel by assumption.
    destruct (Str.endswith dest_path Posixpath.sep).
    + now rewrite startswith_app_cancel.
    + rewrite <- StrFacts.append_assoc. apply StrFacts.startswith_app.
  - apply StrFacts.truthy_false in Et. subst dest_path.
    apply StrFacts.startswith_empty.
Qed.

(** X17. The single upload of a file below a sub-path puts it within the
    prefix that the listing of the same sub-path queries exactly when the
    effective path (the key prefix joined with the sub-path) does not end
    with ["/"]: for an artifact URI written with a trailing ["/"] the
    listing of the root queries a prefix with a doubled ["/"] that the keys
    of the files uploaded at the root do not start with. *)
Theorem upload_within_listed_prefix :
  forall (host : Host) (oss : Oss) (s s1 : State) (bucket ap : string)
         (b : Bucket) (local_file : string) (subpath : option string),
    parse_oss_uri host (artifact_uri (self s)) = OK (bucket, ap) ->
    _get_oss_bucket oss bucket s = (OK b, s1) ->
    exists k q,
      calls (snd (log_artifact host oss local_file subpath s))
      = calls s1 ++ [PutObjectFromFile b k local_file]
      /\ calls (snd (list_artifacts host oss subpath s))
         = calls s1 ++ [ListObjects b q "/"]
      /\ Str.startswith k q
         = negb (Str.endswith (effective_path ap subpath) Posixpath.sep).
Proof.
  intros host oss s s1 bucket ap b local_file subpath Hp Hb.
  destruct (get_oss_bucket_ok oss _ _ _ _ Hb) as (Hs1 & _).
  exists (Posixpath.join (effective_path ap subpath)
                         [Posixpath.basename local_file]),
         (listing_prefix (effective_path ap subpath)).
  split; [|split].
  - rewrite (log_artifact_run host oss _ _ _ _ _ _ _ Hp Hb).
    now rewrite (oss_put_stored oss _ _ _ _ Hs1).
  - now rewrite (list_artifacts_answer host oss _ _ _ _ _ _ Hp Hb).
  - apply upload_key_in_query.
Qed.

Lemma upload_within_listed_prefix_witness :
  exists k q,
    calls (snd (log_artifact home_host (accepting_oss empty_listing)
                             "/tmp/a.txt" None
                             (fresh_repo "oss://mybucket/run/")))
    = [BucketInit (Some (StaticAuth "id" "secret"))
                  (Some "https://oss.example.com") "mybucket"]
      ++ [PutObjectFromFile
            (mkBucket 0 (Some (StaticAuth "id" "secret"))
                      (Some "https://oss.example.com") "mybucket")
            k "/tmp/a.txt"]
    /\ calls (snd (list_artifacts home_host (accepting_oss empty_listing)
                                  None (fresh_repo "oss://mybucket/run/")))
       = [BucketInit (Some (StaticAuth "id" "secret"))
                     (Some "https://oss.example.com") "mybucket"]
         ++ [ListObjects
               (mkBucket 0 (Some (StaticAuth "id" "secret"))
                         (Some "https://oss.example.com") "mybucket")
               q "/"]
    /\ Str.startswith k q = negb (Str.endswith "run/" Posixpath.sep).
Proof.
  exact (upload_within_listed_prefix
           home_host (accepting_oss empty_listing)
           (fresh_repo "oss://mybucket/run/") _ "mybucket" "run/" _
           "/tmp/a.txt" None eq_refl eq_refl).
Defined.

Lemma commonprefix_diverge (l r1 r2 : list string) (x y : string) :
  x <> y ->
  Posixpath.commonprefix (l ++ x :: r1) (l ++ y :: r2) = l.
Proof.
  intros Hxy. induction l as [|h l IH]; simpl.
  - apply String.eqb_neq in Hxy. now rewrite Hxy.
  - now rewrite String.eqb_refl, IH.
Qed.

Lemma append_neq (a x : string) : x <> "" -> a <> a +++ x.
Proof.
  intros Hx. induction a as [|c a IH]; simpl.
  - congruence.
  - intros H. injection H as H. contradiction.
Qed.

Lemma forallb_plain_snoc (l r : list string) (d : string) :
  forallb plain_name l = true -> plain_name d = true ->
  forallb plain_name r = true ->
  forallb plain_name (l ++ d :: r) = true.
Proof.
  intros Hl Hd Hr. rewrite forallb_app, Hl. simpl. now rewrite Hd, Hr.
Qed.

(** A path whose last shared name extends the last name of the start is
    reached through the parent directory. *)
Lemma relpath_sibling (cwd : string) (dirs_to : list string) (a x : string)
      (names : list string) :
  Posixpath.isabs cwd = true ->
  forallb plain_name (dirs_to ++ [a]) = true ->
  x <> "" -> plain_name (a +++ x) = true ->
  forallb plain_name names = true ->
  Posixpath.relpath cwd (String.concat "/" (dirs_to ++ (a +++ x) :: names))
                    (String.concat "/" (dirs_to ++ [a]))
  = OK (String.concat "/" (Posixpath.pardir :: (a +++ x) :: names)).
Proof.
  intros Hcwd HA Hx Hax Hn.
  assert (Hd : forallb plain_name dirs_to = true).
  { rewrite forallb_app in HA. now apply andb_true_iff in HA as [HA _]. }
  assert (HK : forallb plain_name (dirs_to ++ (a +++ x) :: names) = true)
    by now apply forallb_plain_snoc.
  assert (HneK : dirs_to ++ (a +++ x) :: names <> [])
    by (destruct dirs_to; discriminate).
  assert (HneA : dirs_to ++ [a] <> []) by (destruct dirs_to; discriminate).
  destruct (PathFacts.spelled_not_abs _ _ (or_introl eq_refl) HK HneK)
    as [HK0 HKabs].
  destruct (PathFacts.spelled_not_abs _ _ (or_introl eq_refl) HA HneA)
    as [HA0 HAabs].
  unfold Posixpath.relpath.
  apply StrFacts.truthy_true in HK0. rewrite HK0. simpl negb. cbv iota.
  rewrite !PathFacts.parts_abspath by assumption.
  unfold base_comps. rewrite HKabs, HAabs.
  rewrite (PathFacts.split_spelled _ _ _ (or_introl eq_refl) HK HneK).
  rewrite (PathFacts.split_spelled _ _ _ (or_introl eq_refl) HA HneA).
  rewrite !app_assoc.
  rewrite (commonprefix_diverge _ [] names a (a +++ x) (append_neq a x Hx)).
  rewrite length_app. simpl List.length.
  replace (List.length (norm_comps cwd ++ dirs_to) + 1
           - List.length (norm_comps cwd ++ dirs_to))%nat with 1%nat by lia.
  rewrite skipn_app, skipn_all, Nat.sub_diag.
  cbn [repeat skipn app].
  f_equal. apply PathFacts.join_plain; [discriminate | reflexivity |].
  simpl. now rewrite Hax, Hn.
Qed.

(** Such a path starts with the start, as strings. *)
Lemma startswith_sibling (dirs_to : list string) (a x : string)
      (names : list string) :
  Str.startswith (String.concat "/" (dirs_to ++ (a +++ x) :: names))
                 (String.concat "/" (dirs_to ++ [a])) = true.
Proof.
  induction dirs_to as [|h t IH].
  - simpl app. destruct names as [|n names].
    + apply StrFacts.startswith_app.
    + rewrite PathFacts.concat_cons by discriminate.
      rewrite StrFacts.append_assoc. apply StrFacts.startswith_app.
  - change ((h :: t) ++ (a +++ x) :: names)
      with (h :: (t ++ (a +++ x) :: names)).
    change ((h :: t) ++ [a]) with (h :: (t ++ [a])).
    rewrite !PathFacts.concat_cons by (destruct t; discriminate).
    now rewrite !startswith_app_cancel.
Qed.

(** X18. The check of the listed keys compares strings, not names: a key
    of a sibling directory whose name extends the last name of the key
    prefix (as [runner/a.txt] for the prefix [run]) passes it, and a
    listing that returns has for it a file entry whose path leaves the
    repository through [".."]. *)
Theorem listing_admits_sibling_prefix :
  forall (host : Host) (oss : Oss) (path_arg : option string) (s s1 : State)
         (bucket ap : string) (b : Bucket) (r : ListObjectsResult)
         (obj : ObjectInfo) (dirs_to : list string) (a x : string)
         (names : list string),
    parse_oss_uri host (artifact_uri (self s)) = OK (bucket, ap) ->
    _get_oss_bucket oss bucket s = (OK b, s1) ->
    list_objects oss (calls s1) b
                 (listing_prefix (effective_path ap path_arg)) "/" = inr r ->
    Posixpath.isabs (getcwd host) = true ->
    ap = String.concat "/" (dirs_to ++ [a]) ->
    forallb plain_name (dirs_to ++ [a]) = true ->
    x <> "" -> plain_name (a +++ x) = true ->
    forallb plain_name names = true ->
    In obj (object_list r) ->
    key obj = String.concat "/" (dirs_to ++ (a +++ x) :: names) ->
    _verify_listed_object_contains_artifact_path_prefix (key obj) ap = OK tt
    /\ forall infos,
        fst (list_artifacts host oss path_arg s) = OK infos ->
        In (mkFileInfo
              (String.concat "/" (Posixpath.pardir :: (a +++ x) :: names))
              false (Some (size obj)))
           infos.
Proof.
  intros host oss path_arg s s1 bucket ap b r obj dirs_to a x names
         Hp Hb Hl Hcwd Hap HA Hx Hax Hn Hin Hkey.
  split.
  - unfold _verify_listed_object_contains_artifact_path_prefix.
    now rewrite Hkey, Hap, startswith_sibling.
  - intros infos Hok.
    rewrite (list_artifacts_answer host oss _ _ _ _ _ _ Hp Hb), Hl in Hok.
    cbn [fst] in Hok.
    destruct (listing_of_entries _ _ _ _ Hok) as (files & dirs & HF & _ & ->).
    destruct (Forall2_in_left _ _ _ _ HF Hin) as (i & Hi & rel & Hrel & ->).
    rewrite Hkey, Hap in Hrel.
    rewrite (relpath_sibling (getcwd host) dirs_to a x names
                             Hcwd HA Hx Hax Hn) in Hrel.
    injection Hrel as <-.
    apply (Permutation_in _ (Permutation_sym (sorted_by_path_perm _))).
    apply in_or_app. now left.
Qed.

Lemma listing_admits_sibling_prefix_witness :
  _verify_listed_object_contains_artifact_path_prefix "runner/a.txt" "run"
  = OK tt
  /\ forall infos,
      fst (list_artifacts home_host (accepting_oss sibling_listing) None
                          bound_repo) = OK infos ->
      In (mkFileInfo "../runner/a.txt" false (Some 4%N)) infos.
Proof.
  exact (listing_admits_sibling_prefix
           home_host (accepting_oss sibling_listing) None bound_repo
           bound_repo "mybucket" "run" _ sibling_listing
           (mkObjectInfo "runner/a.txt" 4) [] "run" "ner" ["a.txt"]
           eq_refl eq_refl eq_refl eq_refl eq_refl eq_refl
           ltac:(discriminate) eq_refl eq_refl (or_introl eq_refl) eq_refl).
Defined.
